(** * prove_pow: the batch proving driver of scripts/data/prove_pow.py

    A shallow embedding of the script and the properties of its
    orchestration core: the step runner [run], the pipeline driver
    [run_prover], the batch job [prove_batch], the orchestrator [main]
    and the resume locator [auto_detect_start].

    Python strings are [string]s whose characters are code points below
    256, integers are [Z], floats are IEEE binary64 [float]s.  Everything
    the script does to the outside (files, processes, the logger) goes
    through a [World], and what the outside answers is an [Env]. *)

From Stdlib Require Import String Ascii List ZArith Bool Lia PrimFloat DecimalString DecimalPos.
Import ListNotations.
Local Open Scope string_scope.
Local Open Scope Z_scope.

(** ** Python strings *)

Module PyStr.

Definition tab : ascii := ascii_of_nat 9.
Definition LF : string := String (ascii_of_nat 10) "".

(** [str(n)] for an [int]. *)
Definition str (n : Z) : string := NilZero.string_of_int (Z.to_int n).

(** [s.startswith(p)] *)
Definition startswith (p s : string) : bool := String.prefix p s.

(** [needle in hay] *)
Fixpoint contains (needle hay : string) : bool :=
  String.prefix needle hay
  || match hay with
     | EmptyString => false
     | String _ rest => contains needle rest
     end.

(** [sep.join(l)] *)
Definition join (sep : string) (l : list string) : string := String.concat sep l.

(** The line boundaries of [str.splitlines] among the code points below
    256: LF, VT, FF, CR, FS, GS, RS and NEL; CR LF counts once. *)
Definition is_linebreak (c : ascii) : bool :=
  let n := nat_of_ascii c in
  existsb (Nat.eqb n) [10; 11; 12; 13; 28; 29; 30; 133]%nat.

Definition is_CR (c : ascii) : bool := Nat.eqb (nat_of_ascii c) 13.
Definition is_LF (c : ascii) : bool := Nat.eqb (nat_of_ascii c) 10.

Fixpoint splitlines_from (cur s : string) : list string :=
  match s with
  | EmptyString => match cur with EmptyString => [] | _ => [cur] end
  | String c rest =>
      if is_CR c then
        match rest with
        | String d rest' =>
            if is_LF d then cur :: splitlines_from "" rest'
            else cur :: splitlines_from "" rest
        | EmptyString => [cur]
        end
      else if is_linebreak c then cur :: splitlines_from "" rest
      else splitlines_from (cur ++ String c "") rest
  end.

(** [s.splitlines()] *)
Definition splitlines (s : string) : list string := splitlines_from "" s.

Definition is_digit (c : ascii) : bool :=
  let n := nat_of_ascii c in (48 <=? n)%nat && (n <=? 57)%nat.

(** The longest run of decimal digits at the head of [s]: what a greedy
    [\d*] takes there. *)
Fixpoint take_digits (s : string) : string :=
  match s with
  | String c rest => if is_digit c then String c (take_digits rest) else ""
  | EmptyString => ""
  end.

Fixpoint drop_digits (s : string) : string :=
  match s with
  | String c rest => if is_digit c then drop_digits rest else s
  | EmptyString => ""
  end.

(** [s] without the prefix [p], when it starts with it. *)
Fixpoint strip_prefix (p s : string) : option string :=
  match p, s with
  | EmptyString, _ => Some s
  | String a p', String b s' => if Ascii.eqb a b then strip_prefix p' s' else None
  | String _ _, EmptyString => None
  end.

(** [int(s)] for a string of decimal digits. *)
Definition int_of_digits (s : string) : Z :=
  fold_left (fun acc c => 10 * acc + Z.of_nat (nat_of_ascii c - 48))
            (list_ascii_of_string s) 0.

Definition nonempty (s : string) : bool :=
  match s with EmptyString => false | _ => true end.

(** [a or b] on strings: the first when it is not empty. *)
Definition or_else (a b : string) : string := if nonempty a then a else b.

(** [s.endswith(suf)] *)
Fixpoint endswith (suf s : string) : bool :=
  String.eqb s suf
  || match s with
     | EmptyString => false
     | String _ rest => endswith suf rest
     end.

(** [c.lower()]: A-Z and the capital letters of Latin-1. *)
Definition lower_char (c : ascii) : ascii :=
  let n := nat_of_ascii c in
  if ((65 <=? n) && (n <=? 90)
      || (192 <=? n) && (n <=? 222) && negb (n =? 215))%nat
  then ascii_of_nat (n + 32) else c.

(** [s.lower()] *)
Fixpoint lower (s : string) : string :=
  match s with
  | EmptyString => ""
  | String c rest => String (lower_char c) (lower rest)
  end.

(** [repr(s)] for a [str]: the quote is the apostrophe unless the string
    holds one and no double quote; the quote, the backslash and what is
    not printable are escaped. *)
Definition apostrophe : ascii := ascii_of_nat 39.
Definition double_quote : ascii := ascii_of_nat 34.
Definition backslash : ascii := ascii_of_nat 92.

Definition hex_digit (n : nat) : ascii :=
  nth n (list_ascii_of_string "0123456789abcdef") (ascii_of_nat 48).

(** [c.isprintable()] below 256: not the controls, the no-break space and
    the soft hyphen. *)
Definition is_printable (c : ascii) : bool :=
  let n := nat_of_ascii c in
  ((32 <=? n) && (n <? 127) || (161 <=? n) && negb (n =? 173))%nat.

Definition repr_char (quote c : ascii) : string :=
  let n := nat_of_ascii c in
  if Ascii.eqb c quote || Ascii.eqb c backslash then String backslash (String c "")
  else if (n =? 9)%nat then "\t"
  else if (n =? 10)%nat then "\n"
  else if (n =? 13)%nat then "\r"
  else if is_printable c then String c ""
  else String backslash
         (String (ascii_of_nat 120)
            (String (hex_digit (n / 16)) (String (hex_digit (n mod 16)) ""))).

Fixpoint repr_body (quote : ascii) (s : string) : string :=
  match s with
  | EmptyString => ""
  | String c rest => repr_char quote c ++ repr_body quote rest
  end.

Definition py_repr (s : string) : string :=
  let quote :=
    if contains (String apostrophe "") s && negb (contains (String double_quote "") s)
    then double_quote else apostrophe in
  String quote (repr_body quote s ++ String quote "").

End PyStr.
Import PyStr.


(** ** Python values and exceptions *)

(** The values that [json.load] returns and that the data and argument
    generators hand over; numbers keep their literal. *)
#[warnings="-register-all"] Inductive pyval : Type :=
| PNone
| PBool (b : bool)
| PNum (literal : string)
| PStr (s : string)
| PList (items : list pyval)
| PDict (items : list (string * pyval)).

(** An instance of a subclass of [Exception]: its class and [str(e)]. *)
Record exn : Type := mk_exn { exn_class : string; exn_msg : string }.

Inductive result (A : Type) : Type :=
| Ok (a : A)
| Raise (e : exn).
Arguments Ok {A} a.
Arguments Raise {A} e.

Definition dict_get (key : string) (d : list (string * pyval)) : option pyval :=
  option_map snd (find (fun kv => String.eqb (fst kv) key) d).

(** [type(v).__name__]; a number is a [float] when its literal has a
    fraction, an exponent, or is not finite. *)
Definition type_name (v : pyval) : string :=
  match v with
  | PNone => "NoneType"
  | PBool _ => "bool"
  | PNum literal =>
      if existsb (fun m => contains m literal) ["."; "e"; "E"; "n"; "N"] then "float"
      else "int"
  | PStr _ => "str"
  | PList _ => "list"
  | PDict _ => "dict"
  end.

(** [key in v] for a string [key]; the messages are those of CPython
    3.11, here and below. *)
Definition py_contains (key : string) (v : pyval) : result bool :=
  match v with
  | PDict d => Ok (match dict_get key d with Some _ => true | None => false end)
  | PList l =>
      Ok (existsb (fun x => match x with PStr s => String.eqb s key | _ => false end) l)
  | PStr s => Ok (contains key s)
  | _ => Raise (mk_exn "TypeError"
                  ("argument of type '" ++ type_name v ++ "' is not iterable"))
  end.

(** [v[key]] for a string [key]; [str(KeyError(key))] is [repr(key)]. *)
Definition py_getitem (key : string) (v : pyval) : result pyval :=
  match v with
  | PDict d =>
      match dict_get key d with
      | Some x => Ok x
      | None => Raise (mk_exn "KeyError" (py_repr key))
      end
  | PList _ =>
      Raise (mk_exn "TypeError" "list indices must be integers or slices, not str")
  | PStr _ => Raise (mk_exn "TypeError" "string indices must be integers, not 'str'")
  | _ => Raise (mk_exn "TypeError" ("'" ++ type_name v ++ "' object is not subscriptable"))
  end.

(** ** Paths and the file system

    A [Path] is kept as its [str], which [pathlib] holds in normal form:
    no empty and no [.] component, no trailing separator; [..] stays.
    The disk is keyed by these strings: it has no symbolic links, and
    one entry has one path. *)

Module Fs.

Inductive node : Type :=
| File (content : string)
| Dir.

(** The entries on disk, keyed by path, in the order in which the
    operating system enumerates them. *)
Definition t : Type := list (string * node).

Definition slash : ascii := ascii_of_nat 47.

(** [s.split("/")] *)
Fixpoint split (s : string) : list string :=
  match s with
  | EmptyString => [""]
  | String c rest =>
      if Ascii.eqb c slash then "" :: split rest
      else match split rest with
           | x :: xs => String c x :: xs
           | [] => [String c ""]
           end
  end.

(** The components that [pathlib] keeps. *)
Definition parts (s : string) : list string :=
  filter (fun x => nonempty x && negb (String.eqb x ".")) (split s).

(** The root of a POSIX path: one separator, or two when there are
    exactly two at the head. *)
Definition root (s : string) : string :=
  match s with
  | String a rest =>
      if Ascii.eqb a slash then
        match rest with
        | String b rest' =>
            if Ascii.eqb b slash then
              match rest' with
              | String c _ => if Ascii.eqb c slash then "/" else "//"
              | EmptyString => "//"
              end
            else "/"
        | EmptyString => "/"
        end
      else ""
  | EmptyString => ""
  end.

(** [str(Path(s))] *)
Definition Path (s : string) : string :=
  match root s, parts s with
  | EmptyString, [] => "."
  | r, ps => r ++ join (String slash "") ps
  end.

(** [p / name], for a path [p] and a [name] of one component, as the
    script has them: under [.] it is the name alone, and a root is not
    followed by a second separator. *)
Definition div (p name : string) : string :=
  if String.eqb p "." then name
  else if String.eqb p "/" || String.eqb p "//" then p ++ name
  else p ++ String slash name.

(** What precedes the last separator of [s], if it has one. *)
Fixpoint before_last_slash (s : string) : option string :=
  match s with
  | EmptyString => None
  | String c rest =>
      match before_last_slash rest with
      | Some p => Some (String c p)
      | None => if Ascii.eqb c slash then Some "" else None
      end
  end.

(** What follows the last separator of [s]: [Path(s).name]. *)
Fixpoint name (s : string) : string :=
  match s with
  | EmptyString => ""
  | String c rest =>
      match before_last_slash rest with
      | Some _ => name rest
      | None => if Ascii.eqb c slash then rest else s
      end
  end.

(** [Path(s).parent]: of the normal form, what precedes its last
    component; a root and [.] are their own parents. *)
Definition parent (s : string) : string :=
  match before_last_slash (Path s) with
  | Some EmptyString => "/"
  | Some p => if String.eqb p "/" then "//" else p
  | None => "."
  end.

Definition lookup (p : string) (fs : t) : option node :=
  option_map snd (find (fun e => String.eqb (fst e) p) fs).

(** [p.exists()] *)
Definition exists_ (p : string) (fs : t) : bool :=
  match lookup p fs with Some _ => true | None => false end.

(** [p.is_dir()] *)
Definition is_dir (p : string) (fs : t) : bool :=
  match lookup p fs with Some Dir => true | _ => false end.

Definition is_file (p : string) (fs : t) : bool :=
  match lookup p fs with Some (File _) => true | _ => false end.

(** The entries directly under [d], as paths, in enumeration order. *)
Definition children (d : string) (fs : t) : list string :=
  map fst
    (filter (fun e => String.eqb (parent (fst e)) d && nonempty (name (fst e))) fs).

Fixpoint set (p : string) (n : node) (fs : t) : t :=
  match fs with
  | [] => [(p, n)]
  | (q, m) :: rest => if String.eqb q p then (q, n) :: rest else (q, m) :: set p n rest
  end.

Definition remove (p : string) (fs : t) : t :=
  filter (fun e => negb (String.eqb (fst e) p)) fs.

(** An [OSError] of the operating system about [path]; [str(e)] is
    [[Errno N] message: 'path'], the path as its [repr]. *)
Definition os_error (class : string) (errno : Z) (strerror path : string) : exn :=
  mk_exn class ("[Errno " ++ str errno ++ "] " ++ strerror ++ ": " ++ py_repr path).

Definition ENOENT : string -> exn := os_error "FileNotFoundError" 2 "No such file or directory".
Definition EEXIST : string -> exn := os_error "FileExistsError" 17 "File exists".
Definition ENOTDIR : string -> exn := os_error "NotADirectoryError" 20 "Not a directory".
Definition EISDIR : string -> exn := os_error "IsADirectoryError" 21 "Is a directory".

(** The directory a new entry [p] goes into must be there; the working
    directory and the root always are. *)
Definition check_parent (p : string) (fs : t) : result unit :=
  let d := parent p in
  if String.eqb d "." || String.eqb d "/" || String.eqb d "//" then Ok tt
  else match lookup d fs with
       | Some Dir => Ok tt
       | Some (File _) => Raise (ENOTDIR p)
       | None => Raise (ENOENT p)
       end.

(** [p.mkdir(exist_ok=True)] *)
Definition mkdir_exist_ok (p : string) (fs : t) : result t :=
  match lookup p fs with
  | Some Dir => Ok fs
  | Some (File _) => Raise (EEXIST p)
  | None =>
      match check_parent p fs with
      | Ok _ => Ok (set p Dir fs)
      | Raise e => Raise e
      end
  end.

(** [open(p, "w")], the writes and the close. *)
Definition write (p content : string) (fs : t) : result t :=
  match lookup p fs with
  | Some Dir => Raise (EISDIR p)
  | _ =>
      match check_parent p fs with
      | Ok _ => Ok (set p (File content) fs)
      | Raise e => Raise e
      end
  end.

(** [open(p, "r")] and the read. *)
Definition read (p : string) (fs : t) : result string :=
  match lookup p fs with
  | Some (File c) => Ok c
  | Some Dir => Raise (EISDIR p)
  | None => Raise (ENOENT p)
  end.

(** [p.unlink()], when the operating system lets the entry go. *)
Definition unlink (p : string) (fs : t) : result t :=
  match lookup p fs with
  | Some (File _) => Ok (remove p fs)
  | Some Dir => Raise (EISDIR p)
  | None => Raise (ENOENT p)
  end.

(** [d.iterdir()] *)
Definition iterdir (d : string) (fs : t) : result (list string) :=
  match lookup d fs with
  | Some Dir => Ok (children d fs)
  | Some (File _) => Raise (ENOTDIR d)
  | None => Raise (ENOENT d)
  end.

End Fs.

(** [Path(v)]: a string in its normal form. *)
Definition Path_of (v : pyval) : result string :=
  match v with
  | PStr s => Ok (Fs.Path s)
  | _ => Raise (mk_exn "TypeError"
                  ("expected str, bytes or os.PathLike object, not " ++ type_name v))
  end.

(** ** The world and the script's monad *)

Inductive level : Type := DEBUG | INFO | WARNING | ERROR.

(** What the script does to the outside, as it happens. *)
Inductive event : Type :=
| Launch (cmd : list string) (timeout : option Z)
| WriteFile (path content : string)
| Unlink (path : string)
| Mkdir (path : string)
| Log (lvl : level) (msg : string).

Record World : Type := mk_World {
  fs : Fs.t;               (* the disk *)
  now : float;             (* the clock, in seconds *)
  trace : list event       (* the effects so far, oldest first *)
}.

(** [subprocess.CompletedProcess] *)
Record CompletedProcess : Type := mk_CompletedProcess {
  cp_stdout : string;
  cp_stderr : string;
  cp_returncode : Z
}.

(** What the outside answers.  A child process is given the command, the
    timeout, the disk and the clock; it leaves a disk and a clock, and
    [subprocess.run] returns or raises ([TimeoutExpired], [OSError]).
    The operating system may refuse to delete a file that is there
    ([PermissionError], [OSError]). *)
Record Env : Type := mk_Env {
  platform_system : string;
  subprocess_run :
    list string -> option Z -> Fs.t -> float ->
    result CompletedProcess * Fs.t * float;
  unlink_denied : string -> Fs.t -> option exn;
  generate_data : string -> Z -> Z -> bool -> result pyval;
  generate_assumevalid_args : string -> option string -> Fs.t -> result pyval;
  json_load : string -> result pyval;
  json_dumps : option Z -> pyval -> string;
  format_exc : exn -> string;
  isoformat : float -> string;
  format_f : nat -> float -> string;     (* f"{x:.Nf}" *)
  truediv : Z -> Z -> float              (* a / b on ints *)
}.

(** A computation returns or raises, and leaves a world either way. *)
Definition M (A : Type) : Type := World -> result A * World.

Definition ret {A} (a : A) : M A := fun w => (Ok a, w).

Definition raise {A} (e : exn) : M A := fun w => (Raise e, w).

Definition bind {A B} (m : M A) (k : A -> M B) : M B :=
  fun w =>
    match m w with
    | (Ok a, w') => k a w'
    | (Raise e, w') => (Raise e, w')
    end.

(** [try: body except <classes> as e: handler e] *)
Definition try_except {A} (body : M A) (catches : exn -> bool) (handler : exn -> M A)
  : M A :=
  fun w =>
    match body w with
    | (Ok a, w') => (Ok a, w')
    | (Raise e, w') => if catches e then handler e w' else (Raise e, w')
    end.

(** Every modelled exception derives from [Exception]. *)
Definition Exception (e : exn) : bool := true.

Definition TimeoutExpired (e : exn) : bool :=
  String.eqb (exn_class e) "TimeoutExpired".

Declare Scope py_scope.
Delimit Scope py_scope with py.
Notation "x <- m ;; k" := (bind m (fun x => k))
  (at level 61, m at next level, right associativity) : py_scope.
Notation "m ;; k" := (bind m (fun _ => k))
  (at level 61, right associativity) : py_scope.
Local Open Scope py_scope.

Definition lift {A} (r : result A) : M A := fun w => (r, w).

Definition emit (e : event) : M unit :=
  fun w => (Ok tt, mk_World (fs w) (now w) (trace w ++ [e])).

(** [logger.debug], [logger.info], [logger.warning], [logger.error] *)
Definition logger (lvl : level) (msg : string) : M unit := emit (Log lvl msg).

(** [time.time()] *)
Definition time_time : M float := fun w => (Ok (now w), w).

Definition path_exists (p : string) : M bool := fun w => (Ok (Fs.exists_ p (fs w)), w).

Definition path_is_dir (p : string) : M bool := fun w => (Ok (Fs.is_dir p (fs w)), w).

Definition with_fs (op : Fs.t -> result Fs.t) (e : event) : M unit :=
  fun w =>
    match op (fs w) with
    | Ok fs' => (Ok tt, mk_World fs' (now w) (trace w ++ [e]))
    | Raise x => (Raise x, w)
    end.

Definition mkdir_exist_ok (p : string) : M unit := with_fs (Fs.mkdir_exist_ok p) (Mkdir p).

Definition write_text (p content : string) : M unit :=
  with_fs (Fs.write p content) (WriteFile p content).

Definition read_text (p : string) : M string := fun w => (Fs.read p (fs w), w).

(** [for x in l: body x] *)
Fixpoint for_each {A} (l : list A) (body : A -> M unit) : M unit :=
  match l with
  | [] => ret tt
  | x :: rest => body x ;; for_each rest body
  end.

(** ** The script *)

Definition PROOF_DIR : string := ".proofs".

Record StepInfo : Type := mk_StepInfo {
  step : string;
  stdout : string;
  stderr : string;
  returncode : Z;
  elapsed : float;
  max_memory : option Z
}.

(** The test of the loop of [run] on one line of the error stream. *)
Definition is_time_line (line : string) : bool :=
  startswith (String tab "") line
  || contains "Maximum resident set size" line
  || contains "Command being timed" line
  || contains "User time" line
  || contains "System time" line
  || contains "Percent of CPU" line
  || contains "Elapsed (wall clock) time" line
  || contains "Average" line
  || contains "Exit status" line.

(** The loop of [run] over the lines, with its two lists
    [(time_lines, actual_stderr)]. *)
Definition split_stderr (lines : list string) : list string * list string :=
  fold_left
    (fun (acc : list string * list string) line =>
       if is_time_line line then ((fst acc ++ [line])%list, snd acc)
       else (fst acc, (snd acc ++ [line])%list))
    lines ([], []).

(** [re.search(r"Maximum resident set size \(kbytes\): (\d+)", s)] and its
    group 1: the leftmost place where the literal is followed by a digit,
    and the digits there. *)
Fixpoint search_max_rss (s : string) : option string :=
  let next :=
    match s with
    | EmptyString => None
    | String _ rest => search_max_rss rest
    end in
  match strip_prefix "Maximum resident set size (kbytes): " s with
  | Some after => if nonempty (take_digits after) then Some (take_digits after) else next
  | None => next
  end.

(** [f"{timeout}"] *)
Definition str_timeout (timeout : option Z) : string :=
  match timeout with
  | Some t => str t
  | None => "None"
  end.

(** [re.compile(r"light_\d+_to_(\d+)").match(name)] and its group 1.  A
    run of digits is followed by a character that is not one, so the
    greedy [\d+] never gives a digit back. *)
Definition match_batch_dir (name : string) : option string :=
  match strip_prefix "light_" name with
  | None => None
  | Some after_mode =>
      if nonempty (take_digits after_mode) then
        match strip_prefix "_to_" (drop_digits after_mode) with
        | None => None
        | Some after_to =>
            if nonempty (take_digits after_to) then Some (take_digits after_to) else None
        end
      else None
  end.

(** [fnmatch(name, f"{mode}_*_to_{height}")] *)
Definition fnmatch_ends_at (mode : string) (height : Z) (name : string) : bool :=
  match strip_prefix (mode ++ "_") name with
  | Some rest => endswith ("_to_" ++ str height) rest
  | None => false
  end.

(** [range(start, stop, step)] as a list. *)
Definition py_range (start stop step : Z) : result (list Z) :=
  if step =? 0 then Raise (mk_exn "ValueError" "range() arg 3 must not be zero")
  else
    let n := if 0 <? step then (stop - start + step - 1) / step
             else (start - stop - step - 1) / (- step) in
    Ok (map (fun i => start + Z.of_nat i * step) (seq 0 (Z.to_nat n))).

(** [l[-1]] *)
Definition py_last {A} (l : list A) : result A :=
  match rev l with
  | x :: _ => Ok x
  | [] => Raise (mk_exn "IndexError" "list index out of range")
  end.

Inductive loop_exit : Type :=
| Exhausted (processed_count : Z)      (* the [for] ran to its end *)
| Returned (processed_count : Z).      (* the [return] inside the loop *)

Section Script.

Variable env : Env.

(** [subprocess.run(cmd, capture_output=True, text=True, check=False,
    timeout=timeout)] *)
Definition subprocess_run_ (cmd : list string) (timeout : option Z) : M CompletedProcess :=
  fun w =>
    let '(r, fs', now') := subprocess_run env cmd timeout (fs w) (now w) in
    (r, mk_World fs' now' (trace w ++ [Launch cmd timeout])).

Definition RuntimeError_not_Linux : exn :=
  mk_exn "RuntimeError"
         "This script only supports Linux for timing and memory measurement.".

(** [run(cmd, timeout=None)] returns
    [(stdout, cleaned_stderr, returncode, elapsed, max_memory)]. *)
Definition run (cmd : list string) (timeout : option Z)
  : M (string * string * Z * float * option Z) :=
  if negb (String.eqb (platform_system env) "Linux") then raise RuntimeError_not_Linux
  else
    let time_cmd := (["/usr/bin/time"; "-v"] ++ cmd)%list in
    start_time <- time_time ;;
    try_except
      (result <- subprocess_run_ time_cmd timeout ;;
       t <- time_time ;;
       let elapsed := PrimFloat.sub t start_time in
       let max_mem_match := search_max_rss (cp_stderr result) in
       let max_memory := option_map int_of_digits max_mem_match in
       let actual_stderr := snd (split_stderr (splitlines (cp_stderr result))) in
       let cleaned_stderr := join LF actual_stderr in
       ret (cp_stdout result, cleaned_stderr, cp_returncode result, elapsed, max_memory))
      TimeoutExpired
      (fun e =>
         t <- time_time ;;
         let elapsed := PrimFloat.sub t start_time in
         ret ("", "Process timed out after " ++ str_timeout timeout ++ " seconds",
              -1, elapsed, None)).

(** The text that [save_prover_log] writes. *)
Definition prover_log_text (timestamp step_name stdout stderr : string)
    (returncode : Z) (elapsed : float) (max_memory : option Z) : string :=
  "=== " ++ step_name ++ " STEP LOG ===" ++ LF
  ++ "Timestamp: " ++ timestamp ++ LF
  ++ "Return Code: " ++ str returncode ++ LF
  ++ "Execution Time: " ++ format_f env 2 elapsed ++ " seconds" ++ LF
  ++ match max_memory with
     | Some m => "Max Memory Usage: " ++ format_f env 1 (truediv env m 1024) ++ " MB" ++ LF
     | None => ""
     end
  ++ LF
  ++ (if nonempty stdout then "=== STDOUT ===" ++ LF ++ stdout ++ LF else "")
  ++ (if nonempty stderr then "=== STDERR ===" ++ LF ++ stderr ++ LF else "").

Definition log_file_of (batch_dir step_name : string) : string :=
  Fs.div batch_dir (lower step_name ++ ".log").

Definition save_prover_log (batch_dir step_name stdout stderr : string)
    (returncode : Z) (elapsed : float) (max_memory : option Z) : M unit :=
  let log_file := log_file_of batch_dir step_name in
  t <- time_time ;;
  write_text log_file
    (prover_log_text (isoformat env t) step_name stdout stderr returncode elapsed max_memory).

Definition pie_cmd (batch_dir executable arguments : string) : list string :=
  ["cairo-execute"; "--layout"; "all_cairo_stwo"; "--args-file"; arguments;
   "--prebuilt"; "--output-path"; Fs.div batch_dir "pie.cairo_pie.zip"; executable].

Definition bootload_cmd (batch_dir : string) : list string :=
  ["stwo-bootloader"; "--pie"; Fs.div batch_dir "pie.cairo_pie.zip";
   "--output-path"; batch_dir].

Definition prove_cmd (batch_dir proof : string) : list string :=
  ["adapted_stwo"; "--priv_json"; Fs.div batch_dir "priv.json";
   "--pub_json"; Fs.div batch_dir "pub.json";
   "--params_json"; "../../packages/assumevalid/prover_params.json";
   "--proof_path"; proof; "--proof-format"; "cairo-serde"; "--verify"].

(** [if key in priv_data: temp_files.append(Path(priv_data[key]))], on the
    list as it stands: what was appended stays when a later line raises. *)
Definition append_recorded (key : string) (priv_data : pyval) (temp_files : list string)
  : result unit * list string :=
  match py_contains key priv_data with
  | Raise e => (Raise e, temp_files)
  | Ok false => (Ok tt, temp_files)
  | Ok true =>
      match py_getitem key priv_data with
      | Raise e => (Raise e, temp_files)
      | Ok v =>
          match Path_of v with
          | Raise e => (Raise e, temp_files)
          | Ok p => (Ok tt, (temp_files ++ [p])%list)
          end
      end
  end.

(** The [try] block that reads [priv.json], on the list as it stands. *)
Definition read_recorded (priv_json : string) (temp_files : list string) (disk : Fs.t)
  : result unit * list string :=
  match Fs.read priv_json disk with
  | Raise e => (Raise e, temp_files)
  | Ok text =>
      match json_load env text with
      | Raise e => (Raise e, temp_files)
      | Ok priv_data =>
          match append_recorded "trace_path" priv_data temp_files with
          | (Raise e, temp_files) => (Raise e, temp_files)
          | (Ok _, temp_files) =>
              match append_recorded "memory_path" priv_data temp_files with
              | (Raise e, temp_files) => (Raise e, temp_files)
              | (Ok _, temp_files) => (Ok tt, (temp_files ++ [priv_json])%list)
              end
          end
      end
  end.

(** The files that the cleanup of [run_prover] goes through. *)
Definition collect_temp_files (pie_file pub_json priv_json : string) : M (list string) :=
  let temp_files := [pie_file; pub_json] in
  present <- path_exists priv_json ;;
  if present then
    fun w =>
      match read_recorded priv_json temp_files (fs w) with
      | (Ok _, temp_files) => (Ok temp_files, w)
      | (Raise e, temp_files) =>
          (logger WARNING
             ("Failed to parse " ++ priv_json ++ " for cleanup: " ++ exn_msg e) ;;
           ret (temp_files ++ [priv_json])%list) w
      end
  else ret temp_files.

(** [os.unlink]: the entry goes unless the operating system refuses. *)
Definition os_unlink (p : string) (disk : Fs.t) : result Fs.t :=
  match Fs.unlink p disk with
  | Raise e => Raise e
  | Ok disk' =>
      match unlink_denied env p disk with
      | Some e => Raise e
      | None => Ok disk'
      end
  end.

(** [p.unlink()] *)
Definition unlink (p : string) : M unit := with_fs (os_unlink p) (Unlink p).

(** The body of the cleanup loop. *)
Definition remove_temp_file (temp_file : string) : M unit :=
  try_except
    (present <- path_exists temp_file ;;
     if present then
       unlink temp_file ;;
       logger DEBUG ("Cleaned up temporary file: " ++ temp_file)
     else ret tt)
    Exception
    (fun e => logger WARNING ("Failed to clean up " ++ temp_file ++ ": " ++ exn_msg e)).

(** Lines 273-298 of [run_prover]: the cleanup after a successful proof. *)
Definition cleanup_temp_files (pie_file pub_json priv_json : string) : M unit :=
  temp_files <- collect_temp_files pie_file pub_json priv_json ;;
  for_each temp_files remove_temp_file.

(** One step of the pipeline: the command is logged and run, the result
    is recorded and its log saved. *)
Definition run_step (job_info batch_dir step_name : string) (cmd : list string)
  : M StepInfo :=
  logger DEBUG (job_info ++ " [" ++ step_name ++ "] command:" ++ LF ++ join " " cmd) ;;
  r <- run cmd None ;;
  let '(stdout, stderr, returncode, elapsed, max_memory) := r in
  save_prover_log batch_dir step_name stdout stderr returncode elapsed max_memory ;;
  ret (mk_StepInfo step_name stdout stderr returncode elapsed max_memory).

(** [run_prover(job_info, executable, proof, arguments)] *)
Definition run_prover (job_info executable proof arguments : string)
  : M (list StepInfo) :=
  let batch_dir := Fs.parent proof in
  let pie_file := Fs.div batch_dir "pie.cairo_pie.zip" in
  let priv_json := Fs.div batch_dir "priv.json" in
  let pub_json := Fs.div batch_dir "pub.json" in
  let steps_info := [] in
  (* 1. Generate pie *)
  info <- run_step job_info batch_dir "PIE" (pie_cmd batch_dir executable arguments) ;;
  let steps_info := (steps_info ++ [info])%list in
  if negb (returncode info =? 0) then ret steps_info
  else
    (* 2. Bootload *)
    info <- run_step job_info batch_dir "BOOTLOAD" (bootload_cmd batch_dir) ;;
    let steps_info := (steps_info ++ [info])%list in
    if negb (returncode info =? 0) then
      logger ERROR
        (job_info ++ " [BOOTLOAD] error: " ++ or_else (stdout info) (stderr info)) ;;
      ret steps_info
    else
      (* 3. Prove *)
      info <- run_step job_info batch_dir "PROVE" (prove_cmd batch_dir proof) ;;
      let steps_info := (steps_info ++ [info])%list in
      (if returncode info =? 0 then cleanup_temp_files pie_file pub_json priv_json
       else ret tt) ;;
      ret steps_info.

Definition mode : string := "light".

Definition job_info_of (height step : Z) : string :=
  "Job(height='" ++ str height ++ "', blocks=" ++ str step ++ ")".

Definition batch_name_of (height step : Z) : string :=
  mode ++ "_" ++ str height ++ "_to_" ++ str (height + step).

(** [PROOF_DIR.glob(f"{mode}_*_to_{height}")]: nothing when [PROOF_DIR]
    is not a directory. *)
Definition glob_ends_at (height : Z) (disk : Fs.t) : list string :=
  if Fs.is_dir PROOF_DIR disk then
    filter (fun p => fnmatch_ends_at mode height (Fs.name p)) (Fs.children PROOF_DIR disk)
  else [].

(** The [for proof_dir in ...] loop of [prove_batch], from the value that
    [previous_proof_file] has on entry. *)
Fixpoint scan_previous (disk : Fs.t) (dirs : list string)
    (previous_proof_file : option string) : option string :=
  match dirs with
  | [] => previous_proof_file
  | proof_dir :: rest =>
      let previous_proof_file := Fs.div proof_dir "proof.json" in
      if Fs.exists_ previous_proof_file disk then Some previous_proof_file   (* break *)
      else scan_previous disk rest (Some previous_proof_file)
  end.

(** Lines 316-323 of [prove_batch]: the previous proof. *)
Definition find_previous_proof (height : Z) : M (option string) :=
  fun w =>
    let previous_proof_file := None in
    if 0 <? height then
      (Ok (scan_previous (fs w) (glob_ends_at height (fs w)) previous_proof_file), w)
    else (Ok previous_proof_file, w).

(** Lines 311-346 of [prove_batch]: the directory, the previous proof,
    the batch data and the arguments; returns
    [(proof_file, arguments_file)]. *)
Definition prepare_batch (job_info : string) (height step : Z) : M (string * string) :=
  let batch_name := batch_name_of height step in
  let batch_dir := Fs.div PROOF_DIR batch_name in
  mkdir_exist_ok batch_dir ;;
  previous_proof_file <- find_previous_proof height ;;
  logger DEBUG (job_info ++ " generating data...") ;;
  let batch_file := Fs.div batch_dir "batch.json" in
  batch_data <- lift (generate_data env mode height step true) ;;
  chain_state <- lift (py_getitem "chain_state" batch_data) ;;
  blocks <- lift (py_getitem "blocks" batch_data) ;;
  let batch_args := PDict [("chain_state", chain_state); ("blocks", blocks)] in
  write_text batch_file (json_dumps env (Some 2) batch_args) ;;
  logger DEBUG (job_info ++ " generating args...") ;;
  let arguments_file := Fs.div batch_dir "arguments.json" in
  args <- (fun w =>
             (generate_assumevalid_args env batch_file previous_proof_file (fs w), w)) ;;
  write_text arguments_file (json_dumps env None args) ;;
  let proof_file := Fs.div batch_dir "proof.json" in
  ret (proof_file, arguments_file).

Definition mem_usage_of (m : option Z) : string :=
  match m with
  | Some m => format_f env 1 (truediv env m 1024) ++ " MB"
  | None => "N/A"
  end.

(** Lines 356-388 of [prove_batch]: totals, the last step, the verdict. *)
Definition conclude_batch (job_info : string) (steps_info : list StepInfo) : M bool :=
  let total_elapsed := fold_left PrimFloat.add (map elapsed steps_info) PrimFloat.zero in
  let max_memory_candidates :=
    flat_map (fun s => match max_memory s with Some m => [m] | None => [] end)
             steps_info in
  let peak_memory :=
    match max_memory_candidates with
    | [] => None
    | m :: ms => Some (fold_left Z.max ms m)
    end in
  last_step <- lift (py_last steps_info) ;;
  let final_return_code := returncode last_step in
  if negb (final_return_code =? 0) then
    let error := or_else (stderr last_step) (stdout last_step) in
    logger ERROR (job_info ++ " error:" ++ LF ++ error) ;;
    ret false
  else
    for_each steps_info
      (fun info =>
         logger DEBUG
           (job_info ++ ", [" ++ step info ++ "] time: " ++ format_f env 2 (elapsed info)
            ++ " s max memory: " ++ mem_usage_of (max_memory info))) ;;
    logger INFO
      (job_info ++ " done, total execution time: " ++ format_f env 2 total_elapsed
       ++ " seconds"
       ++ match peak_memory with
          | Some m => ", max memory: " ++ format_f env 1 (truediv env m 1024) ++ " MB"
          | None => ""
          end) ;;
    ret true.

(** The [try] block of [prove_batch]. *)
Definition prove_batch_body (job_info : string) (height step : Z) : M bool :=
  files <- prepare_batch job_info height step ;;
  steps_info <- run_prover job_info "../../target/proving/assumevalid.executable.json"
                           (fst files) (snd files) ;;
  conclude_batch job_info steps_info.

(** The message of the [except Exception] branch of [prove_batch]. *)
Definition batch_error_message (job_info : string) (e : exn) : string :=
  job_info ++ " error while processing " ++ job_info ++ ":" ++ LF ++ exn_msg e ++ LF
  ++ "stacktrace:" ++ LF ++ format_exc env e.

(** [prove_batch(height, step)] *)
Definition prove_batch (height step : Z) : M bool :=
  let job_info := job_info_of height step in
  logger DEBUG (job_info ++ " proving...") ;;
  try_except (prove_batch_body job_info height step)
    Exception
    (fun e => logger ERROR (batch_error_message job_info e) ;; ret false).

(** The [for height in height_range] loop of [main]. *)
Fixpoint main_loop (heights : list Z) (processing_step processed_count : Z)
  : M loop_exit :=
  match heights with
  | [] => ret (Exhausted processed_count)
  | height :: rest =>
      success <- prove_batch height processing_step ;;
      if success : bool then main_loop rest processing_step (processed_count + 1)
      else
        logger INFO
          ("Job at height: " ++ str height ++ " failed, stopping further processing") ;;
        ret (Returned processed_count)
  end.

(** [main(start, blocks, step)] *)
Definition main (start blocks step : Z) : M unit :=
  logger INFO
    ("Initial height: " ++ str start ++ ", blocks: " ++ str blocks
     ++ ", step: " ++ str step) ;;
  mkdir_exist_ok PROOF_DIR ;;
  let end_ := start + blocks in
  height_range <- lift (py_range start end_ step) ;;
  let processing_step := step in
  let processed_count := 0 in
  let total_jobs := Z.of_nat (length height_range) in
  exit <- main_loop height_range processing_step processed_count ;;
  match exit with
  | Returned _ => ret tt
  | Exhausted processed_count =>
      logger INFO
        ("All " ++ str processed_count ++ " jobs have been processed successfully")
  end.

(** The body of the loop of [auto_detect_start] on one entry. *)
Definition scan_entry (disk : Fs.t) (max_height : Z) (proof_dir : string) : Z :=
  if Fs.is_dir proof_dir disk then
    match match_batch_dir (Fs.name proof_dir) with
    | Some group1 =>
        let proof_file := Fs.div proof_dir "proof.json" in
        if Fs.exists_ proof_file disk then
          let end_height := int_of_digits group1 in
          if end_height >? max_height then end_height else max_height
        else max_height
    | None => max_height
    end
  else max_height.

(** [auto_detect_start()] *)
Definition auto_detect_start : M Z :=
  let max_height := 0 in
  present <- path_exists PROOF_DIR ;;
  if negb present then ret max_height
  else
    fun w =>
      match Fs.iterdir PROOF_DIR (fs w) with
      | Raise e => (Raise e, w)
      | Ok entries => (Ok (fold_left (scan_entry (fs w)) entries max_height), w)
      end.

End Script.

(** ** A concrete outside

    Three tools that behave as the pipeline expects: the executor leaves
    the pie, the bootloader the private and public inputs with a trace
    and a memory file, the prover the proof.  Each exits with the code
    it is given. *)

Module Demo.

Definition priv_text : string := "{trace_path: /tmp/trace.bin, memory_path: /tmp/memory.bin}".

Definition priv_data : pyval :=
  PDict [("trace_path", PStr "/tmp/trace.bin"); ("memory_path", PStr "/tmp/memory.bin")].

Definition json_load (text : string) : result pyval :=
  if String.eqb text priv_text then Ok priv_data
  else Raise (mk_exn "JSONDecodeError" "Expecting value").

(** What [/usr/bin/time -v] adds to the error stream. *)
Definition time_report : string :=
  String tab "Command being timed: tool" ++ LF
  ++ String tab "User time (seconds): 0.10" ++ LF
  ++ String tab "Maximum resident set size (kbytes): 2048" ++ LF
  ++ String tab "Exit status: 0".

Definition tick (clock : float) : float := PrimFloat.add clock PrimFloat.one.

Definition completed (warning : string) (code : Z) : result CompletedProcess :=
  Ok (mk_CompletedProcess "" (warning ++ LF ++ time_report) code).

Definition tools (pie_code bootload_code prove_code : Z)
    (cmd : list string) (timeout : option Z) (disk : Fs.t) (clock : float)
  : result CompletedProcess * Fs.t * float :=
  let tool := nth 2 cmd "" in
  if String.eqb tool "cairo-execute" then
    (completed "executor: done" pie_code,
     if pie_code =? 0 then Fs.set (nth 9 cmd "") (Fs.File "pie") disk else disk,
     tick clock)
  else if String.eqb tool "stwo-bootloader" then
    (completed "bootloader: done" bootload_code,
     if bootload_code =? 0 then
       Fs.set (Fs.div (nth 6 cmd "") "priv.json") (Fs.File priv_text)
         (Fs.set (Fs.div (nth 6 cmd "") "pub.json") (Fs.File "pub")
            (Fs.set "/tmp/trace.bin" (Fs.File "trace")
               (Fs.set "/tmp/memory.bin" (Fs.File "memory") disk)))
     else disk,
     tick clock)
  else if String.eqb tool "adapted_stwo" then
    (completed "prover: done" prove_code,
     if prove_code =? 0 then Fs.set (nth 10 cmd "") (Fs.File "proof") disk else disk,
     tick clock)
  else (Raise (mk_exn "FileNotFoundError" tool), disk, clock).

(** A tool that never exits: [subprocess.run] gives up at the timeout. *)
Definition hangs (cmd : list string) (timeout : option Z) (disk : Fs.t) (clock : float)
  : result CompletedProcess * Fs.t * float :=
  (Raise (mk_exn "TimeoutExpired" "timed out"), disk,
   PrimFloat.add clock 5%float).

Definition batch_data : pyval := PDict [("chain_state", PDict []); ("blocks", PList [])].

Definition env_with (system : string)
    (procs : list string -> option Z -> Fs.t -> float ->
             result CompletedProcess * Fs.t * float)
    (denied : string -> Fs.t -> option exn) : Env :=
  mk_Env system procs denied
    (fun _ _ _ _ => Ok batch_data)
    (fun batch_file previous _ =>
       Ok (PList (PStr batch_file
                  :: match previous with Some p => [PStr p] | None => [] end)))
    json_load
    (fun _ _ => "{}")
    (fun e => "Traceback (most recent call last): " ++ exn_class e)
    (fun _ => "2025-01-01T00:00:00")
    (fun _ _ => "0.00")
    (fun _ _ => PrimFloat.zero).

(** An operating system that refuses no deletion. *)
Definition env_of (system : string)
    (procs : list string -> option Z -> Fs.t -> float ->
             result CompletedProcess * Fs.t * float) : Env :=
  env_with system procs (fun _ _ => None).

(** Linux, with tools that all succeed. *)
Definition env : Env := env_of "Linux" (tools 0 0 0).

(** The same, where the public input cannot be deleted. *)
Definition guarded : Env :=
  env_with "Linux" (tools 0 0 0)
    (fun p _ =>
       if endswith "pub.json" p
       then Some (Fs.os_error "PermissionError" 13 "Permission denied" p)
       else None).

(** Tools that succeed and leave a mess: the executor leaves a directory
    where the pie file should be, the bootloader a private input that is
    not JSON. *)
Definition messy_tools
    (cmd : list string) (timeout : option Z) (disk : Fs.t) (clock : float)
  : result CompletedProcess * Fs.t * float :=
  let tool := nth 2 cmd "" in
  if String.eqb tool "cairo-execute" then
    (completed "executor: done" 0, Fs.set (nth 9 cmd "") Fs.Dir disk, tick clock)
  else if String.eqb tool "stwo-bootloader" then
    (completed "bootloader: done" 0,
     Fs.set (Fs.div (nth 6 cmd "") "priv.json") (Fs.File "not json")
       (Fs.set (Fs.div (nth 6 cmd "") "pub.json") (Fs.File "pub") disk),
     tick clock)
  else (completed "prover: done" 0, Fs.set (nth 10 cmd "") (Fs.File "proof") disk,
        tick clock).

(** A machine on which nothing can be launched: [/usr/bin/time] is not
    installed. *)
Definition no_time_tool
    (cmd : list string) (timeout : option Z) (disk : Fs.t) (clock : float)
  : result CompletedProcess * Fs.t * float :=
  (Raise (mk_exn "FileNotFoundError" "/usr/bin/time"), disk, clock).

(** Linux, with a prover that exits with code 1. *)
Definition failing_prover : Env := env_of "Linux" (tools 0 0 1).

(** Linux, with the tools that leave a mess. *)
Definition messy : Env := env_of "Linux" messy_tools.

(** The same on a platform that [run] refuses. *)
Definition darwin : Env := env_of "Darwin" (tools 0 0 0).

(** Linux, with tools that all succeed and a data generator that cannot
    reach its node for the batch that starts at [bad]. *)
Definition flaky (bad : Z) : Env :=
  mk_Env "Linux" (tools 0 0 0) (unlink_denied env)
    (fun _ initial_height _ _ =>
       if initial_height =? bad then Raise (mk_exn "ConnectionError" "node unreachable")
       else Ok batch_data)
    (generate_assumevalid_args env)
    json_load
    (json_dumps env)
    (format_exc env)
    (isoformat env)
    (format_f env)
    (truediv env).

(** An empty [.proofs] at time zero, nothing done yet. *)
Definition world : World := mk_World [(PROOF_DIR, Fs.Dir)] PrimFloat.zero [].

End Demo.

(** The markers of the timing report as the specification lists them,
    with the two more that [run] also tests. *)
Definition time_markers : list string :=
  ["Maximum resident set size"; "User time"; "Elapsed (wall clock) time";
   "Command being timed"; "Percent of CPU"; "Exit status";
   "System time"; "Average"].

(** A line of the timing report, in the specification's words. *)
Definition timing_line (line : string) : bool :=
  startswith (String tab "") line || existsb (fun m => contains m line) time_markers.

(** The command that [run] launches for [cmd]. *)
Definition timed (cmd : list string) : list string := "/usr/bin/time" :: "-v" :: cmd.

(** ** Observations on a trace *)

(** The commands launched, in order. *)
Definition launches (tr : list event) : list (list string) :=
  flat_map (fun e => match e with Launch cmd _ => [cmd] | _ => [] end) tr.

(** The files written, in order. *)
Definition written (tr : list event) : list string :=
  flat_map (fun e => match e with WriteFile p _ => [p] | _ => [] end) tr.

(** The files deleted, in order. *)
Definition unlinked (tr : list event) : list string :=
  flat_map (fun e => match e with Unlink p => [p] | _ => [] end) tr.

(** The messages logged at a level, in order. *)
Definition logged (lvl : level) (tr : list event) : list string :=
  flat_map (fun e => match e with
                     | Log l msg =>
                         match l, lvl with
                         | DEBUG, DEBUG | INFO, INFO | WARNING, WARNING | ERROR, ERROR =>
                             [msg]
                         | _, _ => []
                         end
                     | _ => []
                     end) tr.

(** What happened between two worlds of one run. *)
Definition new_events (w w' : World) : list event := skipn (length (trace w)) (trace w').

(** The three commands of the pipeline, as launched, in their order. *)
Definition pipeline (batch_dir executable proof arguments : string) : list (list string) :=
  [timed (pie_cmd batch_dir executable arguments);
   timed (bootload_cmd batch_dir);
   timed (prove_cmd batch_dir proof)].

Definition step_names : list string := ["PIE"; "BOOTLOAD"; "PROVE"].

(** A path that [priv.json], as it is on [disk], records as its trace or
    memory file: the [Path] of the string under one of the two keys. *)
Definition recorded_in (env : Env) (priv_json : string) (disk : Fs.t) (p : string) : Prop :=
  exists text data key,
    Fs.read priv_json disk = Ok text
    /\ json_load env text = Ok data
    /\ (key = "trace_path" \/ key = "memory_path")
    /\ exists raw, py_getitem key data = Ok (PStr raw) /\ p = Fs.Path raw.

(** The log of a step, as [save_prover_log] writes it at [timestamp]. *)
Definition step_log (env : Env) (timestamp : string) (info : StepInfo) : string :=
  prover_log_text env timestamp (step info) (stdout info) (stderr info)
    (returncode info) (elapsed info) (max_memory info).

(** The command of a step of the pipeline. *)
Definition command_of (batch_dir executable proof arguments step_name : string)
  : list string :=
  if String.eqb step_name "PIE" then pie_cmd batch_dir executable arguments
  else if String.eqb step_name "BOOTLOAD" then bootload_cmd batch_dir
  else prove_cmd batch_dir proof.

(** Between [w] and [w'] the step of the pipeline that [info] names was
    run, returned [info], and left the log of [info] on the disk, in the
    file of this step. *)
Definition step_logged (env : Env) (job_info executable proof arguments : string)
    (w w' : World) (info : StepInfo) : Prop :=
  exists wa wk,
    run_step env job_info (Fs.parent proof) (step info)
      (command_of (Fs.parent proof) executable proof arguments (step info)) wa
    = (Ok info, wk)
    /\ (exists a, trace wa = (trace w ++ a)%list)
    /\ (exists b, trace w' = (trace wk ++ b)%list)
    /\ Fs.read (log_file_of (Fs.parent proof) (step info)) (fs wk)
       = Ok (step_log env (isoformat env (now wk)) info).

(** A component of a path in normal form. *)
Definition component (x : string) : Prop :=
  Fs.before_last_slash x = None /\ x <> "" /\ x <> ".".

(** What the cleanup leaves of [p]: no regular file, unless the operating
    system refused the deletion, and then the log of the run says so,
    with the message of the system. *)
Definition cleaned (env : Env) (p : string) (w w' : World) : Prop :=
  Fs.is_file p (fs w') = false
  \/ exists e disk,
       unlink_denied env p disk = Some e
       /\ In ("Failed to clean up " ++ p ++ ": " ++ exn_msg e)
             (logged WARNING (new_events w w')).

(** A private-input file that reads as an object whose trace and memory
    entries, when present, are strings. *)
Definition well_formed_priv (data : pyval) : Prop :=
  exists items,
    data = PDict items
    /\ forall key v,
         key = "trace_path" \/ key = "memory_path" ->
         dict_get key items = Some v -> exists p, v = PStr p.

(** A stretch of a trace that launches, writes and deletes nothing. *)
Definition quiet (tr : list event) : Prop :=
  launches tr = [] /\ written tr = [] /\ unlinked tr = [].

(** The world in which the [try] block of [prove_batch] starts. *)
Definition started (height step : Z) (w : World) : World :=
  mk_World (fs w) (now w)
           (trace w ++ [Log DEBUG (job_info_of height step ++ " proving...")]).

(** The executable that [prove_batch] hands to [run_prover]. *)
Definition EXECUTABLE : string := "../../target/proving/assumevalid.executable.json".

(** A computation that launches no process and deletes no file. *)
Definition harmless {A} (m : M A) : Prop :=
  forall w r w',
    m w = (r, w') ->
    exists delta,
      trace w' = (trace w ++ delta)%list /\ launches delta = [] /\ unlinked delta = [].

(** The world in which [main] enters its loop, when it gets there. *)
Definition announced (start blocks step : Z) (w : World) : World :=
  mk_World (fs w) (now w)
    (trace w ++ [Log INFO ("Initial height: " ++ str start ++ ", blocks: " ++ str blocks
                           ++ ", step: " ++ str step)]).

(** The end height that the scan of [auto_detect_start] reads off an
    entry of [PROOF_DIR]: the entry is a directory, holds a [proof.json],
    and its name begins as the name of a batch; the pattern is matched
    at the head of the name only, so that what follows the digits of the
    end height is not looked at. *)
Definition counted_end (disk : Fs.t) (proof_dir : string) : option Z :=
  if Fs.is_dir proof_dir disk && Fs.exists_ (Fs.div proof_dir "proof.json") disk then
    option_map int_of_digits (match_batch_dir (Fs.name proof_dir))
  else None.

(** The end heights that the scan reads; none where [PROOF_DIR] is not a
    directory. *)
Definition counted_end_heights (disk : Fs.t) : list Z :=
  if Fs.is_dir PROOF_DIR disk then
    flat_map (fun d => match counted_end disk d with Some e => [e] | None => [] end)
             (Fs.children PROOF_DIR disk)
  else [].

(** The end height of a batch directory in the words of the
    specification: the name is [light_<start>_to_<end>], all of it, as
    the batch job names its directory, and the end-height suffix is what
    follows [_to_]. *)
Definition batch_end_suffix (name : string) : option Z :=
  match strip_prefix "light_" name with
  | None => None
  | Some after_mode =>
      if nonempty (take_digits after_mode) then
        match strip_prefix "_to_" (drop_digits after_mode) with
        | None => None
        | Some suffix =>
            if nonempty suffix && String.eqb (take_digits suffix) suffix
            then Some (int_of_digits suffix) else None
        end
      else None
  end.

(** The end height of a batch directory that contains a finalized proof
    file. *)
Definition finalized_end (disk : Fs.t) (proof_dir : string) : option Z :=
  if Fs.is_dir proof_dir disk && Fs.exists_ (Fs.div proof_dir "proof.json") disk then
    batch_end_suffix (Fs.name proof_dir)
  else None.

Definition finalized_end_heights (disk : Fs.t) : list Z :=
  if Fs.is_dir PROOF_DIR disk then
    flat_map (fun d => match finalized_end disk d with Some e => [e] | None => [] end)
             (Fs.children PROOF_DIR disk)
  else [].

(** What the specification has [auto_detect_start] return on every disk:
    the maximum of these, the origin height 0 when there is none. *)
Definition highest_finalized (disk : Fs.t) : Z :=
  fold_left Z.max (finalized_end_heights disk) 0.

(** The candidate of an enumerated directory. *)
Definition proof_of (proof_dir : string) : string := Fs.div proof_dir "proof.json".

(** ** Footprints *)

(** A computation all of whose effects satisfy [P]. *)
Definition only (P : event -> Prop) {A} (m : M A) : Prop :=
  forall w r w',
    m w = (r, w') -> exists delta, trace w' = (trace w ++ delta)%list /\ Forall P delta.

(** What the pipeline driver may do: log, delete, write the log of one of
    its steps, and launch one of its three commands, without a
    timeout. *)
Definition driver_event (executable proof arguments : string) (e : event) : Prop :=
  match e with
  | Log _ _ => True
  | Unlink _ => True
  | Mkdir _ => False
  | WriteFile p _ => In p (map (log_file_of (Fs.parent proof)) step_names)
  | Launch cmd timeout =>
      timeout = None /\ In cmd (pipeline (Fs.parent proof) executable proof arguments)
  end.

(** What the batch job may do on top of that: make its directory and
    write its two input files. *)
Definition batch_event (height size : Z) (e : event) : Prop :=
  let batch_dir := Fs.div PROOF_DIR (batch_name_of height size) in
  match e with
  | Mkdir p => p = batch_dir
  | WriteFile p _ =>
      In p [Fs.div batch_dir "batch.json"; Fs.div batch_dir "arguments.json";
            Fs.div batch_dir "pie.log"; Fs.div batch_dir "bootload.log";
            Fs.div batch_dir "prove.log"]
  | Launch cmd timeout =>
      timeout = None
      /\ In cmd (pipeline batch_dir EXECUTABLE (Fs.div batch_dir "proof.json")
                   (Fs.div batch_dir "arguments.json"))
  | Log _ _ => True
  | Unlink _ => True
  end.

(** The batches at [heights] succeed one after the other and take the
    world from [w] to [w']. *)
Inductive batches_succeed (env : Env) (size : Z) : list Z -> World -> World -> Prop :=
| succeed_nil w : batches_succeed env size [] w w
| succeed_cons height heights w w1 w' :
    prove_batch env height size w = (Ok true, w1) ->
    batches_succeed env size heights w1 w' ->
    batches_succeed env size (height :: heights) w w'.

(** The heights that [main] goes through: its [height_range]; none when
    [range] raises. *)
Definition heights_of (start blocks step : Z) : list Z :=
  match py_range start (start + blocks) step with
  | Ok heights => heights
  | Raise _ => []
  end.

(** What [main] may do: log, make [PROOF_DIR], and what the batch job may
    do at one of its heights. *)
Definition main_event (heights : list Z) (size : Z) (e : event) : Prop :=
  e = Mkdir PROOF_DIR
  \/ (exists lvl msg, e = Log lvl msg)
  \/ (exists height, In height heights /\ batch_event height size e).

(** The two lines on which a run of [main] over [heights] can end. *)
Definition summary_of (heights : list Z) : string :=
  "All " ++ str (Z.of_nat (length heights)) ++ " jobs have been processed successfully".

Definition failure_of (height : Z) : string :=
  "Job at height: " ++ str height ++ " failed, stopping further processing".

(** An effect other than a message at ERROR level. *)
Definition not_an_error (e : event) : Prop :=
  match e with
  | Log ERROR _ => False
  | _ => True
  end.

(** The literal of the pattern with which [run] looks for the peak
    memory. *)
Definition MAX_RSS : string := "Maximum resident set size (kbytes): ".

(** * Properties *)

(** ** The Python primitives on examples *)

Example str_of_ints : (str 42, str 0, str (-7)) = ("42", "0", "-7").
Proof. reflexivity. Qed.

Example splitlines_keeps_empty_lines :
  splitlines ("ab" ++ LF ++ LF ++ "cd" ++ LF) = ["ab"; ""; "cd"].
Proof. reflexivity. Qed.

Example splitlines_CR_LF :
  splitlines ("ab" ++ String (ascii_of_nat 13) LF ++ "cd") = ["ab"; "cd"].
Proof. reflexivity. Qed.

Example lower_step_name : lower "BOOTLOAD" = "bootload".
Proof. reflexivity. Qed.

Example search_max_rss_in_report :
  option_map int_of_digits (search_max_rss Demo.time_report) = Some 2048.
Proof. reflexivity. Qed.

Example match_batch_dir_examples :
  map match_batch_dir ["light_0_to_10"; "light_0_to_10.bak"; "light_x_to_10"; "full_0_to_10"]
  = [Some "10"; Some "10"; None; None].
Proof. reflexivity. Qed.

Example fnmatch_ends_at_examples :
  map (fnmatch_ends_at "light" 10)
      ["light_0_to_10"; "light_0_to_110"; "light_0_to_5_to_10"; "light_to_10"]
  = [true; false; true; false].
Proof. reflexivity. Qed.

Example py_range_examples :
  (py_range 0 30 10, py_range 0 25 10, py_range 5 5 10, py_range 10 0 (-5))
  = (Ok [0; 10; 20], Ok [0; 10; 20], Ok [], Ok [10; 5]).
Proof. reflexivity. Qed.

Example parent_and_name :
  (Fs.parent ".proofs/light_0_to_10/proof.json", Fs.name ".proofs/light_0_to_10",
   Fs.parent "proof.json")
  = (".proofs/light_0_to_10", "light_0_to_10", ".").
Proof. reflexivity. Qed.

(** ** The step runner *)

Section StepRunner.

Variable env : Env.
Hypothesis on_Linux : platform_system env = "Linux".

Lemma is_time_line_timing_line line : is_time_line line = timing_line line.
Proof.
  unfold is_time_line, timing_line, time_markers. cbn [existsb].
  destruct (startswith (String tab "") line); [reflexivity|]. cbn [orb].
  repeat match goal with
         | |- context [contains ?m line] =>
             let b := fresh "b" in
             generalize (contains m line); intro b
         end.
  repeat match goal with b : bool |- _ => destruct b; try reflexivity end.
Qed.

Lemma split_stderr_from (lines time_lines actual : list string) :
  fold_left
    (fun (acc : list string * list string) line =>
       if is_time_line line then ((fst acc ++ [line])%list, snd acc)
       else (fst acc, (snd acc ++ [line])%list))
    lines (time_lines, actual)
  = ((time_lines ++ filter is_time_line lines)%list,
     (actual ++ filter (fun l => negb (is_time_line l)) lines)%list).
Proof.
  revert time_lines actual.
  induction lines as [|line lines IH]; intros time_lines actual; cbn [fold_left filter].
  - now rewrite !app_nil_r.
  - destruct (is_time_line line); cbn [fst snd negb]; rewrite IH;
      now rewrite <- ?app_assoc.
Qed.

Lemma split_stderr_filter lines :
  split_stderr lines
  = (filter is_time_line lines, filter (fun l => negb (is_time_line l)) lines).
Proof. unfold split_stderr. now rewrite split_stderr_from. Qed.

(** What [run] returns and leaves when the process completes. *)
Lemma run_completed cmd timeout w out err rc disk' clock' :
  subprocess_run env (timed cmd) timeout (fs w) (now w)
  = (Ok (mk_CompletedProcess out err rc), disk', clock') ->
  run env cmd timeout w
  = (Ok (out,
         join LF (filter (fun l => negb (is_time_line l)) (splitlines err)),
         rc, PrimFloat.sub clock' (now w),
         option_map int_of_digits (search_max_rss err)),
     mk_World disk' clock' (trace w ++ [Launch (timed cmd) timeout])).
Proof.
  intros Hrun. unfold run. rewrite on_Linux. cbn [String.eqb Ascii.eqb Bool.eqb negb].
  unfold bind, try_except, time_time, subprocess_run_, ret.
  cbn [app]. fold (timed cmd). rewrite Hrun.
  cbn [cp_stdout cp_stderr cp_returncode now fs trace].
  now rewrite split_stderr_filter.
Qed.

(** What [run] returns and leaves when [subprocess.run] raises. *)
Lemma run_raised cmd timeout w e disk' clock' :
  subprocess_run env (timed cmd) timeout (fs w) (now w) = (Raise e, disk', clock') ->
  run env cmd timeout w
  = (if TimeoutExpired e
     then Ok ("", "Process timed out after " ++ str_timeout timeout ++ " seconds",
              -1, PrimFloat.sub clock' (now w), None)
     else Raise e,
     mk_World disk' clock' (trace w ++ [Launch (timed cmd) timeout])).
Proof.
  intros Hrun. unfold run. rewrite on_Linux. cbn [String.eqb Ascii.eqb Bool.eqb negb].
  unfold bind, try_except, time_time, subprocess_run_, ret.
  cbn [app]. fold (timed cmd). rewrite Hrun. cbn.
  destruct (TimeoutExpired e); reflexivity.
Qed.

End StepRunner.

(** C9: when the process completes, [run] goes through the captured error
    stream line by line; every line that begins with a tab or contains
    one of the timing and memory markers is removed, and the remaining
    lines, in their order, joined by newlines, are the error output that
    [run] returns. *)
Theorem run_strips_timing_lines (env : Env) cmd timeout w out err rc disk' clock' :
  platform_system env = "Linux" ->
  subprocess_run env (timed cmd) timeout (fs w) (now w)
  = (Ok (mk_CompletedProcess out err rc), disk', clock') ->
  exists kept elapsed max_memory,
    fst (run env cmd timeout w) = Ok (out, join LF kept, rc, elapsed, max_memory)
    /\ kept = filter (fun line => negb (timing_line line)) (splitlines err)
    /\ (forall line, In line (splitlines err) -> timing_line line = true ->
        ~ In line kept)
    /\ (forall line, In line (splitlines err) -> timing_line line = false ->
        In line kept)
    /\ (forall line, In line kept ->
        startswith (String tab "") line = false
        /\ forall m, In m time_markers -> contains m line = false).
Proof.
  intros HL Hrun.
  exists (filter (fun line => negb (timing_line line)) (splitlines err)).
  eexists. eexists. split; [|split; [reflexivity|]].
  - rewrite (run_completed env HL _ _ _ _ _ _ _ _ Hrun). cbn [fst].
    rewrite (filter_ext _ (fun line => negb (timing_line line)));
      [reflexivity | intros l; now rewrite is_time_line_timing_line].
  - repeat split.
    + intros line _ Ht Hin. apply filter_In in Hin. rewrite Ht in Hin. now destruct Hin.
    + intros line Hin Ht. apply filter_In. now rewrite Ht.
    + apply filter_In in H. destruct H as [_ H]. apply negb_true_iff in H.
      unfold timing_line in H. now apply orb_false_iff in H.
    + intros m Hm. apply filter_In in H. destruct H as [_ H]. apply negb_true_iff in H.
      unfold timing_line in H. apply orb_false_iff in H. destruct H as [_ H].
      destruct (contains m line) eqn:E; [|reflexivity].
      assert (existsb (fun m => contains m line) time_markers = true) as X
          by (apply existsb_exists; eauto).
      congruence.
Qed.

Lemma run_strips_timing_lines_witness :
  exists kept elapsed max_memory,
    fst (run Demo.env (prove_cmd "b" "b/proof.json") None Demo.world)
    = Ok ("", join LF kept, 0, elapsed, max_memory)
    /\ kept = ["prover: done"].
Proof.
  destruct (run_strips_timing_lines Demo.env (prove_cmd "b" "b/proof.json") None
              Demo.world "" ("prover: done" ++ LF ++ Demo.time_report) 0
              (Fs.set "b/proof.json" (Fs.File "proof") (fs Demo.world))
              (Demo.tick (now Demo.world)) eq_refl eq_refl)
    as (kept & elapsed & max_memory & Hrun & Hkept & _).
  exists kept, elapsed, max_memory. split; [exact Hrun | exact Hkept].
Defined.

(** C7: when the command does not exit within the timeout, [run] returns
    exit code -1, an empty standard output, the message that names the
    timeout as error output, the time between the launch and the moment
    [subprocess.run] gave up as elapsed time, and no peak memory. *)
Theorem run_timeout (env : Env) cmd (t : Z) w e disk' clock' :
  platform_system env = "Linux" ->
  subprocess_run env (timed cmd) (Some t) (fs w) (now w) = (Raise e, disk', clock') ->
  exn_class e = "TimeoutExpired" ->
  fst (run env cmd (Some t) w)
  = Ok ("", "Process timed out after " ++ str t ++ " seconds", -1,
        PrimFloat.sub clock' (now w), None).
Proof.
  intros HL Hrun He. rewrite (run_raised env HL _ _ _ _ _ _ Hrun).
  unfold TimeoutExpired. rewrite He. reflexivity.
Qed.

Lemma run_timeout_witness :
  fst (run (Demo.env_of "Linux" Demo.hangs) ["sleep"; "10"] (Some 5) Demo.world)
  = Ok ("", "Process timed out after 5 seconds", -1, 5%float, None).
Proof.
  exact (run_timeout (Demo.env_of "Linux" Demo.hangs) ["sleep"; "10"] 5 Demo.world
           (mk_exn "TimeoutExpired" "timed out") (fs Demo.world)
           (PrimFloat.add (now Demo.world) 5%float) eq_refl eq_refl eq_refl).
Defined.

(** ** Traces *)

Lemma new_events_app w w' delta : trace w' = (trace w ++ delta)%list -> new_events w w' = delta.
Proof.
  intros H. unfold new_events. rewrite H, skipn_app, skipn_all, Nat.sub_diag. reflexivity.
Qed.

Lemma launches_app a b : launches (a ++ b) = (launches a ++ launches b)%list.
Proof. apply flat_map_app. Qed.

Lemma written_app a b : written (a ++ b) = (written a ++ written b)%list.
Proof. apply flat_map_app. Qed.

Lemma unlinked_app a b : unlinked (a ++ b) = (unlinked a ++ unlinked b)%list.
Proof. apply flat_map_app. Qed.

Lemma logged_app lvl a b : logged lvl (a ++ b) = (logged lvl a ++ logged lvl b)%list.
Proof. apply flat_map_app. Qed.

(** ** One step of the pipeline *)

Section Step.

Variable env : Env.

(** [run] either refuses the platform and does nothing, or launches the
    command once. *)
Lemma run_inv cmd timeout w r w' :
  run env cmd timeout w = (r, w') ->
  (platform_system env <> "Linux" /\ r = Raise RuntimeError_not_Linux /\ w' = w)
  \/ (platform_system env = "Linux"
      /\ fs w' = snd (fst (subprocess_run env (timed cmd) timeout (fs w) (now w)))
      /\ trace w' = (trace w ++ [Launch (timed cmd) timeout])%list).
Proof.
  intros H. destruct (String.eqb_spec (platform_system env) "Linux") as [HL|HL].
  - right. split; [exact HL|].
    destruct (subprocess_run env (timed cmd) timeout (fs w) (now w))
      as [[[cp|e] disk'] clock'] eqn:E.
    + destruct cp as [out err rc].
      rewrite (run_completed env HL _ _ _ _ _ _ _ _ E) in H.
      injection H as <- <-. now split.
    + rewrite (run_raised env HL _ _ _ _ _ _ E) in H.
      injection H as <- <-. now split.
  - left. unfold run in H. apply String.eqb_neq in HL. rewrite HL in H.
    cbn [negb] in H. unfold raise in H. injection H as <- <-. apply String.eqb_neq in HL.
    now repeat split.
Qed.

(** A step that returns has logged its command, launched it and written
    its log; a step that raises has written nothing.  No step deletes. *)
Lemma run_step_events job_info batch_dir step_name cmd w r w' :
  run_step env job_info batch_dir step_name cmd w = (r, w') ->
  exists delta,
    trace w' = (trace w ++ delta)%list
    /\ unlinked delta = []
    /\ match r with
       | Ok info =>
           step info = step_name
           /\ launches delta = [timed cmd]
           /\ written delta = [log_file_of batch_dir step_name]
       | Raise e =>
           written delta = []
           /\ (launches delta = [] \/ launches delta = [timed cmd])
       end.
Proof.
  unfold run_step, logger, emit. unfold bind at 1.
  set (w0 := mk_World (fs w) (now w) _). unfold bind at 1.
  destruct (run env cmd None w0) as [[res|e] w1] eqn:Erun.
  - destruct (run_inv _ _ _ _ _ Erun) as [(_ & Hr & _)|(_ & _ & Ht)]; [discriminate|].
    destruct res as [[[[out err] rc] el] mm].
    unfold save_prover_log, bind, time_time, write_text, with_fs, ret.
    destruct (Fs.write _ _ (fs w1)) as [disk2|e]; intros H; injection H as <- <-.
    + eexists. split; [cbn [trace]; rewrite Ht; subst w0; cbn [trace];
                        rewrite <- !app_assoc; reflexivity|].
      cbn. now repeat split.
    + eexists. split; [rewrite Ht; subst w0; cbn [trace];
                        rewrite <- !app_assoc; reflexivity|].
      cbn. repeat split; now right.
  - intros H; injection H as <- <-.
    destruct (run_inv _ _ _ _ _ Erun) as [(_ & _ & ->)|(_ & _ & Ht)].
    + eexists. split; [subst w0; cbn [trace]; reflexivity|].
      cbn. repeat split; now left.
    + eexists. split; [rewrite Ht; subst w0; cbn [trace];
                        rewrite <- !app_assoc; reflexivity|].
      cbn. repeat split; now right.
Qed.

(** On Linux, a step whose process completes has launched its command
    once, whether or not its log could be saved, and records the exit
    code of the process. *)
Lemma run_step_completed job_info batch_dir step_name cmd w cp disk' clock' r w' :
  platform_system env = "Linux" ->
  subprocess_run env (timed cmd) None (fs w) (now w) = (Ok cp, disk', clock') ->
  run_step env job_info batch_dir step_name cmd w = (r, w') ->
  launches (new_events w w') = [timed cmd]
  /\ forall info, r = Ok info -> returncode info = cp_returncode cp.
Proof.
  intros HL Hrun. destruct cp as [out err rc].
  unfold run_step, logger, emit. unfold bind at 1.
  set (w0 := mk_World (fs w) (now w) _). unfold bind at 1.
  rewrite (run_completed env HL cmd None w0 out err rc disk' clock' Hrun).
  unfold save_prover_log, bind, time_time, write_text, with_fs, ret. cbn [fs now trace].
  destruct (Fs.write _ _ disk') as [disk2|e]; intros H; injection H as <- <-.
  - split.
    + erewrite new_events_app;
        [|subst w0; cbn [trace]; rewrite <- !app_assoc; reflexivity].
      reflexivity.
    + intros info X. now injection X as <-.
  - split; [|discriminate].
    erewrite new_events_app;
      [|subst w0; cbn [trace]; rewrite <- !app_assoc; reflexivity].
    reflexivity.
Qed.


End Step.

(** ** The file system *)

Lemma lookup_remove p q disk :
  Fs.lookup p (Fs.remove q disk) = if String.eqb p q then None else Fs.lookup p disk.
Proof.
  unfold Fs.lookup, Fs.remove.
  induction disk as [|[k n] disk IH]; cbn [filter find fst].
  - now destruct (String.eqb p q).
  - destruct (String.eqb_spec k q) as [->|Hkq]; cbn [negb].
    + rewrite IH. rewrite (String.eqb_sym q p).
      now destruct (String.eqb p q).
    + cbn [find fst]. destruct (String.eqb_spec k p) as [->|Hkp].
      * apply String.eqb_neq in Hkq. now rewrite Hkq.
      * exact IH.
Qed.

Lemma is_file_remove p q disk :
  Fs.is_file p (Fs.remove q disk) = negb (String.eqb p q) && Fs.is_file p disk.
Proof.
  unfold Fs.is_file. rewrite lookup_remove. now destruct (String.eqb p q).
Qed.

Lemma is_file_exists p disk : Fs.is_file p disk = true -> Fs.exists_ p disk = true.
Proof. unfold Fs.is_file, Fs.exists_. now destruct (Fs.lookup p disk) as [[|]|]. Qed.

Lemma lookup_set_eq p n disk : Fs.lookup p (Fs.set p n disk) = Some n.
Proof.
  unfold Fs.lookup. induction disk as [|[k m] disk IH]; cbn [Fs.set find fst].
  - now rewrite String.eqb_refl.
  - destruct (String.eqb_spec k p) as [->|Hk]; cbn [find fst].
    + now rewrite String.eqb_refl.
    + apply String.eqb_neq in Hk. now rewrite Hk.
Qed.

Lemma lookup_set_ne p q n disk :
  q <> p -> Fs.lookup q (Fs.set p n disk) = Fs.lookup q disk.
Proof.
  intros Hq. unfold Fs.lookup.
  induction disk as [|[k m] disk IH]; cbn [Fs.set find fst].
  - apply not_eq_sym in Hq. apply String.eqb_neq in Hq. now rewrite Hq.
  - destruct (String.eqb_spec k p) as [->|Hk]; cbn [find fst].
    + apply not_eq_sym in Hq. apply String.eqb_neq in Hq. now rewrite Hq.
    + destruct (String.eqb k q); [reflexivity|exact IH].
Qed.

Lemma write_ok p content disk disk' :
  Fs.write p content disk = Ok disk' -> disk' = Fs.set p (Fs.File content) disk.
Proof.
  unfold Fs.write. destruct (Fs.lookup p disk) as [[c|]|]; try discriminate;
    destruct (Fs.check_parent p disk); try discriminate; now intros [= <-].
Qed.

Lemma read_set p content disk : Fs.read p (Fs.set p (Fs.File content) disk) = Ok content.
Proof. unfold Fs.read. now rewrite lookup_set_eq. Qed.

Lemma mkdir_ok_is_dir p disk disk' :
  Fs.mkdir_exist_ok p disk = Ok disk' -> Fs.is_dir p disk' = true.
Proof.
  unfold Fs.mkdir_exist_ok, Fs.is_dir.
  destruct (Fs.lookup p disk) as [[c|]|] eqn:E; try discriminate.
  - intros [= <-]. now rewrite E.
  - destruct (Fs.check_parent p disk); [|discriminate].
    intros [= <-]. now rewrite lookup_set_eq.
Qed.

(** A step that returns has left its log on the disk: the file holds the
    record of this step, stamped with the time at which the command
    came back. *)
Lemma run_step_saved env job_info batch_dir step_name cmd w info w' :
  run_step env job_info batch_dir step_name cmd w = (Ok info, w') ->
  step info = step_name
  /\ Fs.read (log_file_of batch_dir step_name) (fs w')
     = Ok (step_log env (isoformat env (now w')) info).
Proof.
  unfold run_step, logger, emit. unfold bind at 1.
  set (w0 := mk_World (fs w) (now w) _). unfold bind at 1.
  destruct (run env cmd None w0) as [[[[[[out err] rc] el] mm]|e] wr]; [|discriminate].
  unfold save_prover_log, bind, time_time, write_text, with_fs, ret.
  destruct (Fs.write _ _ (fs wr)) as [disk2|e] eqn:Ew; [|discriminate].
  intros H. injection H as <- <-. cbn [step fs now]. split; [reflexivity|].
  apply write_ok in Ew. subst disk2. unfold step_log. cbn [step stdout stderr returncode
    elapsed max_memory]. apply read_set.
Qed.

(** ** The cleanup *)

Section Cleanup.

Variable env : Env.

(** One turn of the cleanup loop never raises: it deletes the entry when
    it is a regular file that the operating system lets go; otherwise it
    leaves the disk alone, with a warning when the deletion failed. *)
Lemma remove_temp_file_spec p w :
  exists delta disk',
    remove_temp_file env p w = (Ok tt, mk_World disk' (now w) (trace w ++ delta))
    /\ launches delta = [] /\ written delta = []
    /\ ((Fs.is_file p (fs w) = true /\ unlink_denied env p (fs w) = None
         /\ disk' = Fs.remove p (fs w) /\ unlinked delta = [p])
        \/ (disk' = fs w /\ unlinked delta = []
            /\ (Fs.is_file p (fs w) = true ->
                exists e,
                  unlink_denied env p (fs w) = Some e
                  /\ delta = [Log WARNING ("Failed to clean up " ++ p ++ ": "
                                           ++ exn_msg e)]))).
Proof.
  unfold remove_temp_file, try_except, bind, path_exists, unlink, with_fs, os_unlink,
    Fs.unlink, Fs.exists_, Fs.is_file, logger, emit, ret, Exception.
  cbv beta.
  destruct (Fs.lookup p (fs w)) as [[c|]|] eqn:E; cbn [fs now trace];
    rewrite ?E; cbn [fs now trace].
  - destruct (unlink_denied env p (fs w)) as [e|] eqn:Ed; cbn [fs now trace].
    + eexists _, _. split; [reflexivity|]. split; [reflexivity|]. split; [reflexivity|].
      right. split; [reflexivity|]. split; [reflexivity|]. intros _. now exists e.
    + eexists _, _. split; [rewrite <- app_assoc; reflexivity|].
      split; [reflexivity|]. split; [reflexivity|]. left. now repeat split.
  - eexists _, _. split; [reflexivity|]. split; [reflexivity|]. split; [reflexivity|].
    right. split; [reflexivity|]. split; [reflexivity|]. discriminate.
  - exists [], (fs w). rewrite app_nil_r. split; [now destruct w|].
    split; [reflexivity|]. split; [reflexivity|].
    right. split; [reflexivity|]. split; [reflexivity|]. discriminate.
Qed.

(** The loop never raises and deletes only listed entries that were
    regular files; a listed entry is not a regular file any more
    afterwards, unless the operating system refused and a warning says
    so. *)
Lemma remove_temp_files_spec temp_files : forall w,
  exists w',
    for_each temp_files (remove_temp_file env) w = (Ok tt, w')
    /\ (forall q, Fs.lookup q (fs w') = Fs.lookup q (fs w)
                  \/ (In q temp_files /\ Fs.is_file q (fs w) = true
                      /\ Fs.lookup q (fs w') = None))
    /\ exists delta,
         trace w' = (trace w ++ delta)%list
         /\ launches delta = [] /\ written delta = []
         /\ (forall q, In q (unlinked delta) ->
               In q temp_files /\ Fs.is_file q (fs w) = true
               /\ Fs.lookup q (fs w') = None)
         /\ (forall p, In p temp_files ->
               Fs.is_file p (fs w') = false
               \/ exists e disk,
                    unlink_denied env p disk = Some e
                    /\ In ("Failed to clean up " ++ p ++ ": " ++ exn_msg e)
                          (logged WARNING delta)).
Proof.
  induction temp_files as [|p rest IH]; intros w; cbn [for_each].
  - exists w. split; [reflexivity|]. split; [now left|].
    exists []. rewrite app_nil_r. split; [reflexivity|]. split; [reflexivity|].
    split; [reflexivity|]. split; intros ? [].
  - destruct (remove_temp_file_spec p w) as (d1 & disk1 & E1 & L1 & W1 & C1).
    unfold bind at 1. rewrite E1.
    set (w1 := mk_World _ _ _).
    destruct (IH w1) as (w' & E & Hfs & d2 & T2 & L2 & W2 & U2 & O2).
    assert (forall q, Fs.lookup q disk1 = Fs.lookup q (fs w)
                      \/ (q = p /\ Fs.is_file q (fs w) = true
                          /\ Fs.lookup q disk1 = None)) as H1.
    { intros q. destruct C1 as [(Hf & _ & -> & _)|(-> & _)]; [|now left].
      rewrite lookup_remove. destruct (String.eqb_spec q p) as [->|N]; [|now left].
      right. now repeat split. }
    assert (forall q, Fs.lookup q (fs w') = Fs.lookup q (fs w)
                      \/ (In q (p :: rest) /\ Fs.is_file q (fs w) = true
                          /\ Fs.lookup q (fs w') = None)) as Hall.
    { intros q. destruct (Hfs q) as [Hq|(Hin & Hf & Hn)]; subst w1; cbn [fs] in *.
      - rewrite Hq. destruct (H1 q) as [Hq1|(-> & Hf & Hn)]; [now left|].
        right. split; [now left|]. now split.
      - unfold Fs.is_file in Hf. destruct (H1 q) as [Hq1|(-> & Hf' & Hn')].
        + right. split; [now right|]. unfold Fs.is_file. rewrite <- Hq1. now split.
        + rewrite Hn' in Hf. discriminate. }
    exists w'. split; [exact E|]. split; [exact Hall|].
    exists (d1 ++ d2)%list. rewrite T2. subst w1. cbn [trace fs] in *.
    rewrite app_assoc, launches_app, written_app, L1, L2, W1, W2.
    split; [reflexivity|]. split; [reflexivity|]. split; [reflexivity|]. split.
    + intros q Hq. rewrite unlinked_app in Hq. apply in_app_or in Hq.
      destruct Hq as [Hq|Hq].
      * destruct C1 as [(Hf & _ & Hd & U)|(_ & U & _)]; rewrite U in Hq;
          [|contradiction].
        destruct Hq as [<-|[]]. split; [now left|]. split; [exact Hf|].
        destruct (Hfs p) as [Hq|(_ & _ & Hn)]; [|exact Hn].
        rewrite Hq, Hd, lookup_remove, String.eqb_refl. reflexivity.
      * destruct (U2 q Hq) as (Hin & Hf & Hn). split; [now right|]. split; [|exact Hn].
        unfold Fs.is_file in *. destruct (H1 q) as [Hq1|(_ & _ & Hn1)].
        -- now rewrite <- Hq1.
        -- rewrite Hn1 in Hf. discriminate.
    + intros q [<-|Hq].
      * destruct (Fs.is_file p (fs w')) eqn:Ef; [|now left]. right.
        assert (Fs.is_file p disk1 = true) as Ef1.
        { unfold Fs.is_file in *. destruct (Hfs p) as [Hq|(_ & _ & Hn)].
          - now rewrite <- Hq.
          - rewrite Hn in Ef. discriminate. }
        destruct C1 as [(_ & _ & -> & _)|(-> & _ & Hw)].
        -- rewrite is_file_remove, String.eqb_refl in Ef1. discriminate.
        -- destruct (Hw Ef1) as (e & Hden & ->). exists e, (fs w).
           split; [exact Hden|].
           unfold logged. rewrite flat_map_app. apply in_or_app. left. now left.
      * destruct (O2 q Hq) as [Hf|(e & disk & Hden & Hm)]; [now left|]. right.
        exists e, disk. split; [exact Hden|].
        unfold logged in *. rewrite flat_map_app. apply in_or_app. now right.
Qed.

(** One recorded path: the list only grows, by that path at most, and by
    it whenever the entry is a string. *)
Lemma append_recorded_spec key data temp_files :
  incl temp_files (snd (append_recorded key data temp_files))
  /\ (forall p, In p (snd (append_recorded key data temp_files)) ->
      In p temp_files
      \/ exists raw, py_getitem key data = Ok (PStr raw) /\ p = Fs.Path raw)
  /\ (forall items,
        data = PDict items ->
        (forall v, dict_get key items = Some v -> exists p, v = PStr p) ->
        fst (append_recorded key data temp_files) = Ok tt
        /\ forall raw, dict_get key items = Some (PStr raw) ->
                       In (Fs.Path raw) (snd (append_recorded key data temp_files))).
Proof.
  unfold append_recorded.
  destruct data as [| b | n | str | l | items];
    cbn [py_contains py_getitem];
    [ | | | destruct (contains key str) | destruct (existsb _ l) | ];
    cbn [fst snd];
    try (split; [apply incl_refl|]; split; [now left|]; discriminate).
  destruct (dict_get key items) as [v|] eqn:Ed; cbn [fst snd Path_of].
  - destruct v; cbn [Path_of fst snd];
      try (split; [apply incl_refl|]; split; [now left|];
           intros items' Hi Hwf; injection Hi as <-;
           destruct (Hwf _ Ed) as [p Hp]; discriminate).
    split; [apply incl_appl, incl_refl|]. split.
    + intros p Hp. apply in_app_or in Hp.
      destruct Hp as [Hp|[<-|[]]]; [now left|right; eauto].
    + intros items' Hi Hwf. injection Hi as <-. split; [reflexivity|].
      intros p Hp. rewrite Hp in Ed. injection Ed as <-.
      apply in_or_app. right. now left.
  - split; [apply incl_refl|]. split; [now left|].
    intros items' Hi Hwf. injection Hi as <-. split; [reflexivity|].
    intros p Hp. rewrite Hp in Ed. discriminate.
Qed.

(** The [try] block: [priv.json] is appended when nothing raises, and
    what else is appended is recorded in it. *)
Lemma read_recorded_spec priv_json temp_files disk :
  incl temp_files (snd (read_recorded env priv_json temp_files disk))
  /\ (forall p, In p (snd (read_recorded env priv_json temp_files disk)) ->
      In p temp_files \/ p = priv_json \/ recorded_in env priv_json disk p)
  /\ (forall u, fst (read_recorded env priv_json temp_files disk) = Ok u ->
      In priv_json (snd (read_recorded env priv_json temp_files disk)))
  /\ (forall text data,
        Fs.read priv_json disk = Ok text -> json_load env text = Ok data ->
        well_formed_priv data ->
        forall p, recorded_in env priv_json disk p ->
                  In p (snd (read_recorded env priv_json temp_files disk))).
Proof.
  unfold read_recorded.
  destruct (Fs.read priv_json disk) as [text|e] eqn:Er; cbn [fst snd];
    [|split; [apply incl_refl|]; split; [now left|]; split; discriminate].
  destruct (json_load env text) as [data|e] eqn:Ej; cbn [fst snd];
    [|split; [apply incl_refl|]; split; [now left|]; split; [discriminate|];
      intros t d Ht; injection Ht as <-; congruence].
  pose proof (append_recorded_spec "trace_path" data temp_files) as (I1 & B1 & W1).
  destruct (append_recorded "trace_path" data temp_files) as [r1 tf1] eqn:E1.
  cbn [fst snd] in *.
  pose proof (append_recorded_spec "memory_path" data tf1) as (I2 & B2 & W2).
  destruct (append_recorded "memory_path" data tf1) as [r2 tf2] eqn:E2.
  cbn [fst snd] in *.
  assert (forall p, In p tf2 -> In p temp_files \/ recorded_in env priv_json disk p) as B.
  { intros p Hp. destruct (B2 p Hp) as [Hp1|Hg].
    - destruct (B1 p Hp1) as [Hp0|Hg]; [now left|].
      right. exists text, data, "trace_path". auto.
    - right. exists text, data, "memory_path". auto. }
  assert (forall p, recorded_in env priv_json disk p -> well_formed_priv data ->
                    r1 = Ok tt /\ r2 = Ok tt /\ In p tf2) as W.
  { intros p (t' & d' & key & Ht' & Hd' & Hkey & raw & Hg & ->) (items & -> & Hwf).
    rewrite Er in Ht'. injection Ht' as <-. rewrite Ej in Hd'. injection Hd' as <-.
    cbn in Hg. destruct (dict_get key items) as [v|] eqn:Ed; [|discriminate].
    injection Hg as ->.
    destruct (W1 items eq_refl (fun v => Hwf _ v (or_introl eq_refl))) as [R1 In1].
    destruct (W2 items eq_refl (fun v => Hwf _ v (or_intror eq_refl))) as [R2 In2].
    repeat split; [assumption..|].
    destruct Hkey as [-> | ->]; [apply I2, In1, Ed | apply In2, Ed]. }
  assert (forall t d, Ok text = Ok t -> json_load env t = Ok d -> d = data) as Hsame.
  { intros t d Ht Hd. injection Ht as <-. congruence. }
  destruct r1 as [[]|e1]; [destruct r2 as [[]|e2]|]; cbn [fst snd].
  - split; [apply incl_appl; eapply incl_tran; eauto|]. split; [|split].
    + intros p Hp. apply in_app_or in Hp. destruct Hp as [Hp|[<-|[]]]; [|tauto].
      destruct (B p Hp); tauto.
    + intros _ _. apply in_or_app. right. now left.
    + intros t d Ht Hd Hwf p Hp. rewrite (Hsame _ _ Ht Hd) in Hwf.
      apply in_or_app. left. now apply W.
  - split; [eapply incl_tran; eauto|]. split; [|split].
    + intros p Hp. destruct (B p Hp); tauto.
    + discriminate.
    + intros t d Ht Hd Hwf p Hp. rewrite (Hsame _ _ Ht Hd) in Hwf.
      destruct (W p Hp Hwf) as (_ & ? & _). discriminate.
  - split; [exact I1|]. split; [|split].
    + intros p Hp. destruct (B1 p Hp) as [|Hg]; [tauto|].
      right. right. exists text, data, "trace_path". auto.
    + discriminate.
    + intros t d Ht Hd Hwf p Hp. rewrite (Hsame _ _ Ht Hd) in Hwf.
      destruct (W p Hp Hwf) as (? & _). discriminate.
Qed.

(** The list of the cleanup: it never raises, leaves the disk as it is,
    holds the pie and the public input, the private input when it is
    there, and beyond these only paths that the private input records. *)
Lemma collect_temp_files_spec pie_file pub_json priv_json w :
  exists temp_files delta,
    collect_temp_files env pie_file pub_json priv_json w
    = (Ok temp_files, mk_World (fs w) (now w) (trace w ++ delta))
    /\ launches delta = [] /\ written delta = [] /\ unlinked delta = []
    /\ In pie_file temp_files /\ In pub_json temp_files
    /\ (Fs.exists_ priv_json (fs w) = true -> In priv_json temp_files)
    /\ (forall p, In p temp_files ->
        p = pie_file \/ p = pub_json \/ p = priv_json
        \/ recorded_in env priv_json (fs w) p)
    /\ (forall text data,
          Fs.read priv_json (fs w) = Ok text -> json_load env text = Ok data ->
          well_formed_priv data ->
          forall p, recorded_in env priv_json (fs w) p -> In p temp_files).
Proof.
  unfold collect_temp_files, bind, path_exists.
  destruct (Fs.exists_ priv_json (fs w)) eqn:Eex.
  - pose proof (read_recorded_spec priv_json [pie_file; pub_json] (fs w))
      as (I & B & P & W).
    destruct (read_recorded env priv_json [pie_file; pub_json] (fs w)) as [[[]|e] tf].
    + exists tf, []. rewrite app_nil_r. cbn [fst snd] in *.
      split; [now destruct w|]. repeat split; auto.
      * apply I. now left.
      * apply I. right. now left.
      * intros _. now apply (P tt).
      * intros p Hp. destruct (B p Hp) as [[<-|[<-|[]]]|[->|Hr]]; tauto.
    + eexists (tf ++ [priv_json])%list, _. cbn [fst snd] in *.
      unfold logger, emit, ret. cbn [fs now trace].
      split; [reflexivity|]. repeat split; auto.
      * apply in_or_app. left. apply I. now left.
      * apply in_or_app. left. apply I. right. now left.
      * intros _. apply in_or_app. right. now left.
      * intros p Hp. apply in_app_or in Hp. destruct Hp as [Hp|[<-|[]]]; [|tauto].
        destruct (B p Hp) as [[<-|[<-|[]]]|[->|Hr]]; tauto.
      * intros text data Ht Hd Hwf p Hp. apply in_or_app. left. eapply W; eauto.
  - exists [pie_file; pub_json], []. rewrite app_nil_r. unfold ret.
    split; [now destruct w|]. repeat split; auto.
    + now left.
    + right. now left.
    + discriminate.
    + intros p [<-|[<-|[]]]; tauto.
    + intros text data Ht. unfold Fs.read in Ht. unfold Fs.exists_ in Eex.
      destruct (Fs.lookup priv_json (fs w)) as [[|]|]; discriminate.
Qed.

(** The cleanup as a whole: it never raises, and deletes only listed
    entries. *)
Lemma cleanup_temp_files_spec pie_file pub_json priv_json w :
  exists temp_files w' delta,
    fst (collect_temp_files env pie_file pub_json priv_json w) = Ok temp_files
    /\ cleanup_temp_files env pie_file pub_json priv_json w = (Ok tt, w')
    /\ (forall q, Fs.lookup q (fs w') = Fs.lookup q (fs w)
                  \/ (In q temp_files /\ Fs.is_file q (fs w) = true
                      /\ Fs.lookup q (fs w') = None))
    /\ trace w' = (trace w ++ delta)%list
    /\ launches delta = [] /\ written delta = []
    /\ (forall q, In q (unlinked delta) ->
          In q temp_files /\ Fs.is_file q (fs w) = true /\ Fs.lookup q (fs w') = None)
    /\ (forall p, In p temp_files -> cleaned env p w w').
Proof.
  destruct (collect_temp_files_spec pie_file pub_json priv_json w)
    as (tf & d1 & E1 & L1 & W1 & U1 & _).
  set (w1 := mk_World (fs w) (now w) (trace w ++ d1)) in E1.
  destruct (remove_temp_files_spec tf w1)
    as (w' & E2 & Hfs & d2 & T2 & L2 & W2 & U2 & O2).
  exists tf, w', (d1 ++ d2)%list. rewrite E1. split; [reflexivity|].
  unfold cleanup_temp_files, bind. rewrite E1. split; [exact E2|].
  split; [exact Hfs|]. rewrite T2. subst w1. cbn [trace fs] in *.
  rewrite app_assoc, launches_app, written_app, unlinked_app, L1, L2, W1, W2, U1.
  repeat split; try assumption; try (now apply U2).
  intros p Hp. unfold cleaned.
  rewrite (new_events_app w w' (d1 ++ d2)) by (now rewrite T2, app_assoc).
  destruct (O2 p Hp) as [Hf|(e & disk & Hden & Hm)]; [now left|]. right.
  exists e, disk. split; [exact Hden|].
  unfold logged in *. rewrite flat_map_app. apply in_or_app. now right.
Qed.

End Cleanup.

(** ** The pipeline driver, step by step *)

Section Driver.

Variable env : Env.
Variables job_info executable proof arguments : string.

Let batch_dir := Fs.parent proof.
Let pie_file := Fs.div batch_dir "pie.cairo_pie.zip".
Let priv_json := Fs.div batch_dir "priv.json".
Let pub_json := Fs.div batch_dir "pub.json".
Let PIE := run_step env job_info batch_dir "PIE" (pie_cmd batch_dir executable arguments).
Let BOOTLOAD := run_step env job_info batch_dir "BOOTLOAD" (bootload_cmd batch_dir).
Let PROVE := run_step env job_info batch_dir "PROVE" (prove_cmd batch_dir proof).
Let driver := run_prover env job_info executable proof arguments.

Ltac step_through :=
  unfold driver, run_prover; fold batch_dir; fold pie_file priv_json pub_json;
  fold PIE BOOTLOAD PROVE; unfold bind;
  repeat match goal with
         | H : ?m ?w = (_, _) |- context [?m ?w] => rewrite H
         | H : returncode ?i = 0 |- context [returncode ?i] => rewrite H
         | H : returncode ?i <> 0 |- context [returncode ?i =? 0] =>
             rewrite (proj2 (Z.eqb_neq _ _) H)
         | |- _ => progress cbn [negb Z.eqb app ret]
         end.

Lemma driver_pie_raises w e w1 :
  PIE w = (Raise e, w1) -> driver w = (Raise e, w1).
Proof. intros E1. step_through. reflexivity. Qed.

Lemma driver_pie_fails w i1 w1 :
  PIE w = (Ok i1, w1) -> returncode i1 <> 0 -> driver w = (Ok [i1], w1).
Proof. intros E1 R1. step_through. reflexivity. Qed.

Lemma driver_bootload_raises w i1 w1 e w2 :
  PIE w = (Ok i1, w1) -> returncode i1 = 0 ->
  BOOTLOAD w1 = (Raise e, w2) -> driver w = (Raise e, w2).
Proof. intros E1 R1 E2. step_through. reflexivity. Qed.

Lemma driver_bootload_fails w i1 w1 i2 w2 :
  PIE w = (Ok i1, w1) -> returncode i1 = 0 ->
  BOOTLOAD w1 = (Ok i2, w2) -> returncode i2 <> 0 ->
  driver w
  = (Ok [i1; i2],
     mk_World (fs w2) (now w2)
       (trace w2
        ++ [Log ERROR (job_info ++ " [BOOTLOAD] error: "
                       ++ or_else (stdout i2) (stderr i2))])).
Proof. intros E1 R1 E2 R2. step_through. reflexivity. Qed.

Lemma driver_prove_raises w i1 w1 i2 w2 e w3 :
  PIE w = (Ok i1, w1) -> returncode i1 = 0 ->
  BOOTLOAD w1 = (Ok i2, w2) -> returncode i2 = 0 ->
  PROVE w2 = (Raise e, w3) -> driver w = (Raise e, w3).
Proof. intros E1 R1 E2 R2 E3. step_through. reflexivity. Qed.

Lemma driver_prove_fails w i1 w1 i2 w2 i3 w3 :
  PIE w = (Ok i1, w1) -> returncode i1 = 0 ->
  BOOTLOAD w1 = (Ok i2, w2) -> returncode i2 = 0 ->
  PROVE w2 = (Ok i3, w3) -> returncode i3 <> 0 ->
  driver w = (Ok [i1; i2; i3], w3).
Proof. intros E1 R1 E2 R2 E3 R3. step_through. reflexivity. Qed.

Lemma driver_prove_succeeds w i1 w1 i2 w2 i3 w3 :
  PIE w = (Ok i1, w1) -> returncode i1 = 0 ->
  BOOTLOAD w1 = (Ok i2, w2) -> returncode i2 = 0 ->
  PROVE w2 = (Ok i3, w3) -> returncode i3 = 0 ->
  driver w
  = (Ok [i1; i2; i3], snd (cleanup_temp_files env pie_file pub_json priv_json w3)).
Proof.
  intros E1 R1 E2 R2 E3 R3. step_through.
  destruct (cleanup_temp_files_spec env pie_file pub_json priv_json w3)
    as (tf & w' & d & _ & -> & _). reflexivity.
Qed.

(** What one run of the driver leaves in the trace, and the list it
    returns. *)
Lemma driver_shape w r w' :
  driver w = (r, w') ->
  exists delta,
    trace w' = (trace w ++ delta)%list
    /\ (exists n, launches delta = firstn n (pipeline batch_dir executable proof arguments))
    /\ ((2 <= length (launches delta))%nat ->
        exists i1 w1, PIE w = (Ok i1, w1) /\ returncode i1 = 0)
    /\ ((3 <= length (launches delta))%nat ->
        exists i1 w1 i2 w2,
          PIE w = (Ok i1, w1) /\ returncode i1 = 0
          /\ BOOTLOAD w1 = (Ok i2, w2) /\ returncode i2 = 0)
    /\ match r with
       | Raise _ => unlinked delta = []
       | Ok l =>
           l <> []
           /\ map step l = firstn (length l) step_names
           /\ launches delta = firstn (length l) (pipeline batch_dir executable proof arguments)
           /\ written delta = map (fun i => log_file_of batch_dir (step i)) l
           /\ Forall (fun i => returncode i = 0) (removelast l)
           /\ (forall last, py_last l = Ok last ->
               (returncode last = 0 -> step last = "PROVE")
               /\ (returncode last <> 0 -> unlinked delta = []))
       end.
Proof.
  intros H.
  destruct (PIE w) as [[i1|e1] w1] eqn:E1;
    pose proof (run_step_events _ _ _ _ _ _ _ _ E1) as (d1 & T1 & U1 & S1).
  2:{ rewrite (driver_pie_raises _ _ _ E1) in H. injection H as <- <-.
      exists d1. split; [exact T1|].
      destruct S1 as (_ & [L|L]); rewrite L;
        (split; [first [now exists 0%nat | now exists 1%nat]|]);
        (split; [cbn; lia|]); (split; [cbn; lia|]); exact U1. }
  destruct S1 as (N1 & L1 & W1).
  destruct (Z.eq_dec (returncode i1) 0) as [R1|R1].
  2:{ rewrite (driver_pie_fails _ _ _ E1 R1) in H. injection H as <- <-.
      exists d1. split; [exact T1|]. rewrite L1. split; [now exists 1%nat|].
      split; [cbn; lia|]. split; [cbn; lia|].
      cbn [map length firstn removelast]. rewrite N1.
      refine (conj _ (conj _ (conj _ (conj _ (conj _ _))))); auto; try discriminate.
      intros last Hl. injection Hl as <-. split; [contradiction|auto]. }
  destruct (BOOTLOAD w1) as [[i2|e2] w2] eqn:E2;
    pose proof (run_step_events _ _ _ _ _ _ _ _ E2) as (d2 & T2 & U2 & S2).
  2:{ rewrite (driver_bootload_raises _ _ _ _ _ E1 R1 E2) in H. injection H as <- <-.
      exists (d1 ++ d2)%list. rewrite T2, T1, app_assoc. split; [reflexivity|].
      rewrite launches_app, unlinked_app, L1, U1, U2.
      destruct S2 as (_ & [L|L]); rewrite L;
        (split; [first [now exists 1%nat | now exists 2%nat]|]);
        (split; [intros _; eauto|]); (split; [cbn; lia|]); reflexivity. }
  destruct S2 as (N2 & L2 & W2).
  destruct (Z.eq_dec (returncode i2) 0) as [R2|R2].
  2:{ rewrite (driver_bootload_fails _ _ _ _ _ E1 R1 E2 R2) in H. injection H as <- <-.
      eexists ((d1 ++ d2) ++ [_])%list. cbn [trace]. rewrite T2, T1, !app_assoc.
      split; [reflexivity|].
      rewrite !launches_app, !written_app, !unlinked_app, L1, L2, W1, W2, U1, U2.
      split; [now exists 2%nat|].
      split; [intros _; eauto|]. split; [cbn; lia|].
      cbn [map length firstn removelast]. rewrite N1, N2.
      refine (conj _ (conj _ (conj _ (conj _ (conj _ _))))); auto; try discriminate.
      intros last Hl. injection Hl as <-. split; [contradiction|auto]. }
  destruct (PROVE w2) as [[i3|e3] w3] eqn:E3;
    pose proof (run_step_events _ _ _ _ _ _ _ _ E3) as (d3 & T3 & U3 & S3).
  2:{ rewrite (driver_prove_raises _ _ _ _ _ _ _ E1 R1 E2 R2 E3) in H.
      injection H as <- <-.
      exists ((d1 ++ d2) ++ d3)%list. rewrite T3, T2, T1, !app_assoc.
      split; [reflexivity|].
      rewrite !launches_app, !unlinked_app, L1, L2, U1, U2, U3.
      destruct S3 as (_ & [L|L]); rewrite L;
        (split; [first [now exists 2%nat | now exists 3%nat]|]);
        (split; [intros _; eauto|]);
        (split; [first [cbn; lia | intros _; eauto 8]|]); reflexivity. }
  destruct S3 as (N3 & L3 & W3).
  destruct (Z.eq_dec (returncode i3) 0) as [R3|R3].
  - rewrite (driver_prove_succeeds _ _ _ _ _ _ _ E1 R1 E2 R2 E3 R3) in H.
    destruct (cleanup_temp_files_spec env pie_file pub_json priv_json w3)
      as (tf & w4 & d4 & _ & E4 & _ & T4 & L4 & W4 & _).
    rewrite E4 in H. cbn [snd] in H. injection H as <- <-.
    exists (((d1 ++ d2) ++ d3) ++ d4)%list. rewrite T4, T3, T2, T1, !app_assoc.
    split; [reflexivity|].
    rewrite !launches_app, !written_app, L1, L2, L3, L4, W1, W2, W3, W4.
    split; [now exists 3%nat|].
    split; [intros _; eauto|]. split; [intros _; eauto 8|].
    cbn [map length firstn removelast app]. rewrite N1, N2, N3.
    refine (conj _ (conj _ (conj _ (conj _ (conj _ _))))); auto; try discriminate.
    intros last Hl. injection Hl as <-. split; [auto|contradiction].
  - rewrite (driver_prove_fails _ _ _ _ _ _ _ E1 R1 E2 R2 E3 R3) in H.
    injection H as <- <-.
    exists ((d1 ++ d2) ++ d3)%list. rewrite T3, T2, T1, !app_assoc.
    split; [reflexivity|].
    rewrite !launches_app, !written_app, !unlinked_app, L1, L2, L3, W1, W2, W3, U1, U2, U3.
    split; [now exists 3%nat|].
    split; [intros _; eauto|]. split; [intros _; eauto 8|].
    cbn [map length firstn removelast app]. rewrite N1, N2, N3.
    refine (conj _ (conj _ (conj _ (conj _ (conj _ _))))); auto; try discriminate.
    intros last Hl. injection Hl as <-. split; [contradiction|auto].
Qed.

(** A returned list that ends with exit code 0 comes from three steps
    that all returned 0, and from the cleanup after them. *)
Lemma driver_success_inv w l w' last :
  driver w = (Ok l, w') -> py_last l = Ok last -> returncode last = 0 ->
  exists i1 w1 i2 w2 i3 w3,
    PIE w = (Ok i1, w1) /\ returncode i1 = 0
    /\ BOOTLOAD w1 = (Ok i2, w2) /\ returncode i2 = 0
    /\ PROVE w2 = (Ok i3, w3) /\ returncode i3 = 0
    /\ l = [i1; i2; i3]
    /\ w' = snd (cleanup_temp_files env pie_file pub_json priv_json w3).
Proof.
  intros H Hl R.
  destruct (PIE w) as [[i1|e1] w1] eqn:E1;
    [|rewrite (driver_pie_raises _ _ _ E1) in H; discriminate].
  destruct (Z.eq_dec (returncode i1) 0) as [R1|R1].
  2:{ rewrite (driver_pie_fails _ _ _ E1 R1) in H. injection H as <- <-.
      injection Hl as <-. contradiction. }
  destruct (BOOTLOAD w1) as [[i2|e2] w2] eqn:E2;
    [|rewrite (driver_bootload_raises _ _ _ _ _ E1 R1 E2) in H; discriminate].
  destruct (Z.eq_dec (returncode i2) 0) as [R2|R2].
  2:{ rewrite (driver_bootload_fails _ _ _ _ _ E1 R1 E2 R2) in H.
      injection H as <- <-. injection Hl as <-. contradiction. }
  destruct (PROVE w2) as [[i3|e3] w3] eqn:E3;
    [|rewrite (driver_prove_raises _ _ _ _ _ _ _ E1 R1 E2 R2 E3) in H;
      discriminate].
  destruct (Z.eq_dec (returncode i3) 0) as [R3|R3].
  - rewrite (driver_prove_succeeds _ _ _ _ _ _ _ E1 R1 E2 R2 E3 R3) in H.
    injection H as <- <-. exists i1, w1, i2, w2, i3, w3. now repeat split.
  - rewrite (driver_prove_fails _ _ _ _ _ _ _ E1 R1 E2 R2 E3 R3) in H.
    injection H as <- <-. injection Hl as <-. contradiction.
Qed.

(** The ways in which the driver returns a list. *)
Lemma driver_returned w l w' :
  driver w = (Ok l, w') ->
  (exists i1, l = [i1] /\ PIE w = (Ok i1, w') /\ returncode i1 <> 0)
  \/ (exists i1 w1 i2 w2,
        l = [i1; i2] /\ PIE w = (Ok i1, w1) /\ returncode i1 = 0
        /\ BOOTLOAD w1 = (Ok i2, w2) /\ returncode i2 <> 0
        /\ fs w' = fs w2 /\ now w' = now w2
        /\ exists b, trace w' = (trace w2 ++ b)%list)
  \/ (exists i1 w1 i2 w2 i3 w3,
        l = [i1; i2; i3] /\ PIE w = (Ok i1, w1) /\ returncode i1 = 0
        /\ BOOTLOAD w1 = (Ok i2, w2) /\ returncode i2 = 0
        /\ PROVE w2 = (Ok i3, w3)
        /\ (returncode i3 <> 0 -> w' = w3)
        /\ exists b, trace w' = (trace w3 ++ b)%list).
Proof.
  intros H.
  destruct (PIE w) as [[i1|e1] w1] eqn:E1;
    [|rewrite (driver_pie_raises _ _ _ E1) in H; discriminate].
  destruct (Z.eq_dec (returncode i1) 0) as [R1|R1].
  2:{ rewrite (driver_pie_fails _ _ _ E1 R1) in H. injection H as <- <-.
      left. now exists i1. }
  destruct (BOOTLOAD w1) as [[i2|e2] w2] eqn:E2;
    [|rewrite (driver_bootload_raises _ _ _ _ _ E1 R1 E2) in H; discriminate].
  destruct (Z.eq_dec (returncode i2) 0) as [R2|R2].
  2:{ rewrite (driver_bootload_fails _ _ _ _ _ E1 R1 E2 R2) in H.
      injection H as <- <-. right. left. exists i1, w1, i2, w2.
      cbn [fs now trace]. repeat split; auto. eauto. }
  destruct (PROVE w2) as [[i3|e3] w3] eqn:E3;
    [|rewrite (driver_prove_raises _ _ _ _ _ _ _ E1 R1 E2 R2 E3) in H;
      discriminate].
  right. right. exists i1, w1, i2, w2, i3, w3.
  destruct (Z.eq_dec (returncode i3) 0) as [R3|R3].
  - rewrite (driver_prove_succeeds _ _ _ _ _ _ _ E1 R1 E2 R2 E3 R3) in H.
    injection H as <- <-.
    destruct (cleanup_temp_files_spec env pie_file pub_json priv_json w3)
      as (tf & w4 & d4 & _ & E4 & _ & T4 & _).
    rewrite E4. cbn [snd]. repeat split; auto; [contradiction|eauto].
  - rewrite (driver_prove_fails _ _ _ _ _ _ _ E1 R1 E2 R2 E3 R3) in H.
    injection H as <- <-. repeat split; auto. exists []. now rewrite app_nil_r.
Qed.



End Driver.



(** ** The batch job *)

Section Batch.

Variable env : Env.

Lemma quiet_app a b : quiet a -> quiet b -> quiet (a ++ b).
Proof.
  intros (L1 & W1 & U1) (L2 & W2 & U2). unfold quiet.
  now rewrite launches_app, written_app, unlinked_app, L1, L2, W1, W2, U1, U2.
Qed.

Lemma for_each_logger {A} lvl (f : A -> string) (l : list A) : forall w,
  exists delta,
    for_each l (fun x => logger lvl (f x)) w
    = (Ok tt, mk_World (fs w) (now w) (trace w ++ delta))
    /\ quiet delta.
Proof.
  induction l as [|x l IH]; intros w; cbn [for_each].
  - exists []. rewrite app_nil_r. split; [now destruct w|now repeat split].
  - unfold bind at 1, logger at 1, emit.
    destruct (IH (mk_World (fs w) (now w) (trace w ++ [Log lvl (f x)])))
      as (d & -> & Q).
    exists (Log lvl (f x) :: d). cbn [fs now trace]. rewrite <- app_assoc.
    split; [reflexivity|]. apply (quiet_app [_] d); [now repeat split|exact Q].
Qed.

(** The verdict of the batch: the exit code of the last step, when there
    is one; only the logger is touched. *)
Lemma conclude_batch_spec job_info steps_info w :
  match py_last steps_info with
  | Ok last =>
      exists delta,
        conclude_batch env job_info steps_info w
        = (Ok (returncode last =? 0), mk_World (fs w) (now w) (trace w ++ delta))
        /\ quiet delta
  | Raise e => conclude_batch env job_info steps_info w = (Raise e, w)
  end.
Proof.
  unfold conclude_batch, bind, lift.
  destruct (py_last steps_info) as [last|e]; [|reflexivity].
  destruct (returncode last =? 0); cbn [negb].
  - match goal with
    | |- context [for_each steps_info ?g w] =>
        destruct (for_each_logger DEBUG
                    (fun info =>
                       job_info ++ ", [" ++ step info ++ "] time: "
                       ++ format_f env 2 (elapsed info) ++ " s max memory: "
                       ++ mem_usage_of env (max_memory info)) steps_info w)
          as (d & E & Q)
    end.
    rewrite E. unfold logger, emit, ret. cbn [fs now trace].
    eexists (d ++ [_])%list. rewrite app_assoc. split; [reflexivity|].
    apply quiet_app; [exact Q|now repeat split].
  - unfold logger, emit, ret. eexists [_]. split; [reflexivity|now repeat split].
Qed.

(** [prove_batch] is its [try] block with the handler around it. *)
Lemma prove_batch_unfold height step w :
  prove_batch env height step w
  = match prove_batch_body env (job_info_of height step) height step (started height step w) with
    | (Ok b, w') => (Ok b, w')
    | (Raise e, w') =>
        (Ok false,
         mk_World (fs w') (now w')
           (trace w' ++ [Log ERROR (batch_error_message env (job_info_of height step) e)]))
    end.
Proof.
  unfold prove_batch, bind, logger, emit, try_except, Exception, ret, started.
  destruct (prove_batch_body _ _ _ _ _) as [[b|e] w']; reflexivity.
Qed.

(** [prove_batch] returns a boolean, whatever happens inside. *)
Lemma prove_batch_total height step w :
  exists b, fst (prove_batch env height step w) = Ok b.
Proof.
  rewrite prove_batch_unfold.
  destruct (prove_batch_body _ _ _ _ _) as [[b|e] w']; cbn [fst]; eauto.
Qed.

End Batch.

Lemma py_last_nonempty {A} (l : list A) : l <> [] -> exists last, py_last l = Ok last.
Proof.
  intros H. unfold py_last. destruct (rev l) as [|x r] eqn:E; [|eauto].
  apply (f_equal (@rev A)) in E. rewrite rev_involutive in E. contradiction.
Qed.

(** C10: the list that the driver returns is not empty, its step names are
    a prefix of PIE, BOOTLOAD, PROVE, every element but the last has
    exit code 0, and a log file was written for each element: the step
    ran during this run, and when it returned the file of the step held
    the record of the element, with its output, exit code, time and
    memory; the logs written during the run are these, one each, in
    order, and when the last element has a non-zero exit code its log is
    on the disk that the driver leaves.  So reading the last element
    does not fail, and the batch returns true exactly when the driver
    returned a list whose last element is the PROVE step with exit
    code 0. *)
Theorem run_prover_steps_invariant (env : Env) :
  (forall job_info executable proof arguments w l w',
     run_prover env job_info executable proof arguments w = (Ok l, w') ->
     l <> []
     /\ (exists n, map step l = firstn n step_names)
     /\ Forall (fun i => returncode i = 0) (removelast l)
     /\ Forall (step_logged env job_info executable proof arguments w w') l
     /\ written (new_events w w')
        = map (fun i => log_file_of (Fs.parent proof) (step i)) l
     /\ (forall last,
           py_last l = Ok last -> returncode last <> 0 ->
           Fs.read (log_file_of (Fs.parent proof) (step last)) (fs w')
           = Ok (step_log env (isoformat env (now w')) last))
     /\ exists last,
          py_last l = Ok last
          /\ forall job w0,
               fst (conclude_batch env job l w0)
               = Ok (String.eqb (step last) "PROVE" && (returncode last =? 0)))
  /\ (forall height size w,
        fst (prove_batch env height size w) = Ok true <->
        exists files w1 l w2 last,
          prepare_batch env (job_info_of height size) height size (started height size w)
          = (Ok files, w1)
          /\ run_prover env (job_info_of height size) EXECUTABLE (fst files) (snd files) w1
             = (Ok l, w2)
          /\ py_last l = Ok last /\ step last = "PROVE" /\ returncode last = 0).
Proof.
  assert (forall job_info executable proof arguments w l w' last,
            run_prover env job_info executable proof arguments w = (Ok l, w') ->
            py_last l = Ok last -> returncode last = 0 -> step last = "PROVE") as HP.
  { intros job_info executable proof arguments w l w' last E Hl R.
    destruct (driver_shape env job_info executable proof arguments w _ _ E)
      as (delta & _ & _ & _ & _ & _ & _ & _ & _ & _ & S).
    now apply (S last Hl). }
  assert (forall job_info executable proof arguments w w' wa wk name cmd info a b,
            run_step env job_info (Fs.parent proof) name cmd wa = (Ok info, wk) ->
            cmd = command_of (Fs.parent proof) executable proof arguments name ->
            trace wa = (trace w ++ a)%list -> trace w' = (trace wk ++ b)%list ->
            step_logged env job_info executable proof arguments w w' info) as Logged.
  { intros job_info executable proof arguments w w' wa wk name cmd info a b E -> Ta Tb.
    destruct (run_step_saved _ _ _ _ _ _ _ _ E) as (Hname & Hread).
    exists wa, wk. rewrite Hname. repeat split; eauto. }
  split.
  - intros job_info executable proof arguments w l w' E.
    destruct (driver_shape env job_info executable proof arguments w _ _ E)
      as (delta & T & _ & _ & _ & Hne & Hnames & _ & Hw & Hrc & Hlast).
    rewrite (new_events_app _ _ _ T).
    split; [exact Hne|]. split; [eauto|]. split; [exact Hrc|].
    split; [|split; [exact Hw|split]].
    + destruct (driver_returned env _ _ _ _ _ _ _ E)
        as [(i1 & -> & E1 & _)
           |[(i1 & w1 & i2 & w2 & -> & E1 & _ & E2 & _ & _ & _ & b & Tb)
            |(i1 & w1 & i2 & w2 & i3 & w3 & -> & E1 & _ & E2 & _ & E3 & _ & b & Tb)]].
      * constructor; [|constructor].
        apply (Logged _ _ _ _ w w' w w' "PIE" _ i1 [] [] E1 eq_refl);
          now rewrite app_nil_r.
      * destruct (run_step_events _ _ _ _ _ _ _ _ E1) as (d1 & T1 & _).
        destruct (run_step_events _ _ _ _ _ _ _ _ E2) as (d2 & T2 & _).
        constructor; [|constructor; [|constructor]].
        -- apply (Logged _ _ _ _ w w' w w1 "PIE" _ i1 [] (d2 ++ b)%list E1 eq_refl);
             [now rewrite app_nil_r|now rewrite Tb, T2, app_assoc].
        -- apply (Logged _ _ _ _ w w' w1 w2 "BOOTLOAD" _ i2 d1 b E2 eq_refl);
             assumption.
      * destruct (run_step_events _ _ _ _ _ _ _ _ E1) as (d1 & T1 & _).
        destruct (run_step_events _ _ _ _ _ _ _ _ E2) as (d2 & T2 & _).
        destruct (run_step_events _ _ _ _ _ _ _ _ E3) as (d3 & T3 & _).
        constructor; [|constructor; [|constructor; [|constructor]]].
        -- apply (Logged _ _ _ _ w w' w w1 "PIE" _ i1 [] (d2 ++ d3 ++ b)%list E1 eq_refl);
             [now rewrite app_nil_r|now rewrite Tb, T3, T2, <- !app_assoc].
        -- apply (Logged _ _ _ _ w w' w1 w2 "BOOTLOAD" _ i2 d1 (d3 ++ b)%list E2 eq_refl);
             [assumption|now rewrite Tb, T3, <- !app_assoc].
        -- apply (Logged _ _ _ _ w w' w2 w3 "PROVE" _ i3 (d1 ++ d2)%list b E3 eq_refl);
             [now rewrite T2, T1, <- !app_assoc|assumption].
    + intros last Hl R.
      destruct (driver_returned env _ _ _ _ _ _ _ E)
        as [(i1 & -> & E1 & _)
           |[(i1 & w1 & i2 & w2 & -> & _ & _ & E2 & _ & Hfs & Hnow & _)
            |(i1 & w1 & i2 & w2 & i3 & w3 & -> & _ & _ & _ & _ & E3 & Hw3 & _)]];
        injection Hl as <-.
      * destruct (run_step_saved _ _ _ _ _ _ _ _ E1) as (-> & Hread). exact Hread.
      * destruct (run_step_saved _ _ _ _ _ _ _ _ E2) as (-> & Hread).
        now rewrite Hfs, Hnow.
      * destruct (run_step_saved _ _ _ _ _ _ _ _ E3) as (-> & Hread).
        now rewrite (Hw3 R).
    + destruct (py_last_nonempty l Hne) as [last Hl]. exists last. split; [exact Hl|].
      intros job w0. pose proof (conclude_batch_spec env job l w0) as C.
      rewrite Hl in C. destruct C as (d & -> & _). cbn [fst]. f_equal.
      destruct (Z.eqb_spec (returncode last) 0) as [R|R]; [|now rewrite andb_false_r].
      now rewrite (proj1 (Hlast last Hl) R).
  - intros height size w. rewrite prove_batch_unfold. unfold prove_batch_body, bind.
    destruct (prepare_batch env _ height size (started height size w))
      as [[files|e] w1] eqn:Eprep.
    2:{ cbn [fst]. split; [discriminate|].
        intros (f & w1' & l & w2 & last & X & _). discriminate. }
    fold EXECUTABLE.
    destruct (run_prover env _ EXECUTABLE (fst files) (snd files) w1)
      as [[l|e] w2] eqn:Erun.
    2:{ cbn [fst]. split; [discriminate|].
        intros (f & w1' & l & w2' & last & X & Y & _).
        injection X as <- <-. rewrite Erun in Y. discriminate. }
    pose proof (conclude_batch_spec env (job_info_of height size) l w2) as C.
    destruct (py_last l) as [last|e] eqn:Hl.
    + destruct C as (d & -> & _). cbn [fst]. split.
      * intros H. injection H as H. apply Z.eqb_eq in H.
        exists files, w1, l, w2, last. repeat split; auto. eapply HP; eauto.
      * intros (f & w1' & l' & w2' & last' & X & Y & Hl' & _ & R).
        injection X as <- <-. rewrite Erun in Y. injection Y as <- <-.
        rewrite Hl in Hl'. injection Hl' as <-. now rewrite R.
    + rewrite C. cbn [fst]. split; [discriminate|].
      intros (f & w1' & l' & w2' & last' & X & Y & Hl' & _).
      injection X as <- <-. rewrite Erun in Y. injection Y as <- <-.
      rewrite Hl in Hl'. discriminate.
Qed.

Lemma run_prover_steps_invariant_witness :
  fst (prove_batch Demo.env 0 10 Demo.world) = Ok true
  /\ (exists l w',
        run_prover Demo.env "job" "program.json" ".proofs/proof.json"
          ".proofs/arguments.json" Demo.world = (Ok l, w')
        /\ map step l = step_names
        /\ Forall (step_logged Demo.env "job" "program.json" ".proofs/proof.json"
                     ".proofs/arguments.json" Demo.world w') l
        /\ written (new_events Demo.world w')
           = [".proofs/pie.log"; ".proofs/bootload.log"; ".proofs/prove.log"])
  /\ (exists i1 w',
        run_prover (Demo.env_of "Linux" (Demo.tools 1 0 0)) "job" "program.json"
          "proof.json" "arguments.json" Demo.world = (Ok [i1], w')
        /\ Fs.read "pie.log" (fs w')
           = Ok (step_log (Demo.env_of "Linux" (Demo.tools 1 0 0))
                   "2025-01-01T00:00:00" i1)).
Proof.
  split; [|split].
  - destruct (run_prover_steps_invariant Demo.env) as [_ Hbatch].
    apply Hbatch. do 5 eexists.
    split; [vm_compute; reflexivity|].
    split; [vm_compute; reflexivity|].
    split; [vm_compute; reflexivity|]. split; reflexivity.
  - destruct (run_prover_steps_invariant Demo.env) as [Hlist _].
    do 2 eexists. split; [vm_compute; reflexivity|].
    split; [reflexivity|].
    match goal with
    | |- Forall _ ?l /\ written (new_events _ ?w') = _ =>
        destruct (Hlist "job" "program.json" ".proofs/proof.json" ".proofs/arguments.json"
                    Demo.world l w' ltac:(vm_compute; reflexivity))
          as (_ & _ & _ & HL & -> & _)
    end.
    split; [exact HL|reflexivity].
  - destruct (run_prover_steps_invariant (Demo.env_of "Linux" (Demo.tools 1 0 0)))
      as [Hlist _].
    do 2 eexists. split; [vm_compute; reflexivity|].
    match goal with
    | |- Fs.read _ (fs ?w') = Ok (step_log _ _ ?i) =>
        destruct (Hlist "job" "program.json" "proof.json" "arguments.json"
                    Demo.world [i] w' ltac:(vm_compute; reflexivity))
          as (_ & _ & _ & _ & _ & H & _)
    end.
    apply (H _ eq_refl). discriminate.
Defined.

(** ** What the preparation of a batch can do *)

Lemma harmless_ret {A} (a : A) : harmless (ret a).
Proof.
  intros w r w' H. injection H as <- <-. exists []. now rewrite app_nil_r.
Qed.

Lemma harmless_pure {A} (f : World -> result A) : harmless (fun w => (f w, w)).
Proof.
  intros w r w' H. injection H as <- <-. exists []. now rewrite app_nil_r.
Qed.

Lemma harmless_bind {A B} (m : M A) (k : A -> M B) :
  harmless m -> (forall a, harmless (k a)) -> harmless (bind m k).
Proof.
  intros Hm Hk w r w' H. unfold bind in H.
  destruct (m w) as [[a|e] w1] eqn:E; destruct (Hm _ _ _ E) as (d1 & T1 & L1 & U1).
  - destruct (Hk a _ _ _ H) as (d2 & T2 & L2 & U2).
    exists (d1 ++ d2)%list. rewrite T2, T1, app_assoc, launches_app, unlinked_app, L1, L2, U1, U2.
    now repeat split.
  - injection H as <- <-. now exists d1.
Qed.

Lemma harmless_logger lvl msg : harmless (logger lvl msg).
Proof.
  intros w r w' H. injection H as <- <-. eexists [_]. now repeat split.
Qed.

Lemma harmless_mkdir p : harmless (mkdir_exist_ok p).
Proof.
  intros w r w' H. unfold mkdir_exist_ok, with_fs in H.
  destruct (Fs.mkdir_exist_ok p (fs w)); injection H as <- <-.
  - eexists [_]. now repeat split.
  - exists []. now rewrite app_nil_r.
Qed.

Lemma harmless_write_text p content : harmless (write_text p content).
Proof.
  intros w r w' H. unfold write_text, with_fs in H.
  destruct (Fs.write p content (fs w)); injection H as <- <-.
  - eexists [_]. now repeat split.
  - exists []. now rewrite app_nil_r.
Qed.

Lemma harmless_find_previous_proof height : harmless (find_previous_proof height).
Proof.
  intros w r w' H. unfold find_previous_proof in H.
  destruct (0 <? height); injection H as <- <-; exists []; now rewrite app_nil_r.
Qed.

Lemma harmless_prepare_batch env job_info height size :
  harmless (prepare_batch env job_info height size).
Proof.
  unfold prepare_batch.
  repeat first
    [ apply harmless_bind; [|intros ?]
    | apply harmless_mkdir
    | apply harmless_find_previous_proof
    | apply harmless_logger
    | apply harmless_write_text
    | apply harmless_ret
    | apply (harmless_pure (fun w => _))
    | apply harmless_pure ].
Qed.

(** C8: [prove_batch] always returns a boolean: an exception raised in its
    [try] block (the preparation of the data and the arguments, the
    pipeline, the verdict) is caught, logged at ERROR level with the job,
    its message and the stack trace, and turned into false; so the loop
    of [main] never sees an exception either. *)
Theorem prove_batch_never_raises (env : Env) height size w :
  (exists b, fst (prove_batch env height size w) = Ok b)
  /\ (forall e w1,
        prove_batch_body env (job_info_of height size) height size (started height size w)
        = (Raise e, w1) ->
        prove_batch env height size w
        = (Ok false,
           mk_World (fs w1) (now w1)
             (trace w1
              ++ [Log ERROR
                    (job_info_of height size ++ " error while processing "
                     ++ job_info_of height size ++ ":" ++ LF ++ exn_msg e ++ LF
                     ++ "stacktrace:" ++ LF ++ format_exc env e)])))
  /\ (forall heights processed_count w0,
        exists exit, fst (main_loop env heights size processed_count w0) = Ok exit).
Proof.
  split; [apply prove_batch_total|]. split.
  - intros e w1 H. rewrite prove_batch_unfold, H. reflexivity.
  - induction heights as [|h rest IH]; intros pc w0; cbn [main_loop].
    + eexists. reflexivity.
    + unfold bind at 1.
      destruct (prove_batch_total env h size w0) as [b Hb].
      destruct (prove_batch env h size w0) as [r w1]. cbn [fst] in Hb. subst r.
      destruct b; [apply IH|]. eexists. reflexivity.
Qed.

Lemma prove_batch_never_raises_witness :
  prove_batch (Demo.flaky 0) 0 10 Demo.world
  = (Ok false,
     mk_World [(PROOF_DIR, Fs.Dir); (".proofs/light_0_to_10", Fs.Dir)] PrimFloat.zero
       [Log DEBUG "Job(height='0', blocks=10) proving...";
        Mkdir ".proofs/light_0_to_10";
        Log DEBUG "Job(height='0', blocks=10) generating data...";
        Log ERROR
          ("Job(height='0', blocks=10) error while processing Job(height='0', blocks=10):"
           ++ LF ++ "node unreachable" ++ LF ++ "stacktrace:" ++ LF
           ++ "Traceback (most recent call last): ConnectionError")]).
Proof.
  exact (proj1 (proj2 (prove_batch_never_raises (Demo.flaky 0) 0 10 Demo.world))
           (mk_exn "ConnectionError" "node unreachable") _ eq_refl).
Defined.

(** ** A platform that [run] refuses *)

Section Unsupported.

Variable env : Env.
Hypothesis not_Linux : platform_system env <> "Linux".

Lemma run_unsupported cmd timeout w :
  run env cmd timeout w = (Raise RuntimeError_not_Linux, w).
Proof.
  unfold run. apply String.eqb_neq in not_Linux. now rewrite not_Linux.
Qed.

Lemma run_prover_unsupported job_info executable proof arguments w :
  exists msg,
    run_prover env job_info executable proof arguments w
    = (Raise RuntimeError_not_Linux,
       mk_World (fs w) (now w) (trace w ++ [Log DEBUG msg])).
Proof.
  eexists. apply driver_pie_raises.
  unfold run_step, bind, logger, emit. now rewrite run_unsupported.
Qed.

Lemma prove_batch_unsupported height size w :
  exists w' delta,
    prove_batch env height size w = (Ok false, w')
    /\ trace w' = (trace w ++ delta)%list
    /\ launches delta = []
    /\ (forall files w1,
          prepare_batch env (job_info_of height size) height size (started height size w)
          = (Ok files, w1) ->
          exists msg,
            w' = mk_World (fs w1) (now w1)
                   (trace w1
                    ++ [Log DEBUG msg;
                        Log ERROR (batch_error_message env (job_info_of height size)
                                     RuntimeError_not_Linux)])).
Proof.
  rewrite prove_batch_unfold. unfold prove_batch_body, bind.
  destruct (prepare_batch env _ height size (started height size w))
    as [[files|e] w1] eqn:Eprep;
    destruct (harmless_prepare_batch _ _ _ _ _ _ _ Eprep) as (d & T & L & _).
  - destruct (run_prover_unsupported (job_info_of height size) EXECUTABLE
                (fst files) (snd files) w1) as [msg E].
    fold EXECUTABLE. rewrite E. cbn [fs now trace].
    eexists. eexists (_ :: d ++ [_; _])%list. split; [reflexivity|].
    cbn [trace]. rewrite T. unfold started. cbn [trace].
    split; [now rewrite <- !app_assoc|]. split.
    + change (?x :: d ++ ?y)%list with ([x] ++ d ++ y)%list.
      rewrite !launches_app, L. reflexivity.
    + intros f w1' X. injection X as <- <-. exists msg.
      rewrite T. unfold started. cbn [trace]. now rewrite <- !app_assoc.
  - eexists. eexists (_ :: d ++ [_])%list. split; [reflexivity|].
    cbn [trace]. rewrite T. unfold started. cbn [trace].
    split; [now rewrite <- !app_assoc|]. split; [|discriminate].
    change (?x :: d ++ ?y)%list with ([x] ++ d ++ y)%list.
    rewrite !launches_app, L. reflexivity.
Qed.

End Unsupported.

(** C2, as the code has it: where the platform is not Linux, [run] raises
    a [RuntimeError] before it launches anything; [prove_batch] catches it
    like any other exception, logs it at ERROR level and returns false;
    the loop of [main] then stops at this first batch and returns.  No
    process is launched on the way. *)
Theorem unsupported_platform_fails_the_batch (env : Env) :
  platform_system env <> "Linux" ->
  (forall cmd timeout w, run env cmd timeout w = (Raise RuntimeError_not_Linux, w))
  /\ (forall height size w,
        fst (prove_batch env height size w) = Ok false
        /\ launches (new_events w (snd (prove_batch env height size w))) = []
        /\ (forall files w1,
              prepare_batch env (job_info_of height size) height size
                (started height size w) = (Ok files, w1) ->
              exists msg,
                snd (prove_batch env height size w)
                = mk_World (fs w1) (now w1)
                    (trace w1
                     ++ [Log DEBUG msg;
                         Log ERROR (batch_error_message env (job_info_of height size)
                                      RuntimeError_not_Linux)])))
  /\ (forall height rest size processed_count w,
        exists w',
          main_loop env (height :: rest) size processed_count w
          = (Ok (Returned processed_count), w')
          /\ launches (new_events w w') = []).
Proof.
  intros HL. split; [apply run_unsupported, HL|]. split.
  - intros height size w.
    destruct (prove_batch_unsupported env HL height size w) as (w' & d & E & T & L & P).
    rewrite E. cbn [fst snd]. rewrite (new_events_app _ _ _ T). auto.
  - intros height rest size pc w. cbn [main_loop]. unfold bind at 1.
    destruct (prove_batch_unsupported env HL height size w) as (w1 & d & E & T & L & _).
    rewrite E. unfold bind, logger, emit, ret. eexists. split; [reflexivity|].
    rewrite (new_events_app w _ (d ++ [Log INFO ("Job at height: " ++ str height
                                        ++ " failed, stopping further processing")])).
    + now rewrite launches_app, L.
    + cbn [trace]. now rewrite T, app_assoc.
Qed.

Lemma unsupported_platform_fails_the_batch_witness :
  fst (prove_batch Demo.darwin 0 10 Demo.world) = Ok false
  /\ launches (new_events Demo.world (snd (prove_batch Demo.darwin 0 10 Demo.world))) = [].
Proof.
  destruct (unsupported_platform_fails_the_batch Demo.darwin ltac:(discriminate))
    as (_ & H & _).
  destruct (H 0 10 Demo.world) as (R & L & _). split; [exact R | exact L].
Defined.

(** C2, as the specification has it, fails: on a platform that is not
    Linux the [RuntimeError] of [run] does not leave [prove_batch]; the
    batch returns false with the error in the log, and [main] returns
    normally. *)
Lemma unsupported_platform_is_caught :
  platform_system Demo.darwin <> "Linux"
  /\ fst (run Demo.darwin ["cairo-execute"] None Demo.world)
     = Raise RuntimeError_not_Linux
  /\ fst (prove_batch Demo.darwin 0 10 Demo.world) = Ok false
  /\ fst (prove_batch Demo.darwin 0 10 Demo.world) <> Raise RuntimeError_not_Linux
  /\ logged ERROR (trace (snd (prove_batch Demo.darwin 0 10 Demo.world)))
     = [batch_error_message Demo.darwin (job_info_of 0 10) RuntimeError_not_Linux]
  /\ fst (main Demo.darwin 0 30 10 Demo.world) = Ok tt.
Proof.
  split; [discriminate|]. split; [reflexivity|].
  split; [vm_compute; reflexivity|]. split; [vm_compute; discriminate|].
  split; vm_compute; reflexivity.
Qed.

(** ** The orchestrator *)

(** C4, as the code has it: over the heights of three batches of which the
    second fails, [main] runs the first batch, then the second, logs
    which height failed and returns; the third batch is not attempted,
    the count of processed batches stands at 1 when the loop is left,
    and nothing is logged after the failure but the height that
    failed. *)
Theorem main_stops_at_first_failed_batch (env : Env)
    start blocks size h0 h1 h2 w w0 w1 w2 :
  py_range start (start + blocks) size = Ok [h0; h1; h2] ->
  mkdir_exist_ok PROOF_DIR (announced start blocks size w) = (Ok tt, w0) ->
  prove_batch env h0 size w0 = (Ok true, w1) ->
  prove_batch env h1 size w1 = (Ok false, w2) ->
  let stopped :=
    mk_World (fs w2) (now w2)
      (trace w2
       ++ [Log INFO ("Job at height: " ++ str h1 ++ " failed, stopping further processing")])
  in
  main_loop env [h0; h1; h2] size 0 w0 = (Ok (Returned 1), stopped)
  /\ main env start blocks size w = (Ok tt, stopped)
  /\ new_events w2 (snd (main env start blocks size w))
     = [Log INFO ("Job at height: " ++ str h1 ++ " failed, stopping further processing")].
Proof.
  intros Hrange Hmk B0 B1 stopped.
  assert (main_loop env [h0; h1; h2] size 0 w0 = (Ok (Returned 1), stopped)) as Hloop.
  { cbn [main_loop]. unfold bind at 1. rewrite B0. unfold bind at 1. rewrite B1.
    reflexivity. }
  assert (main env start blocks size w = (Ok tt, stopped)) as Hmain.
  { unfold main. unfold bind at 1. unfold logger at 1, emit.
    fold (announced start blocks size w). unfold bind at 1. rewrite Hmk.
    unfold bind at 1, lift. rewrite Hrange. unfold bind. rewrite Hloop. reflexivity. }
  split; [exact Hloop|]. split; [exact Hmain|].
  rewrite Hmain. cbn [snd]. now apply new_events_app.
Qed.

Lemma main_stops_at_first_failed_batch_witness :
  exists stopped,
    main (Demo.flaky 10) 0 30 10 Demo.world = (Ok tt, stopped)
    /\ main_loop (Demo.flaky 10) [0; 10; 20] 10 0
         (snd (mkdir_exist_ok PROOF_DIR (announced 0 30 10 Demo.world)))
       = (Ok (Returned 1), stopped).
Proof.
  epose proof (main_stops_at_first_failed_batch (Demo.flaky 10) 0 30 10 0 10 20
                 Demo.world _ _ _ eq_refl eq_refl) as H.
  specialize (H ltac:(vm_compute; reflexivity)).
  specialize (H ltac:(vm_compute; reflexivity)).
  destruct H as (Hloop & Hmain & _).
  eexists. split; [exact Hmain | exact Hloop].
Defined.

(** C4, as the specification has it, fails: when the second of three
    batches fails, what [main] logs at INFO level is the announcement,
    the completion of the first batch and the height that failed; no
    line gives a count of processed batches. *)
Lemma no_summary_after_a_failed_batch :
  fst (main (Demo.flaky 10) 0 30 10 Demo.world) = Ok tt
  /\ logged INFO (trace (snd (main (Demo.flaky 10) 0 30 10 Demo.world)))
     = ["Initial height: 0, blocks: 30, step: 10";
        "Job(height='0', blocks=10) done, total execution time: 0.00 seconds, max memory: 0.00 MB";
        "Job at height: 10 failed, stopping further processing"]
  /\ existsb (contains "processed")
       (logged INFO (trace (snd (main (Demo.flaky 10) 0 30 10 Demo.world)))
        ++ logged ERROR (trace (snd (main (Demo.flaky 10) 0 30 10 Demo.world)))
        ++ logged WARNING (trace (snd (main (Demo.flaky 10) 0 30 10 Demo.world)))
        ++ logged DEBUG (trace (snd (main (Demo.flaky 10) 0 30 10 Demo.world))))
     = false.
Proof. repeat split; vm_compute; reflexivity. Qed.

(** ** The previous proof *)

(** What the loop over the matching directories leaves in
    [previous_proof_file]: the proof of the first directory that has
    one; failing that, the candidate of the last directory; the entry
    value when there is no directory. *)
Lemma scan_previous_spec disk dirs previous :
  scan_previous disk dirs previous
  = match find (fun d => Fs.exists_ (proof_of d) disk) dirs with
    | Some d => Some (proof_of d)
    | None =>
        match rev dirs with
        | d :: _ => Some (proof_of d)
        | [] => previous
        end
    end.
Proof.
  revert previous. induction dirs as [|d dirs IH]; intros previous; cbn [scan_previous find].
  - reflexivity.
  - fold (proof_of d). destruct (Fs.exists_ (proof_of d) disk) eqn:E; [reflexivity|].
    rewrite IH. destruct (find _ dirs); [reflexivity|].
    cbn [rev]. destruct (rev dirs); reflexivity.
Qed.

(** The first half of C1 holds: when an enumerated directory has its
    proof, the first such is resolved. *)
Lemma find_previous_proof_first height w d :
  0 < height ->
  find (fun d => Fs.exists_ (proof_of d) (fs w)) (glob_ends_at height (fs w)) = Some d ->
  find_previous_proof height w = (Ok (Some (proof_of d)), w).
Proof.
  intros Hh Hf. unfold find_previous_proof.
  rewrite (proj2 (Z.ltb_lt 0 height) Hh), scan_previous_spec, Hf. reflexivity.
Qed.

(** The second half does not: when directories match and none has its
    proof, the candidate of the last one is left in
    [previous_proof_file]. *)
Lemma find_previous_proof_none height w d dirs :
  0 < height ->
  find (fun d => Fs.exists_ (proof_of d) (fs w)) (glob_ends_at height (fs w)) = None ->
  rev (glob_ends_at height (fs w)) = d :: dirs ->
  find_previous_proof height w = (Ok (Some (proof_of d)), w)
  /\ Fs.exists_ (proof_of d) (fs w) = false.
Proof.
  intros Hh Hf Hr. unfold find_previous_proof.
  rewrite (proj2 (Z.ltb_lt 0 height) Hh), scan_previous_spec, Hf, Hr.
  split; [reflexivity|].
  apply (find_none _ _ Hf). apply in_rev. rewrite Hr. now left.
Qed.

(** C1 on a disk where the batch that ends at height 10 was started and
    its prover failed: the directory is there, its [proof.json] is
    not, and the previous proof resolved for height 10 is that missing
    file, not none. *)
Theorem previous_proof_dangles :
  let w := snd (prove_batch Demo.failing_prover 0 10 Demo.world) in
  fst (prove_batch Demo.failing_prover 0 10 Demo.world) = Ok false
  /\ glob_ends_at 10 (fs w) = [".proofs/light_0_to_10"]
  /\ Fs.exists_ ".proofs/light_0_to_10/proof.json" (fs w) = false
  /\ fst (find_previous_proof 10 w) = Ok (Some ".proofs/light_0_to_10/proof.json")
  /\ fst (find_previous_proof 10 w) <> Ok None.
Proof.
  cbv zeta. split; [vm_compute; reflexivity|]. split; [vm_compute; reflexivity|].
  split; [vm_compute; reflexivity|]. split; [vm_compute; reflexivity|].
  vm_compute. discriminate.
Qed.

(** ** The resume locator *)

Lemma scan_entry_spec disk max_height proof_dir :
  scan_entry disk max_height proof_dir
  = match counted_end disk proof_dir with
    | Some e => Z.max max_height e
    | None => max_height
    end.
Proof.
  unfold scan_entry, counted_end, proof_of.
  destruct (Fs.is_dir proof_dir disk); cbn [andb]; [|reflexivity].
  destruct (match_batch_dir (Fs.name proof_dir)) as [g|]; cbn [option_map].
  - destruct (Fs.exists_ _ disk); [|reflexivity].
    destruct (Z.gtb_spec (int_of_digits g) max_height); lia.
  - now destruct (Fs.exists_ _ disk).
Qed.

Lemma scan_entries_max disk entries : forall m0,
  let ends := flat_map (fun d => match counted_end disk d with
                                 | Some e => [e] | None => [] end) entries in
  let m := fold_left (scan_entry disk) entries m0 in
  m0 <= m /\ (forall e, In e ends -> e <= m) /\ (m = m0 \/ In m ends).
Proof.
  induction entries as [|d entries IH]; intros m0; cbn [fold_left flat_map].
  - split; [lia|]. split; [intros e []|now left].
  - specialize (IH (scan_entry disk m0 d)). cbv zeta in IH.
    destruct IH as (Hle & Hub & Hin). rewrite scan_entry_spec in *.
    destruct (counted_end disk d) as [e0|]; cbn [app].
    + split; [lia|]. split.
      * intros e [<-|He]; [lia|auto].
      * destruct Hin as [Hm|Hm]; [|right; now right].
        destruct (Z.max_spec m0 e0) as [[_ Hx]|[_ Hx]]; rewrite Hx in *.
        -- right. left. now symmetry.
        -- left. exact Hm.
    + split; [lia|]. split; [exact Hub|exact Hin].
Qed.

Lemma int_of_digits_nonneg s : 0 <= int_of_digits s.
Proof.
  unfold int_of_digits. generalize (list_ascii_of_string s). intros l.
  assert (forall acc, 0 <= acc ->
            0 <= fold_left (fun acc c => 10 * acc + Z.of_nat (nat_of_ascii c - 48)) l acc)
    as H; [|apply H; lia].
  induction l as [|c l IH]; intros acc Hacc; cbn [fold_left]; [exact Hacc|].
  apply IH. lia.
Qed.

Lemma counted_end_nonneg disk d e : counted_end disk d = Some e -> 0 <= e.
Proof.
  unfold counted_end. destruct (_ && _); [|discriminate].
  destruct (match_batch_dir _); [|discriminate].
  intros H. injection H as <-. apply int_of_digits_nonneg.
Qed.

(** The loop of the scan is a maximum. *)
Lemma scan_entries_fold disk entries : forall m0,
  fold_left (scan_entry disk) entries m0
  = fold_left Z.max
      (flat_map (fun d => match counted_end disk d with Some e => [e] | None => [] end)
                entries) m0.
Proof.
  induction entries as [|d entries IH]; intros m0; cbn [fold_left flat_map]; [reflexivity|].
  rewrite IH, scan_entry_spec. destruct (counted_end disk d); reflexivity.
Qed.

Lemma fold_max_le l : forall a m, a <= m -> (forall e, In e l -> e <= m) ->
  fold_left Z.max l a <= m.
Proof.
  induction l as [|x l IH]; intros a m Ha Hl; cbn [fold_left]; [exact Ha|].
  apply IH; [|intros e He; apply Hl; now right].
  pose proof (Hl x (or_introl eq_refl)). lia.
Qed.

(** A batch directory in the words of the specification is one for the
    scan, with the same end height. *)
Lemma finalized_counted disk d e : finalized_end disk d = Some e -> counted_end disk d = Some e.
Proof.
  unfold finalized_end, counted_end, batch_end_suffix, match_batch_dir.
  destruct (_ && _); [|discriminate].
  destruct (strip_prefix "light_" (Fs.name d)) as [a|]; [|discriminate].
  destruct (nonempty (take_digits a)); [|discriminate].
  destruct (strip_prefix "_to_" (drop_digits a)) as [suffix|]; [|discriminate].
  destruct (nonempty suffix) eqn:En; [|discriminate]. cbn [andb].
  destruct (String.eqb_spec (take_digits suffix) suffix) as [E|]; [|discriminate].
  rewrite E, En. now cbn.
Qed.

Lemma finalized_heights_counted disk e :
  In e (finalized_end_heights disk) -> In e (counted_end_heights disk).
Proof.
  unfold finalized_end_heights, counted_end_heights.
  destruct (Fs.is_dir PROOF_DIR disk); [|intros []].
  rewrite !in_flat_map. intros (d & Hd & He). exists d. split; [exact Hd|].
  destruct (finalized_end disk d) as [e'|] eqn:E; [|contradiction].
  now rewrite (finalized_counted _ _ _ E).
Qed.

(** C6, as the code has it.  Where [.proofs] is there and is not a
    directory, [auto_detect_start] raises.  Everywhere else it returns
    the greatest end height that the scan reads off the entries of
    [.proofs]: directories that hold a [proof.json] and whose name
    begins as a batch name; directories without a [proof.json] do not
    count; it returns 0 when there is no such entry, and when there is no
    [.proofs] at all.  What it returns is at least the maximum of the
    specification, and is this maximum when the scan reads from every
    entry what the specification reads. *)
Theorem auto_detect_start_highest_finalized w :
  (Fs.is_file PROOF_DIR (fs w) = true ->
   auto_detect_start w = (Raise (Fs.ENOTDIR PROOF_DIR), w))
  /\ (Fs.is_file PROOF_DIR (fs w) = false ->
      exists m,
        auto_detect_start w = (Ok m, w)
        /\ m = fold_left Z.max (counted_end_heights (fs w)) 0
        /\ (forall e, In e (counted_end_heights (fs w)) -> e <= m)
        /\ (counted_end_heights (fs w) <> [] -> In m (counted_end_heights (fs w)))
        /\ (counted_end_heights (fs w) = [] -> m = 0)
        /\ (Fs.exists_ PROOF_DIR (fs w) = false -> m = 0)
        /\ highest_finalized (fs w) <= m
        /\ ((forall d, In d (Fs.children PROOF_DIR (fs w)) ->
               counted_end (fs w) d = finalized_end (fs w) d) ->
            m = highest_finalized (fs w))).
Proof.
  split.
  { intros Hfile. unfold auto_detect_start, bind, path_exists, Fs.iterdir, ret, Fs.exists_.
    unfold Fs.is_file in Hfile.
    destruct (Fs.lookup PROOF_DIR (fs w)) as [[c|]|] eqn:Elook; try discriminate.
    cbn [negb]. cbv beta iota. now rewrite Elook. }
  intros Hfile. unfold auto_detect_start, bind, path_exists, Fs.iterdir, ret,
    highest_finalized, finalized_end_heights, counted_end_heights, Fs.is_dir.
  unfold Fs.is_file in Hfile. unfold Fs.exists_.
  destruct (Fs.lookup PROOF_DIR (fs w)) as [[c|]|] eqn:Elook; [discriminate| |];
    cbn [negb]; cbv beta iota; rewrite ?Elook.
  - pose proof (scan_entries_max (fs w) (Fs.children PROOF_DIR (fs w)) 0) as H.
    cbv zeta in H. destruct H as (Hle & Hub & Hin).
    eexists. split; [reflexivity|]. split; [apply scan_entries_fold|].
    split; [exact Hub|]. split; [|split; [|split; [|split]]].
    + intros Hne. destruct Hin as [Hm|Hm]; [|exact Hm]. rewrite Hm.
      destruct (flat_map _ _) as [|e l] eqn:El; [contradiction|].
      assert (e = 0) as ->; [|now left].
      assert (In e (e :: l)) as Hi by now left.
      pose proof (Hub e Hi) as Hu. rewrite Hm in Hu.
      rewrite <- El in Hi. apply in_flat_map in Hi. destruct Hi as (d & _ & Hd).
      destruct (counted_end (fs w) d) as [e'|] eqn:Ee; [|contradiction].
      destruct Hd as [<-|[]]. apply counted_end_nonneg in Ee. lia.
    + intros Hnil. rewrite Hnil in Hin. destruct Hin as [Hm|[]]. exact Hm.
    + discriminate.
    + apply fold_max_le; [exact Hle|]. intros e He. apply Hub.
      apply in_flat_map in He. destruct He as (d & Hd & He). apply in_flat_map.
      exists d. split; [exact Hd|].
      destruct (finalized_end (fs w) d) as [e'|] eqn:E; [|contradiction].
      now rewrite (finalized_counted _ _ _ E).
    + intros Hsame. rewrite scan_entries_fold. f_equal. revert Hsame. clear.
      induction (Fs.children PROOF_DIR (fs w)) as [|d l IHl]; intros Hsame;
        [reflexivity|].
      cbn [flat_map]. rewrite (Hsame d (or_introl eq_refl)). f_equal.
      apply IHl. intros d' Hd'. apply Hsame. now right.
  - exists 0. split; [reflexivity|]. split; [reflexivity|]. split; [intros e []|].
    split; [contradiction|]. split; [reflexivity|]. split; [reflexivity|].
    split; [cbn; lia|]. reflexivity.
Qed.

Lemma auto_detect_start_highest_finalized_witness :
  let w := snd (main Demo.env 0 30 10 Demo.world) in
  counted_end_heights (fs w) = [10; 20; 30]
  /\ finalized_end_heights (fs w) = [10; 20; 30]
  /\ auto_detect_start w = (Ok 30, w)
  /\ highest_finalized (fs w) = 30.
Proof.
  cbv zeta. split; [vm_compute; reflexivity|]. split; [vm_compute; reflexivity|].
  destruct (auto_detect_start_highest_finalized (snd (main Demo.env 0 30 10 Demo.world)))
    as [_ H].
  destruct (H ltac:(vm_compute; reflexivity)) as (m & E & Hm & _).
  assert (m = 30) as -> by (rewrite Hm; vm_compute; reflexivity).
  split; [exact E|]. vm_compute. reflexivity.
Defined.

(** C6, as the specification has it, fails on two kinds of disk.  Where
    [.proofs] is a regular file there is no proofs directory and the
    specification has 0 returned: [exists()] holds, [iterdir()] raises,
    and nothing is returned.  Where the only entry with a [proof.json]
    is [light_20_to_30.bak], no batch directory holds a finalized proof
    and the specification has 0 returned: the pattern is matched at the
    head of the name only and 30 is returned, a height at which the
    resolver of the next batch, whose pattern ends the name, finds no
    previous batch. *)
Lemma auto_detect_start_off_the_layout :
  (let w := mk_World [(PROOF_DIR, Fs.File "")] PrimFloat.zero [] in
   highest_finalized (fs w) = 0
   /\ auto_detect_start w = (Raise (Fs.ENOTDIR PROOF_DIR), w)
   /\ exn_class (Fs.ENOTDIR PROOF_DIR) = "NotADirectoryError"
   /\ exn_msg (Fs.ENOTDIR PROOF_DIR) = "[Errno 20] Not a directory: '.proofs'")
  /\ (let w := mk_World [(PROOF_DIR, Fs.Dir);
                         (".proofs/light_20_to_30.bak", Fs.Dir);
                         (".proofs/light_20_to_30.bak/proof.json", Fs.File "proof")]
                PrimFloat.zero [] in
      finalized_end_heights (fs w) = []
      /\ highest_finalized (fs w) = 0
      /\ auto_detect_start w = (Ok 30, w)
      /\ glob_ends_at 30 (fs w) = []).
Proof.
  split; [repeat split|]; vm_compute; repeat split; reflexivity.
Qed.

(** ** Decimal strings *)

Lemma fold_digits_acc d : forall p,
  fold_left (fun acc c => 10 * acc + Z.of_nat (nat_of_ascii c - 48))
    (list_ascii_of_string (NilEmpty.string_of_uint d)) (Zpos p)
  = Zpos (Pos.of_uint_acc d p).
Proof.
  induction d; intros p;
    cbn [NilEmpty.string_of_uint list_ascii_of_string fold_left Pos.of_uint_acc];
    [reflexivity|..];
    match goal with
    | |- fold_left _ _ ?a = _ =>
        match goal with
        | |- _ = Zpos (Pos.of_uint_acc _ ?q) =>
            replace a with (Zpos q);
              [|match goal with
                | |- context [Z.of_nat (nat_of_ascii ?c - 48)] =>
                    let v := eval vm_compute in (Z.of_nat (nat_of_ascii c - 48)) in
                    change (Z.of_nat (nat_of_ascii c - 48)) with v
                end; lia]
        end
    end; apply IHd.
Qed.

Lemma fold_digits d :
  fold_left (fun acc c => 10 * acc + Z.of_nat (nat_of_ascii c - 48))
    (list_ascii_of_string (NilEmpty.string_of_uint d)) 0
  = Z.of_N (Pos.of_uint d).
Proof.
  induction d;
    cbn [NilEmpty.string_of_uint list_ascii_of_string fold_left Pos.of_uint];
    [reflexivity| exact IHd |..];
    match goal with
    | |- fold_left _ _ ?a = Z.of_N (Npos (Pos.of_uint_acc _ ?q)) =>
        replace a with (Zpos q);
          [|match goal with
            | |- context [Z.of_nat (nat_of_ascii ?c - 48)] =>
                let v := eval vm_compute in (Z.of_nat (nat_of_ascii c - 48)) in
                change (Z.of_nat (nat_of_ascii c - 48)) with v
            end; lia]
    end; apply fold_digits_acc.
Qed.

(** [str] of a natural number is a non-empty string of digits. *)
Lemma str_digits n :
  0 <= n -> exists d, d <> Decimal.Nil /\ str n = NilEmpty.string_of_uint d
                      /\ Z.of_N (Pos.of_uint d) = n.
Proof.
  intros Hn. unfold str. destruct n as [|p|p]; [| |lia].
  - exists (Decimal.D0 Decimal.Nil). repeat split. discriminate.
  - cbn [Z.to_int NilZero.string_of_int]. exists (Pos.to_uint p).
    pose proof (DecimalPos.Unsigned.to_uint_nonnil p) as Hnil.
    split; [exact Hnil|]. split.
    + unfold NilZero.string_of_uint. destruct (Pos.to_uint p); [contradiction|reflexivity..].
    + now rewrite DecimalPos.Unsigned.of_to.
Qed.

(** [int(str(n)) == n] *)
Lemma int_of_digits_str n : 0 <= n -> int_of_digits (str n) = n.
Proof.
  intros Hn. destruct (str_digits n Hn) as (d & _ & -> & <-).
  unfold int_of_digits. apply fold_digits.
Qed.

Lemma take_digits_uint d rest :
  take_digits (NilEmpty.string_of_uint d ++ rest)
  = NilEmpty.string_of_uint d ++ take_digits rest.
Proof.
  induction d; cbn [NilEmpty.string_of_uint append]; [reflexivity|..];
    cbn [take_digits]; rewrite IHd; reflexivity.
Qed.

Lemma drop_digits_uint d rest :
  drop_digits (NilEmpty.string_of_uint d ++ rest) = drop_digits rest.
Proof.
  induction d; cbn [NilEmpty.string_of_uint append]; [reflexivity|..];
    cbn [drop_digits]; rewrite IHd; reflexivity.
Qed.

Lemma nonempty_uint d rest :
  d <> Decimal.Nil -> nonempty (NilEmpty.string_of_uint d ++ rest) = true.
Proof. destruct d; [contradiction|reflexivity..]. Qed.

Lemma append_empty_r s : s ++ "" = s.
Proof. induction s as [|c s IH]; [reflexivity|]. cbn. now rewrite IH. Qed.

Lemma strip_prefix_app p s : strip_prefix p (p ++ s) = Some s.
Proof.
  induction p as [|c p IH]; cbn; [now destruct s|]. now rewrite Ascii.eqb_refl.
Qed.

Lemma endswith_app a suf : endswith suf (a ++ suf) = true.
Proof.
  induction a as [|c a IH]; cbn [append].
  - destruct suf; cbn; [reflexivity|]. now rewrite Ascii.eqb_refl, String.eqb_refl.
  - cbn [endswith]. rewrite IH. apply orb_true_r.
Qed.

Lemma no_slash_app a b :
  Fs.before_last_slash a = None -> Fs.before_last_slash b = None ->
  Fs.before_last_slash (a ++ b) = None.
Proof.
  intros Ha Hb. induction a as [|c a IH]; cbn [append]; [exact Hb|].
  cbn [Fs.before_last_slash] in *.
  destruct (Fs.before_last_slash a); [discriminate|]. rewrite (IH eq_refl).
  exact Ha.
Qed.

Lemma no_slash_uint d : Fs.before_last_slash (NilEmpty.string_of_uint d) = None.
Proof.
  induction d; cbn [NilEmpty.string_of_uint Fs.before_last_slash];
    [reflexivity|..]; rewrite IHd; reflexivity.
Qed.

Lemma no_slash_str n : Fs.before_last_slash (str n) = None.
Proof.
  unfold str. destruct n as [|p|p]; [reflexivity| |];
    cbn [Z.to_int NilZero.string_of_int]; unfold NilZero.string_of_uint.
  - destruct (Pos.to_uint p) eqn:E; [reflexivity|..]; rewrite <- E; apply no_slash_uint.
  - destruct (Pos.to_uint p) eqn:E; [reflexivity|..]; rewrite <- E;
      cbn [Fs.before_last_slash]; rewrite no_slash_uint; reflexivity.
Qed.

Lemma no_slash_batch_name height size :
  Fs.before_last_slash (batch_name_of height size) = None.
Proof.
  unfold batch_name_of, mode.
  repeat first [apply no_slash_app | apply no_slash_str | reflexivity].
Qed.

(** ** Paths in normal form *)

Lemma before_last_slash_app d name :
  Fs.before_last_slash name = None ->
  Fs.before_last_slash (d ++ String Fs.slash name) = Some d.
Proof.
  intros Hn. induction d as [|c d IH]; cbn.
  - now rewrite Hn.
  - cbn in IH. now rewrite IH.
Qed.

Lemma append_inv_head d : forall x y, d ++ x = d ++ y -> x = y.
Proof.
  induction d as [|c d IH]; cbn [append]; intros x y H; [exact H|].
  injection H as H. now apply IH.
Qed.

Lemma append_assoc a : forall b c, (a ++ b) ++ c = a ++ b ++ c.
Proof. induction a as [|x a IH]; intros b c; cbn [append]; [reflexivity|]. now rewrite IH. Qed.

Lemma append_neq_self d x : x <> "" -> d ++ x <> d.
Proof.
  intros Hx. induction d as [|c d IH]; cbn [append]; [exact Hx|].
  intros H. injection H as H. now apply IH.
Qed.

(** Away from [.] and the roots, [/] puts a separator. *)
Lemma div_plain d n :
  d <> "." -> d <> "/" -> d <> "//" -> Fs.div d n = d ++ String Fs.slash n.
Proof.
  intros H1 H2 H3. unfold Fs.div.
  apply String.eqb_neq in H1, H2, H3. now rewrite H1, H2, H3.
Qed.

Lemma div_inj d a b : Fs.div d a = Fs.div d b -> a = b.
Proof.
  unfold Fs.div. destruct (String.eqb d "."); [auto|].
  destruct (_ || _); intros H; apply append_inv_head in H; [exact H|now injection H].
Qed.

Lemma div_neq d n : d <> "." -> d <> "/" -> d <> "//" -> Fs.div d n <> d.
Proof.
  intros H1 H2 H3. rewrite (div_plain d n H1 H2 H3). now apply append_neq_self.
Qed.

Lemma name_no_slash n : Fs.before_last_slash n = None -> Fs.name n = n.
Proof.
  destruct n as [|c n]; [reflexivity|]. cbn [Fs.before_last_slash Fs.name].
  destruct (Fs.before_last_slash n); [discriminate|].
  now destruct (Ascii.eqb c Fs.slash).
Qed.

Lemma name_app d n :
  Fs.before_last_slash n = None -> Fs.name (d ++ String Fs.slash n) = n.
Proof.
  intros Hn. induction d as [|c d IH]; cbn [append Fs.name].
  - rewrite Hn. reflexivity.
  - rewrite (before_last_slash_app d n Hn). exact IH.
Qed.

Lemma name_div d n : Fs.before_last_slash n = None -> Fs.name (Fs.div d n) = n.
Proof.
  intros Hn. unfold Fs.div.
  destruct (String.eqb_spec d ".") as [->|N1]; [now apply name_no_slash|].
  destruct (String.eqb_spec d "/") as [->|N2]; cbn [orb].
  { cbn [append Fs.name]. now rewrite Hn. }
  destruct (String.eqb_spec d "//") as [->|N3]; [|now apply name_app].
  cbn [append Fs.name Fs.before_last_slash]. rewrite Hn. reflexivity.
Qed.

Lemma split_nonempty s : Fs.split s <> [].
Proof.
  induction s as [|c s IH]; cbn [Fs.split]; [discriminate|].
  destruct (Ascii.eqb c Fs.slash); [discriminate|].
  destruct (Fs.split s); discriminate.
Qed.

Lemma split_no_slash n : Fs.before_last_slash n = None -> Fs.split n = [n].
Proof.
  induction n as [|c n IH]; [reflexivity|]. cbn [Fs.before_last_slash Fs.split].
  destruct (Fs.before_last_slash n); [discriminate|].
  destruct (Ascii.eqb c Fs.slash); [discriminate|]. intros _. now rewrite IH.
Qed.

Lemma split_app a b :
  Fs.split (a ++ String Fs.slash b) = (Fs.split a ++ Fs.split b)%list.
Proof.
  induction a as [|c a IH]; cbn [append Fs.split].
  - now rewrite Ascii.eqb_refl.
  - destruct (Ascii.eqb c Fs.slash); rewrite IH; [reflexivity|].
    pose proof (split_nonempty a) as Hne. destruct (Fs.split a); [contradiction|reflexivity].
Qed.

Lemma join_snoc sep l n :
  l <> [] -> join sep (l ++ [n]) = join sep l ++ sep ++ n.
Proof.
  unfold join. induction l as [|x l IH]; [contradiction|]. intros _.
  destruct l as [|y l]; [reflexivity|].
  cbn [app String.concat] in *. rewrite IH by discriminate.
  now rewrite !append_assoc.
Qed.

Lemma root_app d n :
  d <> "" -> d <> "/" -> d <> "//" -> Fs.root (d ++ String Fs.slash n) = Fs.root d.
Proof.
  intros H0 H1 H2. destruct d as [|a [|b [|c d]]]; cbn [append Fs.root];
    try contradiction.
  - destruct (Ascii.eqb_spec a Fs.slash) as [->|]; [contradiction|reflexivity].
  - destruct (Ascii.eqb_spec a Fs.slash) as [->|]; [|reflexivity].
    destruct (Ascii.eqb_spec b Fs.slash) as [->|]; [contradiction|reflexivity].
  - reflexivity.
Qed.

(** One more component keeps a normal form normal. *)
Lemma Path_app d n :
  Fs.Path d = d -> d <> "." -> d <> "/" -> d <> "//" ->
  Fs.before_last_slash n = None -> n <> "" -> n <> "." ->
  Fs.Path (d ++ String Fs.slash n) = d ++ String Fs.slash n.
Proof.
  intros Hd N1 N2 N3 Hn Hn0 Hn1.
  assert (d <> "") as N0 by (intros ->; discriminate Hd).
  unfold Fs.Path in *. rewrite (root_app d n N0 N2 N3).
  unfold Fs.parts in *. rewrite split_app, filter_app, (split_no_slash n Hn).
  cbn [filter]. assert (nonempty n = true) as -> by (destruct n; [contradiction|reflexivity]).
  apply String.eqb_neq in Hn1. rewrite Hn1. cbn [andb negb].
  destruct (filter _ (Fs.split d)) as [|x xs] eqn:Ef.
  - exfalso. destruct (Fs.root d) as [|r0 r] eqn:Er; [now apply N1|].
    cbn [join String.concat] in Hd.
    destruct d as [|a [|b [|c d]]]; cbn [Fs.root] in Er;
      repeat match type of Er with
             | (if ?x then _ else _) = _ => destruct x
             end; try discriminate; injection Er as <- <-;
      rewrite <- Hd in *; cbn in *; contradiction.
  - destruct (Fs.root d) as [|r0 r]; cbn [app];
      change (x :: (xs ++ [n]))%list with ((x :: xs) ++ [n])%list;
      rewrite (join_snoc _ (x :: xs) n ltac:(discriminate));
      rewrite <- Hd; rewrite ?append_assoc; reflexivity.
Qed.

Lemma parent_app d n :
  Fs.Path d = d -> d <> "." -> d <> "/" -> d <> "//" ->
  Fs.before_last_slash n = None -> n <> "" -> n <> "." ->
  Fs.parent (d ++ String Fs.slash n) = d.
Proof.
  intros Hd N1 N2 N3 Hn Hn0 Hn1. unfold Fs.parent.
  rewrite (Path_app d n Hd N1 N2 N3 Hn Hn0 Hn1), (before_last_slash_app d n Hn).
  destruct d; [discriminate Hd|]. apply String.eqb_neq in N2. now rewrite N2.
Qed.

(** *** Normal forms are roots and components *)

Lemma split_elems s : Forall (fun x => Fs.before_last_slash x = None) (Fs.split s).
Proof.
  induction s as [|c s IH]; cbn [Fs.split]; [now repeat constructor|].
  destruct (Ascii.eqb c Fs.slash) eqn:Ec; [now constructor|].
  destruct (Fs.split s) as [|x xs].
  - constructor; [|constructor]. cbn [Fs.before_last_slash]. now rewrite Ec.
  - inversion IH as [|? ? Hx Hxs]; subst. constructor; [|exact Hxs].
    cbn [Fs.before_last_slash]. now rewrite Hx, Ec.
Qed.

Lemma parts_components s : Forall component (Fs.parts s).
Proof.
  unfold Fs.parts. pose proof (split_elems s) as H.
  induction H as [|x l Hx _ IH]; cbn [filter]; [constructor|].
  destruct (nonempty x) eqn:En; cbn [andb]; [|exact IH].
  destruct (String.eqb_spec x ".") as [->|Nd]; cbn [negb]; [exact IH|].
  constructor; [|exact IH]. split; [exact Hx|]. split; [|exact Nd].
  intros ->. discriminate.
Qed.

Lemma filter_components ps :
  Forall component ps ->
  filter (fun x => nonempty x && negb (String.eqb x ".")) ps = ps.
Proof.
  induction 1 as [|x l (Hs & H0 & H1) _ IH]; cbn [filter]; [reflexivity|].
  destruct x; [contradiction|]. cbn [nonempty andb].
  apply String.eqb_neq in H1. rewrite H1. cbn [negb]. now rewrite IH.
Qed.

Lemma join_cons sep x y l : join sep (x :: y :: l) = x ++ sep ++ join sep (y :: l).
Proof. reflexivity. Qed.

Lemma split_join ps :
  Forall component ps -> ps <> [] -> Fs.split (join (String Fs.slash "") ps) = ps.
Proof.
  induction 1 as [|x l (Hs & _) Hl IH]; [contradiction|]. intros _.
  destruct l as [|y l]; [now apply split_no_slash|].
  rewrite join_cons. change (x ++ String Fs.slash "" ++ ?r) with (x ++ String Fs.slash r).
  rewrite split_app, (split_no_slash x Hs), IH by discriminate. reflexivity.
Qed.

(** A joined list of components starts with a character that is no
    separator. *)
Lemma join_head ps :
  Forall component ps -> ps <> [] ->
  exists c rest, join (String Fs.slash "") ps = String c rest /\ Ascii.eqb c Fs.slash = false.
Proof.
  intros H Hne. destruct H as [|x l (Hs & H0 & _) _]; [contradiction|].
  destruct x as [|c x]; [contradiction|].
  exists c. cbn [Fs.before_last_slash] in Hs.
  assert (Ascii.eqb c Fs.slash = false) as Ec.
  { destruct (Fs.before_last_slash x); [discriminate|].
    now destruct (Ascii.eqb c Fs.slash). }
  destruct l as [|y l]; [now exists x|].
  rewrite join_cons. cbn [append]. eauto.
Qed.

Lemma parts_join ps :
  Forall component ps -> Fs.parts (join (String Fs.slash "") ps) = ps.
Proof.
  intros H. unfold Fs.parts. destruct ps as [|x l]; [reflexivity|].
  rewrite (split_join _ H) by discriminate. now apply filter_components.
Qed.

(** A root followed by components is in normal form. *)
Lemma Path_join r ps :
  r = "" \/ r = "/" \/ r = "//" -> Forall component ps -> (r = "" -> ps <> []) ->
  Fs.Path (r ++ join (String Fs.slash "") ps) = r ++ join (String Fs.slash "") ps.
Proof.
  intros Hr Hps Hne.
  assert (Fs.parts (r ++ join (String Fs.slash "") ps) = ps) as Hparts.
  { destruct Hr as [-> | [-> | ->]]; [now apply parts_join| |];
      unfold Fs.parts; cbn [append Fs.split]; rewrite !Ascii.eqb_refl;
      cbn [filter nonempty andb]; now apply parts_join. }
  assert (Fs.root (r ++ join (String Fs.slash "") ps) = r) as Hroot.
  { destruct ps as [|x l].
    - destruct Hr as [-> | [-> | ->]]; [now contradiction Hne|reflexivity|reflexivity].
    - destruct (join_head (x :: l) Hps ltac:(discriminate)) as (c & rest & -> & Ec).
      destruct Hr as [-> | [-> | ->]]; cbn [append Fs.root]; rewrite ?Ascii.eqb_refl, Ec;
        reflexivity. }
  unfold Fs.Path. rewrite Hparts, Hroot.
  destruct r as [|a r']; [|reflexivity].
  destruct ps; [now contradiction Hne|reflexivity].
Qed.

Lemma root_cases s : Fs.root s = "" \/ Fs.root s = "/" \/ Fs.root s = "//".
Proof.
  destruct s as [|a [|b [|c s]]]; cbn [Fs.root];
    repeat match goal with |- context [if ?x then _ else _] => destruct x end; auto.
Qed.

(** [Path(s).parent] is a path, in normal form. *)
Lemma Path_parent s : Fs.Path (Fs.parent s) = Fs.parent s.
Proof.
  pose proof (parts_components s) as Hps. pose proof (root_cases s) as Hr.
  assert (Fs.Path s = match Fs.root s, Fs.parts s with
                      | EmptyString, [] => "."
                      | r, ps => r ++ join (String Fs.slash "") ps
                      end) as E by reflexivity.
  unfold Fs.parent. rewrite E. clear E.
  destruct (Fs.parts s) as [|x0 l0] using rev_ind.
  - destruct Hr as [-> | [-> | ->]]; reflexivity.
  - apply Forall_app in Hps. destruct Hps as [Hl Hx].
    inversion Hx as [|? ? (Hs & H0 & H1) _]; subst.
    destruct l0 as [|y l].
    + cbn [app].
      destruct Hr as [-> | [-> | ->]];
        cbn [join String.concat append Fs.before_last_slash]; rewrite Hs; reflexivity.
    + destruct (join_head (y :: l) Hl ltac:(discriminate)) as (c & rest & Ej & Ec).
      assert (forall r, r = "" \/ r = "/" \/ r = "//" ->
                Fs.Path (r ++ String c rest) = r ++ String c rest) as Hn.
      { intros r Hr'. rewrite <- Ej. apply Path_join; [exact Hr'|exact Hl|discriminate]. }
      assert (forall r, r ++ join (String Fs.slash "") (y :: l ++ [x0])
                        = (r ++ String c rest) ++ String Fs.slash x0) as Hfull.
      { intros r. change (y :: l ++ [x0])%list with ((y :: l) ++ [x0])%list.
        rewrite (join_snoc _ (y :: l) x0) by discriminate.
        now rewrite Ej, append_assoc. }
      cbn [app].
      destruct Hr as [-> | [-> | ->]]; rewrite Hfull, (before_last_slash_app _ x0 Hs).
      * cbn [append String.eqb]. change "/"%char with Fs.slash. rewrite Ec.
        apply (Hn ""). auto.
      * cbn [append String.eqb Ascii.eqb Bool.eqb]. apply (Hn "/"). auto.
      * cbn [append String.eqb Ascii.eqb Bool.eqb]. apply (Hn "//"). auto.
Qed.

Lemma parent_nonempty s : Fs.parent s <> "".
Proof. intros H. pose proof (Path_parent s) as P. rewrite H in P. discriminate. Qed.

(** ** Paths of a batch directory *)

Lemma batch_name_plain height size :
  Fs.before_last_slash (batch_name_of height size) = None
  /\ batch_name_of height size <> "" /\ batch_name_of height size <> ".".
Proof. split; [apply no_slash_batch_name|]. split; discriminate. Qed.

Lemma batch_dir_plain height size :
  let batch_dir := Fs.div PROOF_DIR (batch_name_of height size) in
  batch_dir <> "" /\ batch_dir <> "." /\ batch_dir <> "/" /\ batch_dir <> "//".
Proof. repeat split; discriminate. Qed.

Lemma batch_dir_nonempty height size : Fs.div PROOF_DIR (batch_name_of height size) <> "".
Proof. discriminate. Qed.

Lemma Path_batch_dir height size :
  Fs.Path (Fs.div PROOF_DIR (batch_name_of height size))
  = Fs.div PROOF_DIR (batch_name_of height size).
Proof.
  destruct (batch_name_plain height size) as (H1 & H2 & H3).
  apply (Path_app PROOF_DIR); try assumption; try discriminate. reflexivity.
Qed.

Lemma parent_batch_dir height size :
  Fs.parent (Fs.div PROOF_DIR (batch_name_of height size)) = PROOF_DIR.
Proof.
  destruct (batch_name_plain height size) as (H1 & H2 & H3).
  apply (parent_app PROOF_DIR); try assumption; try discriminate. reflexivity.
Qed.

(** A file of a batch directory, under one of the names the script uses. *)
Lemma div_batch_dir height size n :
  Fs.div (Fs.div PROOF_DIR (batch_name_of height size)) n
  = Fs.div PROOF_DIR (batch_name_of height size) ++ String Fs.slash n.
Proof. destruct (batch_dir_plain height size) as (_ & ? & ? & ?). now apply div_plain. Qed.

Lemma parent_batch_file height size n :
  Fs.before_last_slash n = None -> n <> "" -> n <> "." ->
  Fs.parent (Fs.div (Fs.div PROOF_DIR (batch_name_of height size)) n)
  = Fs.div PROOF_DIR (batch_name_of height size).
Proof.
  intros Hn Hn0 Hn1. destruct (batch_dir_plain height size) as (_ & ? & ? & ?).
  rewrite div_batch_dir. apply parent_app; try assumption. apply Path_batch_dir.
Qed.

Lemma parent_proof_file height size :
  Fs.parent (Fs.div (Fs.div PROOF_DIR (batch_name_of height size)) "proof.json")
  = Fs.div PROOF_DIR (batch_name_of height size).
Proof. apply parent_batch_file; [reflexivity|discriminate..]. Qed.

Lemma bind_Ok_inv {A B} (m : M A) (k : A -> M B) w b w' :
  bind m k w = (Ok b, w') -> exists a w1, m w = (Ok a, w1) /\ k a w1 = (Ok b, w').
Proof.
  unfold bind. destruct (m w) as [[a|e] w1]; [eauto|discriminate].
Qed.

(** The files that a prepared batch hands to the driver. *)
Lemma prepare_batch_files env job_info height size w files w1 :
  prepare_batch env job_info height size w = (Ok files, w1) ->
  files = (Fs.div (Fs.div PROOF_DIR (batch_name_of height size)) "proof.json",
           Fs.div (Fs.div PROOF_DIR (batch_name_of height size)) "arguments.json").
Proof.
  unfold prepare_batch. intros H.
  repeat (apply bind_Ok_inv in H; destruct H as (? & ? & _ & H)).
  now injection H.
Qed.

Lemma In_existsb p l : In p l -> existsb (String.eqb p) l = true.
Proof.
  intros H. apply existsb_exists. exists p. split; [exact H|apply String.eqb_refl].
Qed.

Lemma existsb_In p l : existsb (String.eqb p) l = true -> In p l.
Proof.
  intros H. apply existsb_exists in H. destruct H as (q & Hq & E).
  apply String.eqb_eq in E. now subst.
Qed.

(** ** What the cleanup leaves on the disk *)

Section CleanupEffect.

Variable env : Env.
Variables pie_file pub_json priv_json : string.
Variable w3 : World.

Let w' := snd (cleanup_temp_files env pie_file pub_json priv_json w3).


End CleanupEffect.


(** ** The batch job, stage by stage *)

Section Anatomy.

Variable env : Env.
Variables height size : Z.
Variable w : World.

Let job_info := job_info_of height size.


End Anatomy.

(** ** Cleanup gating *)


Lemma cleaned_when_nothing_is_refused env p w w' :
  (forall q disk, unlink_denied env q disk = None) ->
  cleaned env p w w' -> Fs.is_file p (fs w') = false.
Proof.
  intros Hfree [Hf|(e & disk & Hden & _)]; [exact Hf|].
  rewrite Hfree in Hden. discriminate.
Qed.




(** * Further properties *)

(** ** The naming convention, written and read back *)

Lemma fnmatch_batch_name height size :
  fnmatch_ends_at mode (height + size) (batch_name_of height size) = true.
Proof.
  unfold fnmatch_ends_at, batch_name_of.
  change (mode ++ "_" ++ str height ++ "_to_" ++ str (height + size))
    with ((mode ++ "_") ++ str height ++ "_to_" ++ str (height + size)).
  rewrite strip_prefix_app. apply endswith_app.
Qed.

Lemma match_batch_name height size :
  0 <= height -> 0 <= height + size ->
  match_batch_dir (batch_name_of height size) = Some (str (height + size)).
Proof.
  intros Hh He.
  destruct (str_digits height Hh) as (dh & Nh & Eh & _).
  destruct (str_digits (height + size) He) as (de & Ne & Ee & _).
  unfold match_batch_dir, batch_name_of. rewrite Eh, Ee.
  change (mode ++ "_" ++ ?x) with ("light_" ++ x).
  rewrite strip_prefix_app, take_digits_uint, drop_digits_uint.
  rewrite (nonempty_uint dh _ Nh).
  change (drop_digits ("_to_" ++ ?x)) with ("_to_" ++ x).
  rewrite strip_prefix_app.
  assert (take_digits (NilEmpty.string_of_uint de) = NilEmpty.string_of_uint de) as ->.
  { rewrite <- (append_empty_r (NilEmpty.string_of_uint de)) at 1.
    rewrite take_digits_uint. cbn [take_digits]. apply append_empty_r. }
  rewrite <- (append_empty_r (NilEmpty.string_of_uint de)) at 1.
  now rewrite (nonempty_uint de _ Ne).
Qed.

(** X1: the directory name that [prove_batch] builds for a batch is read
    back by both readers of the layout.  The pattern of the next batch's
    resolver matches it at the batch's end height, for all heights; for a
    start and an end that are not negative the pattern of
    [auto_detect_start] matches it and the captured group parses to the
    end height; for a negative start the pattern of [auto_detect_start]
    does not match, so such a batch is never resumed from. *)
Theorem batch_name_round_trip height size :
  fnmatch_ends_at mode (height + size) (batch_name_of height size) = true
  /\ Fs.name (Fs.div PROOF_DIR (batch_name_of height size)) = batch_name_of height size
  /\ (0 <= height -> 0 <= height + size ->
      match_batch_dir (batch_name_of height size) = Some (str (height + size))
      /\ int_of_digits (str (height + size)) = height + size)
  /\ (height < 0 -> match_batch_dir (batch_name_of height size) = None).
Proof.
  split; [apply fnmatch_batch_name|]. split; [apply name_div, no_slash_batch_name|].
  split.
  - intros Hh He. split; [now apply match_batch_name|now apply int_of_digits_str].
  - intros Hh. unfold match_batch_dir, batch_name_of.
    change (mode ++ "_" ++ ?x) with ("light_" ++ x). rewrite strip_prefix_app.
    destruct height as [|p|p]; [lia|lia|]. reflexivity.
Qed.

Lemma batch_name_round_trip_witness :
  match_batch_dir (batch_name_of 0 10) = Some (str 10)
  /\ int_of_digits (str 10) = 10
  /\ match_batch_dir (batch_name_of (-10) 10) = None.
Proof.
  destruct (batch_name_round_trip 0 10) as (_ & _ & H & _).
  destruct (H ltac:(lia) ltac:(lia)) as [H1 H2].
  destruct (batch_name_round_trip (-10) 10) as (_ & _ & _ & N).
  split; [exact H1|]. split; [exact H2|]. apply N. lia.
Defined.

(** ** Entries of the disk *)

Lemma lookup_In p n disk : Fs.lookup p disk = Some n -> In (p, n) disk.
Proof.
  unfold Fs.lookup. destruct (find _ disk) as [[k m]|] eqn:E; [|discriminate].
  cbn. intros H. injection H as ->. apply find_some in E. destruct E as [Hin Hk].
  cbn in Hk. apply String.eqb_eq in Hk. now subst.
Qed.

Lemma in_children d p n disk :
  In (p, n) disk -> Fs.parent p = d -> nonempty (Fs.name p) = true ->
  In p (Fs.children d disk).
Proof.
  intros Hin Hp Hn. unfold Fs.children. apply in_map_iff. exists (p, n).
  split; [reflexivity|]. apply filter_In. split; [exact Hin|]. cbn [fst].
  now rewrite Hp, String.eqb_refl, Hn.
Qed.

Lemma batch_dir_in_children height size disk :
  Fs.is_dir (Fs.div PROOF_DIR (batch_name_of height size)) disk = true ->
  In (Fs.div PROOF_DIR (batch_name_of height size)) (Fs.children PROOF_DIR disk).
Proof.
  unfold Fs.is_dir. intros H.
  destruct (Fs.lookup _ disk) as [[c|]|] eqn:E; try discriminate.
  apply (in_children _ _ _ _ (lookup_In _ _ _ E)).
  - apply parent_batch_dir.
  - rewrite name_div by apply no_slash_batch_name. reflexivity.
Qed.

(** ** Resuming and chaining from a finalized batch *)

(** X2: where the directory of the batch from [height] of [size] is on the
    disk with its [proof.json], [auto_detect_start] returns at least the
    end height of this batch, and the batch that starts at this end
    height resolves a previous proof that exists. *)
Theorem finalized_batch_is_resumed_and_chained height size w :
  0 <= height -> 0 < height + size ->
  Fs.is_dir PROOF_DIR (fs w) = true ->
  Fs.is_dir (Fs.div PROOF_DIR (batch_name_of height size)) (fs w) = true ->
  Fs.exists_ (proof_of (Fs.div PROOF_DIR (batch_name_of height size))) (fs w) = true ->
  (exists m, auto_detect_start w = (Ok m, w) /\ height + size <= m)
  /\ (exists p, find_previous_proof (height + size) w = (Ok (Some p), w)
                /\ Fs.exists_ p (fs w) = true).
Proof.
  intros Hh He Hroot Hdir Hproof.
  pose proof (batch_dir_in_children _ _ _ Hdir) as Hin.
  split.
  - unfold auto_detect_start, bind, path_exists, Fs.iterdir, ret, Fs.exists_.
    unfold Fs.is_dir in Hroot.
    destruct (Fs.lookup PROOF_DIR (fs w)) as [[c|]|] eqn:El; try discriminate.
    cbn [negb]. cbv beta iota. rewrite El.
    eexists. split; [reflexivity|].
    pose proof (scan_entries_max (fs w) (Fs.children PROOF_DIR (fs w)) 0) as H.
    cbv zeta in H. destruct H as (_ & Hub & _). apply Hub.
    apply in_flat_map. exists (Fs.div PROOF_DIR (batch_name_of height size)).
    split; [exact Hin|].
    unfold counted_end. fold (proof_of (Fs.div PROOF_DIR (batch_name_of height size))).
    rewrite Hdir, Hproof. cbn [andb].
    rewrite name_div by apply no_slash_batch_name.
    rewrite match_batch_name by lia. cbn [option_map].
    rewrite int_of_digits_str by lia. now left.
  - assert (In (Fs.div PROOF_DIR (batch_name_of height size))
               (glob_ends_at (height + size) (fs w))) as Hglob.
    { unfold glob_ends_at. rewrite Hroot. apply filter_In. split; [exact Hin|].
      rewrite name_div by apply no_slash_batch_name. apply fnmatch_batch_name. }
    destruct (find (fun d => Fs.exists_ (proof_of d) (fs w))
                (glob_ends_at (height + size) (fs w))) as [d|] eqn:Ef.
    + exists (proof_of d). split; [now apply find_previous_proof_first|].
      apply find_some in Ef. now destruct Ef.
    + pose proof (find_none _ _ Ef _ Hglob) as X. cbv beta in X. congruence.
Qed.

Lemma finalized_batch_is_resumed_and_chained_witness :
  let w := snd (prove_batch Demo.env 0 10 Demo.world) in
  auto_detect_start w = (Ok 10, w)
  /\ find_previous_proof 10 w = (Ok (Some ".proofs/light_0_to_10/proof.json"), w).
Proof.
  cbv zeta.
  destruct (finalized_batch_is_resumed_and_chained 0 10
              (snd (prove_batch Demo.env 0 10 Demo.world))
              ltac:(lia) ltac:(lia)
              ltac:(vm_compute; reflexivity) ltac:(vm_compute; reflexivity)
              ltac:(vm_compute; reflexivity))
    as ((m & Em & _) & (p & Ep & _)).
  change (0 + 10) with 10 in Ep.
  split.
  - rewrite Em. f_equal. f_equal. apply (f_equal fst) in Em. vm_compute in Em.
    now injection Em.
  - rewrite Ep. f_equal. f_equal. f_equal. apply (f_equal fst) in Ep.
    vm_compute in Ep. now injection Ep.
Defined.

(** ** Footprints *)

Section Only.

Variable P : event -> Prop.

Lemma only_ret {A} (a : A) : only P (ret a).
Proof. intros w r w' H. injection H as <- <-. exists []. now rewrite app_nil_r. Qed.

Lemma only_raise {A} e : only P (@raise A e).
Proof. intros w r w' H. injection H as <- <-. exists []. now rewrite app_nil_r. Qed.

Lemma only_pure {A} (f : World -> result A) : only P (fun w => (f w, w)).
Proof. intros w r w' H. injection H as <- <-. exists []. now rewrite app_nil_r. Qed.

Lemma only_bind {A B} (m : M A) (k : A -> M B) :
  only P m -> (forall a, only P (k a)) -> only P (bind m k).
Proof.
  intros Hm Hk w r w' H. unfold bind in H.
  destruct (m w) as [[a|e] w1] eqn:E; destruct (Hm _ _ _ E) as (d1 & T1 & F1).
  - destruct (Hk a _ _ _ H) as (d2 & T2 & F2).
    exists (d1 ++ d2)%list. rewrite T2, T1, app_assoc. split; [reflexivity|].
    apply Forall_app. now split.
  - injection H as <- <-. now exists d1.
Qed.

Lemma only_try_except {A} (body : M A) catches handler :
  only P body -> (forall e, only P (handler e)) -> only P (try_except body catches handler).
Proof.
  intros Hb Hh w r w' H. unfold try_except in H.
  destruct (body w) as [[a|e] w1] eqn:E; destruct (Hb _ _ _ E) as (d1 & T1 & F1).
  - injection H as <- <-. now exists d1.
  - destruct (catches e).
    + destruct (Hh e _ _ _ H) as (d2 & T2 & F2).
      exists (d1 ++ d2)%list. rewrite T2, T1, app_assoc. split; [reflexivity|].
      apply Forall_app. now split.
    + injection H as <- <-. now exists d1.
Qed.

Lemma only_emit e : P e -> only P (emit e).
Proof.
  intros He w r w' H. injection H as <- <-. exists [e]. split; [reflexivity|].
  now constructor.
Qed.

Lemma only_with_fs op e : P e -> only P (with_fs op e).
Proof.
  intros He w r w' H. unfold with_fs in H. destruct (op (fs w)); injection H as <- <-.
  - exists [e]. split; [reflexivity|]. now constructor.
  - exists []. now rewrite app_nil_r.
Qed.

Lemma only_for_each {A} (l : list A) (body : A -> M unit) :
  (forall x, only P (body x)) -> only P (for_each l body).
Proof.
  intros Hb. induction l as [|x l IH]; cbn [for_each]; [apply only_ret|].
  apply only_bind; [apply Hb|intros _; exact IH].
Qed.

End Only.

Lemma only_mono (P Q : event -> Prop) {A} (m : M A) :
  (forall e, P e -> Q e) -> only P m -> only Q m.
Proof.
  intros HPQ Hm w r w' H. destruct (Hm _ _ _ H) as (d & T & F).
  exists d. split; [exact T|]. eapply Forall_impl; eauto.
Qed.

(** [run] does nothing but launch its command, wrapped by
    [/usr/bin/time -v], with the timeout it is given. *)
Lemma only_run env cmd timeout :
  only (fun e => e = Launch (timed cmd) timeout) (run env cmd timeout).
Proof.
  intros w r w' H. destruct (run_inv env _ _ _ _ _ H) as [(_ & _ & ->)|(_ & _ & T)].
  - exists []. now rewrite app_nil_r.
  - exists [Launch (timed cmd) timeout]. split; [exact T|]. now constructor.
Qed.

Lemma only_cleanup env pie_file pub_json priv_json :
  only (fun e => match e with Log _ _ | Unlink _ => True | _ => False end)
       (cleanup_temp_files env pie_file pub_json priv_json).
Proof.
  unfold cleanup_temp_files. apply only_bind.
  - unfold collect_temp_files. apply only_bind; [apply only_pure|].
    intros [|]; [|apply only_ret].
    intros w r w' H.
    destruct (read_recorded env priv_json [pie_file; pub_json] (fs w)) as [[u|e] tf].
    + injection H as <- <-. exists []. now rewrite app_nil_r.
    + revert w r w' H.
      apply only_bind; [apply only_emit; exact I|intros _; apply only_ret].
  - intros tf. apply only_for_each. intros p. unfold remove_temp_file.
    apply only_try_except.
    + apply only_bind; [apply only_pure|]. intros [|]; [|apply only_ret].
      apply only_bind; [apply only_with_fs; exact I|intros _; apply only_emit; exact I].
    + intros e. apply only_emit. exact I.
Qed.

Lemma only_run_step env job_info executable proof arguments step_name cmd :
  In step_name step_names ->
  In (timed cmd) (pipeline (Fs.parent proof) executable proof arguments) ->
  only (driver_event executable proof arguments)
       (run_step env job_info (Fs.parent proof) step_name cmd).
Proof.
  intros Hname Hcmd. unfold run_step.
  apply only_bind; [apply only_emit; exact I|intros _].
  apply only_bind.
  - apply (only_mono (fun e => e = Launch (timed cmd) None)); [|apply only_run].
    intros e ->. cbn. auto.
  - intros [[[[out err] rc] el] mm].
    apply only_bind; [|intros _; apply only_ret].
    unfold save_prover_log. apply only_bind; [apply only_pure|intros t].
    apply only_with_fs. unfold driver_event. now apply in_map.
Qed.

Lemma only_run_prover env job_info executable proof arguments :
  only (driver_event executable proof arguments)
       (run_prover env job_info executable proof arguments).
Proof.
  unfold run_prover.
  apply only_bind; [apply only_run_step; cbn; auto|intros i1].
  destruct (negb (returncode i1 =? 0)); [apply only_ret|].
  apply only_bind; [apply only_run_step; cbn; auto|intros i2].
  destruct (negb (returncode i2 =? 0)).
  { apply only_bind; [apply only_emit; exact I|intros _; apply only_ret]. }
  apply only_bind; [apply only_run_step; cbn; auto|intros i3].
  apply only_bind; [|intros _; apply only_ret].
  destruct (returncode i3 =? 0); [|apply only_ret].
  eapply only_mono; [|apply only_cleanup]. now intros [].
Qed.

Lemma only_bind_from {A B} (P : event -> Prop) (m : M A) (k : A -> M B) :
  only P m -> (forall a w w1, m w = (Ok a, w1) -> only P (k a)) -> only P (bind m k).
Proof.
  intros Hm Hk w r w' H. unfold bind in H.
  destruct (m w) as [[a|e] w1] eqn:E; destruct (Hm _ _ _ E) as (d1 & T1 & F1).
  - destruct (Hk a _ _ E _ _ _ H) as (d2 & T2 & F2).
    exists (d1 ++ d2)%list. rewrite T2, T1, app_assoc. split; [reflexivity|].
    apply Forall_app. now split.
  - injection H as <- <-. now exists d1.
Qed.

Lemma only_prepare_batch env job_info height size :
  only (batch_event height size) (prepare_batch env job_info height size).
Proof.
  unfold prepare_batch.
  apply only_bind; [apply only_with_fs; reflexivity|intros _].
  apply only_bind; [|intros previous].
  { intros w r w' H. unfold find_previous_proof in H.
    destruct (0 <? height); injection H as <- <-; exists []; now rewrite app_nil_r. }
  apply only_bind; [apply only_emit; exact I|intros _].
  apply only_bind; [apply only_pure|intros batch_data].
  apply only_bind; [apply only_pure|intros chain_state].
  apply only_bind; [apply only_pure|intros blocks].
  apply only_bind; [apply only_with_fs; cbn; auto|intros _].
  apply only_bind; [apply only_emit; exact I|intros _].
  apply only_bind; [apply only_pure|intros args].
  apply only_bind; [apply only_with_fs; cbn; auto|intros _].
  apply only_ret.
Qed.

Lemma only_conclude_batch env job_info steps_info :
  only (fun e => match e with Log _ _ => True | _ => False end)
       (conclude_batch env job_info steps_info).
Proof.
  unfold conclude_batch.
  apply only_bind; [apply only_pure|intros last_step].
  destruct (negb (returncode last_step =? 0)).
  - apply only_bind; [apply only_emit; exact I|intros _; apply only_ret].
  - apply only_bind;
      [apply only_for_each; intros info; apply only_emit; exact I|intros _].
    apply only_bind; [apply only_emit; exact I|intros _; apply only_ret].
Qed.

Lemma driver_event_batch_event height size e :
  driver_event EXECUTABLE
    (Fs.div (Fs.div PROOF_DIR (batch_name_of height size)) "proof.json")
    (Fs.div (Fs.div PROOF_DIR (batch_name_of height size)) "arguments.json") e ->
  batch_event height size e.
Proof.
  unfold driver_event, batch_event.
  rewrite (parent_proof_file height size).
  destruct e as [cmd timeout|p content|p|p|lvl msg]; auto; try contradiction.
  intros [E|[E|[E|[]]]]; rewrite <- E; cbn [In]; auto 6.
Qed.

Lemma only_prove_batch env height size :
  only (batch_event height size) (prove_batch env height size).
Proof.
  unfold prove_batch.
  apply only_bind; [apply only_emit; exact I|intros _].
  apply only_try_except.
  - unfold prove_batch_body.
    apply only_bind_from; [apply only_prepare_batch|].
    intros files w0 w1 Eprep.
    rewrite (prepare_batch_files _ _ _ _ _ _ _ Eprep). cbn [fst snd].
    apply only_bind.
    + eapply only_mono; [apply driver_event_batch_event|apply only_run_prover].
    + intros steps_info. eapply only_mono; [|apply only_conclude_batch].
      now intros [].
  - intros e. apply only_bind; [apply only_emit; exact I|intros _; apply only_ret].
Qed.

(** X3: everything that one call of [prove_batch] does is of these kinds:
    it logs; it makes its own batch directory; it writes [batch.json],
    [arguments.json] and the logs of the three steps, all in that
    directory; it launches the three commands of the pipeline, never with
    a timeout; it deletes files in the cleanup. *)
Theorem prove_batch_footprint (env : Env) height size w :
  Forall (batch_event height size) (new_events w (snd (prove_batch env height size w))).
Proof.
  destruct (prove_batch env height size w) as [r w'] eqn:E.
  destruct (only_prove_batch env height size _ _ _ E) as (delta & T & F). cbn [snd].
  now rewrite (new_events_app _ _ _ T).
Qed.

(** ** Writing and reading back *)



(** X5: for every proof path whose directory is not [.] or a root: where
    this directory is not there when the executor ends, the log of the
    pie step cannot be saved and [run_prover] raises, even when the
    executor exited with code 0: no list is returned, and the executor is
    the only command launched. *)
Theorem run_prover_raises_without_batch_dir (env : Env)
    job_info executable proof arguments w cp disk' clock' :
  platform_system env = "Linux" ->
  Fs.parent proof <> "." -> Fs.parent proof <> "/" -> Fs.parent proof <> "//" ->
  subprocess_run env (timed (pie_cmd (Fs.parent proof) executable arguments)) None
    (fs w) (now w) = (Ok cp, disk', clock') ->
  Fs.is_dir (Fs.parent proof) disk' = false ->
  (exists e, fst (run_prover env job_info executable proof arguments w) = Raise e)
  /\ launches (new_events w (snd (run_prover env job_info executable proof arguments w)))
     = [timed (pie_cmd (Fs.parent proof) executable arguments)].
Proof.
  intros HL Hd1 Hd2 Hd3 Hrun Hdir.
  set (batch_dir := Fs.parent proof) in *.
  assert (Fs.parent (Fs.div batch_dir "pie.log") = batch_dir) as Hparent.
  { rewrite (div_plain _ _ Hd1 Hd2 Hd3).
    apply parent_app; try assumption; try discriminate; [apply Path_parent|reflexivity]. }
  destruct (run_step env job_info batch_dir "PIE" (pie_cmd batch_dir executable arguments) w)
    as [r w1] eqn:E1.
  destruct (run_step_completed env _ _ _ _ _ _ _ _ _ _ HL Hrun E1) as (L1 & _).
  assert (exists e, r = Raise e) as [e ->].
  { revert E1. destruct cp as [out err rc].
    unfold run_step, logger, emit. unfold bind at 1.
    set (w0 := mk_World (fs w) (now w) _). unfold bind at 1.
    rewrite (run_completed env HL _ None w0 out err rc disk' clock' Hrun).
    unfold save_prover_log, bind, time_time, write_text, with_fs. cbn [fs now trace].
    unfold Fs.write, Fs.check_parent.
    change (Fs.parent (log_file_of batch_dir "PIE"))
      with (Fs.parent (Fs.div batch_dir "pie.log")).
    rewrite Hparent.
    apply String.eqb_neq in Hd1, Hd2, Hd3. rewrite Hd1, Hd2, Hd3. cbn [orb].
    unfold Fs.is_dir in Hdir.
    destruct (Fs.lookup (log_file_of batch_dir "PIE") disk') as [[c|]|];
      destruct (Fs.lookup batch_dir disk') as [[c'|]|]; try discriminate;
      intros [= <- _]; eauto. }
  rewrite (driver_pie_raises env job_info executable proof arguments w e w1 E1).
  cbn [fst snd]. split; [eauto|exact L1].
Qed.

Lemma run_prover_raises_without_batch_dir_witness :
  fst (run_prover Demo.env "job" "program.json" "missing/proof.json"
         "missing/arguments.json" Demo.world)
  = Raise (Fs.ENOENT "missing/pie.log")
  /\ exn_msg (Fs.ENOENT "missing/pie.log")
     = "[Errno 2] No such file or directory: 'missing/pie.log'".
Proof.
  destruct (run_prover_raises_without_batch_dir Demo.env "job" "program.json"
              "missing/proof.json" "missing/arguments.json" Demo.world _ _ _ eq_refl
              ltac:(discriminate) ltac:(discriminate) ltac:(discriminate)
              eq_refl eq_refl) as [[e He] _].
  split; [|reflexivity]. rewrite He. f_equal. vm_compute in He. now injection He.
Defined.

(** ** The preparation of a batch *)

(** X6: when the preparation of a batch returns, the batch directory is
    there; the previous proof was resolved on the disk as it was right
    after the directory was made, and is none for a height that is not
    positive; [batch.json] holds the dump, indented by 2, of the chain
    state and the blocks that the data generator returned; the argument
    generator was given [batch.json], as written, and that previous
    proof, and [arguments.json] holds the dump of what it returned. *)
Theorem prepare_batch_writes_inputs (env : Env) job_info height size w files w1 :
  prepare_batch env job_info height size w = (Ok files, w1) ->
  let batch_dir := Fs.div PROOF_DIR (batch_name_of height size) in
  let batch_file := Fs.div batch_dir "batch.json" in
  let arguments_file := Fs.div batch_dir "arguments.json" in
  let made := snd (mkdir_exist_ok batch_dir w) in
  exists previous data chain_state blocks args,
    files = (Fs.div batch_dir "proof.json", arguments_file)
    /\ Fs.is_dir batch_dir (fs w1) = true
    /\ fst (find_previous_proof height made) = Ok previous
    /\ (height <= 0 -> previous = None)
    /\ generate_data env mode height size true = Ok data
    /\ py_getitem "chain_state" data = Ok chain_state
    /\ py_getitem "blocks" data = Ok blocks
    /\ let text := json_dumps env (Some 2)
                     (PDict [("chain_state", chain_state); ("blocks", blocks)]) in
       generate_assumevalid_args env batch_file previous
         (Fs.set batch_file (Fs.File text) (fs made)) = Ok args
       /\ Fs.read batch_file (fs w1) = Ok text
       /\ Fs.read arguments_file (fs w1) = Ok (json_dumps env None args).
Proof.
  intros H batch_dir batch_file arguments_file made.
  pose proof (prepare_batch_files _ _ _ _ _ _ _ H) as Hfiles.
  unfold prepare_batch in H. fold batch_dir batch_file arguments_file in H.
  apply bind_Ok_inv in H. destruct H as ([] & wm & Emk & H).
  apply bind_Ok_inv in H. destruct H as (previous & w2 & Eprev & H).
  apply bind_Ok_inv in H. destruct H as ([] & w3 & Elog1 & H).
  apply bind_Ok_inv in H. destruct H as (data & w4 & Edata & H).
  apply bind_Ok_inv in H. destruct H as (chain_state & w5 & Ecs & H).
  apply bind_Ok_inv in H. destruct H as (blocks & w6 & Ebl & H).
  apply bind_Ok_inv in H. destruct H as ([] & w7 & Ewb & H).
  apply bind_Ok_inv in H. destruct H as ([] & w8 & Elog2 & H).
  apply bind_Ok_inv in H. destruct H as (args & w9 & Eargs & H).
  apply bind_Ok_inv in H. destruct H as ([] & w10 & Ewa & H).
  injection H as _ <-.
  assert (made = wm) as Hmade by (subst made; now rewrite Emk).
  assert (w2 = wm) as ->.
  { unfold find_previous_proof in Eprev. destruct (0 <? height); now injection Eprev. }
  injection Elog1 as <-. injection Edata as Edata <-. injection Ecs as Ecs <-.
  injection Ebl as Ebl <-. cbn [fs now trace] in *.
  unfold write_text, with_fs in Ewb. cbn [fs now trace] in Ewb.
  destruct (Fs.write batch_file _ (fs wm)) as [d2|] eqn:Ew2; [|discriminate].
  injection Ewb as <-. apply write_ok in Ew2.
  injection Elog2 as <-. cbn [fs now trace] in *.
  injection Eargs as Eargs <-.
  unfold write_text, with_fs in Ewa. cbn [fs now trace] in Ewa.
  destruct (Fs.write arguments_file _ d2) as [d3|] eqn:Ew3; [|discriminate].
  injection Ewa as <-. apply write_ok in Ew3. cbn [fs].
  unfold mkdir_exist_ok, with_fs in Emk.
  destruct (Fs.mkdir_exist_ok batch_dir (fs w)) as [dm|] eqn:Em; [|discriminate].
  injection Emk as <-. apply mkdir_ok_is_dir in Em. cbn [fs] in *.
  exists previous, data, chain_state, blocks, args.
  split; [exact Hfiles|]. split.
  { subst d3 d2. unfold Fs.is_dir in *.
    rewrite !lookup_set_ne by (apply not_eq_sym, div_neq; discriminate). exact Em. }
  split; [rewrite Hmade, Eprev; reflexivity|]. split.
  { intros Hh. unfold find_previous_proof in Eprev.
    destruct (Z.ltb_spec 0 height); [lia|]. now injection Eprev. }
  split; [exact Edata|]. split; [exact Ecs|]. split; [exact Ebl|].
  cbv zeta. rewrite Hmade. cbn [fs]. rewrite <- Ew2. split; [exact Eargs|]. split.
  - subst d3. unfold Fs.read.
    rewrite lookup_set_ne by (intros X; apply div_inj in X; discriminate).
    subst d2. now rewrite lookup_set_eq.
  - subst d3. apply read_set.
Qed.

Lemma prepare_batch_writes_inputs_witness :
  let w1 := snd (prepare_batch Demo.env "job" 0 10 Demo.world) in
  Fs.read ".proofs/light_0_to_10/arguments.json" (fs w1) = Ok "{}"
  /\ Fs.is_dir ".proofs/light_0_to_10" (fs w1) = true.
Proof.
  cbv zeta.
  destruct (prepare_batch_writes_inputs Demo.env "job" 0 10 Demo.world _ _
              ltac:(vm_compute; reflexivity))
    as (previous & data & cs & bl & args & _ & Hdir & _ & _ & _ & _ & _ & _ & _ & Hargs).
  split; [exact Hargs | exact Hdir].
Defined.

(** A batch whose data cannot be built stops before its first write. *)
Lemma prepare_batch_without_data env job_info height size w :
  (forall data,
     generate_data env mode height size true = Ok data ->
     (exists e, py_getitem "chain_state" data = Raise e)
     \/ (exists e, py_getitem "blocks" data = Raise e)) ->
  exists e w1 delta,
    prepare_batch env job_info height size w = (Raise e, w1)
    /\ trace w1 = (trace w ++ delta)%list
    /\ written delta = [] /\ launches delta = [].
Proof.
  intros Hdata. unfold prepare_batch. unfold bind at 1, mkdir_exist_ok, with_fs.
  destruct (Fs.mkdir_exist_ok _ (fs w)) as [dm|e'].
  2:{ exists e', w, []. rewrite app_nil_r. now repeat split. }
  unfold bind at 1.
  destruct (find_previous_proof height _) as [rp w2] eqn:Ep.
  unfold find_previous_proof in Ep.
  assert (exists previous, rp = Ok previous /\ w2 = mk_World dm (now w)
            (trace w ++ [Mkdir (Fs.div PROOF_DIR (batch_name_of height size))]))
    as (previous & -> & ->).
  { destruct (0 <? height); injection Ep as <- <-; eauto. }
  unfold bind at 1, logger at 1, emit. cbn [fs now trace].
  unfold bind at 1, lift at 1.
  destruct (generate_data env mode height size true) as [data|e] eqn:Ed.
  2:{ eexists e, _, [_; _]. split; [reflexivity|]. cbn [trace].
      rewrite <- app_assoc. now repeat split. }
  unfold bind at 1, lift at 1.
  destruct (Hdata data eq_refl) as [[e He]|[e He]].
  - rewrite He. eexists e, _, [_; _]. split; [reflexivity|]. cbn [trace].
    rewrite <- app_assoc. now repeat split.
  - destruct (py_getitem "chain_state" data) as [cs|e0].
    + unfold bind at 1, lift at 1. rewrite He.
      eexists e, _, [_; _]. split; [reflexivity|]. cbn [trace].
      rewrite <- app_assoc. now repeat split.
    + eexists e0, _, [_; _]. split; [reflexivity|]. cbn [trace].
      rewrite <- app_assoc. now repeat split.
Qed.

(** X7: when the data generator raises, or returns a value without a
    [chain_state] or without a [blocks] entry, the batch returns false,
    has written no file and has launched no process. *)
Theorem batch_fails_without_batch_data (env : Env) height size w :
  (forall data,
     generate_data env mode height size true = Ok data ->
     (exists e, py_getitem "chain_state" data = Raise e)
     \/ (exists e, py_getitem "blocks" data = Raise e)) ->
  fst (prove_batch env height size w) = Ok false
  /\ written (new_events w (snd (prove_batch env height size w))) = []
  /\ launches (new_events w (snd (prove_batch env height size w))) = [].
Proof.
  intros Hdata.
  destruct (prepare_batch_without_data env (job_info_of height size) height size
              (started height size w) Hdata) as (e & w1 & d & E & T & W & L).
  rewrite prove_batch_unfold. unfold prove_batch_body, bind. rewrite E.
  cbn [fst snd]. split; [reflexivity|].
  rewrite (new_events_app w _
             ([Log DEBUG (job_info_of height size ++ " proving...")] ++ d
              ++ [Log ERROR (batch_error_message env (job_info_of height size) e)])).
  - rewrite !written_app, !launches_app, W, L. now split.
  - cbn [trace]. rewrite T. unfold started. cbn [trace]. now rewrite <- !app_assoc.
Qed.

Lemma batch_fails_without_batch_data_witness :
  fst (prove_batch (Demo.flaky 0) 0 10 Demo.world) = Ok false
  /\ written (new_events Demo.world (snd (prove_batch (Demo.flaky 0) 0 10 Demo.world))) = [].
Proof.
  destruct (batch_fails_without_batch_data (Demo.flaky 0) 0 10 Demo.world
              ltac:(intros data H; discriminate H)) as (R & W & _).
  split; [exact R | exact W].
Defined.

(** X8: on a disk without [.proofs] (and without the batch directory),
    [prove_batch] cannot make its directory, which it creates without
    its parents: it returns false, leaves the disk as it was, and has
    logged its start and the [FileNotFoundError] of the operating system,
    whose text is [[Errno 2] No such file or directory:] and the [repr]
    of the path of the batch directory. *)
Theorem batch_fails_without_proof_dir (env : Env) height size w :
  Fs.lookup PROOF_DIR (fs w) = None ->
  Fs.lookup (Fs.div PROOF_DIR (batch_name_of height size)) (fs w) = None ->
  prove_batch env height size w
  = (Ok false,
     mk_World (fs w) (now w)
       (trace w
        ++ [Log DEBUG (job_info_of height size ++ " proving...");
            Log ERROR
              (batch_error_message env (job_info_of height size)
                 (mk_exn "FileNotFoundError"
                    ("[Errno 2] No such file or directory: "
                     ++ py_repr (Fs.div PROOF_DIR (batch_name_of height size)))))])).
Proof.
  intros Hroot Hdir. rewrite prove_batch_unfold. unfold prove_batch_body, bind.
  assert (prepare_batch env (job_info_of height size) height size (started height size w)
          = (Raise (Fs.ENOENT (Fs.div PROOF_DIR (batch_name_of height size))),
             started height size w)) as ->.
  { unfold prepare_batch. unfold bind at 1.
    unfold mkdir_exist_ok, with_fs, Fs.mkdir_exist_ok, Fs.check_parent, started.
    cbn [fs]. rewrite Hdir.
    rewrite (parent_batch_dir height size).
    cbn [String.eqb Ascii.eqb Bool.eqb orb]. now rewrite Hroot. }
  unfold started. cbn [fs now trace]. now rewrite <- app_assoc.
Qed.

Lemma batch_fails_without_proof_dir_witness :
  fst (prove_batch Demo.env 0 10 (mk_World [] PrimFloat.zero [])) = Ok false
  /\ fs (snd (prove_batch Demo.env 0 10 (mk_World [] PrimFloat.zero []))) = []
  /\ logged ERROR (trace (snd (prove_batch Demo.env 0 10 (mk_World [] PrimFloat.zero []))))
     = ["Job(height='0', blocks=10) error while processing Job(height='0', blocks=10):"
        ++ LF ++ "[Errno 2] No such file or directory: '.proofs/light_0_to_10'" ++ LF
        ++ "stacktrace:" ++ LF
        ++ "Traceback (most recent call last): FileNotFoundError"].
Proof.
  rewrite (batch_fails_without_proof_dir Demo.env 0 10 (mk_World [] PrimFloat.zero [])
             eq_refl eq_refl).
  split; [reflexivity|]. split; reflexivity.
Defined.

(** ** A cleanup that meets trouble *)

(** X9: once PROVE has returned exit code 0 the driver returns the three
    steps, whatever the cleanup meets: a private input that cannot be
    read or parsed and a deletion that fails are caught inside the
    cleanup.  The cleanup launches nothing, writes nothing and leaves the
    clock alone. *)
Theorem cleanup_never_fails_the_pipeline (env : Env)
    job_info executable proof arguments w i1 w1 i2 w2 i3 w3 :
  run_step env job_info (Fs.parent proof) "PIE"
    (pie_cmd (Fs.parent proof) executable arguments) w = (Ok i1, w1) ->
  returncode i1 = 0 ->
  run_step env job_info (Fs.parent proof) "BOOTLOAD" (bootload_cmd (Fs.parent proof)) w1
  = (Ok i2, w2) ->
  returncode i2 = 0 ->
  run_step env job_info (Fs.parent proof) "PROVE" (prove_cmd (Fs.parent proof) proof) w2
  = (Ok i3, w3) ->
  returncode i3 = 0 ->
  exists w',
    run_prover env job_info executable proof arguments w = (Ok [i1; i2; i3], w')
    /\ launches (new_events w3 w') = []
    /\ written (new_events w3 w') = []
    /\ now w' = now w3.
Proof.
  intros E1 R1 E2 R2 E3 R3.
  rewrite (driver_prove_succeeds env _ _ _ _ _ _ _ _ _ _ _ E1 R1 E2 R2 E3 R3).
  destruct (collect_temp_files_spec env (Fs.div (Fs.parent proof) "pie.cairo_pie.zip")
              (Fs.div (Fs.parent proof) "pub.json")
              (Fs.div (Fs.parent proof) "priv.json") w3)
    as (tf & d1 & Ec & L1 & W1 & _).
  unfold cleanup_temp_files, bind. rewrite Ec.
  set (wc := mk_World (fs w3) (now w3) (trace w3 ++ d1)).
  assert (forall l w0, exists w' d,
            for_each l (remove_temp_file env) w0 = (Ok tt, w')
            /\ trace w' = (trace w0 ++ d)%list /\ launches d = [] /\ written d = []
            /\ now w' = now w0) as Hloop.
  { induction l as [|p l IH]; intros w0; cbn [for_each].
    - exists w0, []. rewrite app_nil_r. now repeat split.
    - destruct (remove_temp_file_spec env p w0) as (dp & disk1 & Ep & Lp & Wp & _).
      unfold bind at 1. rewrite Ep.
      destruct (IH (mk_World disk1 (now w0) (trace w0 ++ dp)))
        as (w' & d & E & T & L & W & N).
      exists w', (dp ++ d)%list. rewrite E, T. cbn [trace now] in *.
      rewrite app_assoc, launches_app, written_app, Lp, L, Wp, W. now repeat split. }
  destruct (Hloop tf wc) as (w' & d2 & E & T & L2 & W2 & N).
  rewrite E. cbn [snd]. exists w'. split; [reflexivity|].
  rewrite (new_events_app w3 w' (d1 ++ d2)).
  - rewrite launches_app, written_app, L1, L2, W1, W2. now repeat split.
  - rewrite T. subst wc. cbn [trace]. now rewrite app_assoc.
Qed.

Lemma cleanup_never_fails_the_pipeline_witness :
  exists l w',
    run_prover Demo.messy "job" "program.json" ".proofs/proof.json"
      ".proofs/arguments.json" Demo.world = (Ok l, w')
    /\ map step l = step_names
    /\ Fs.is_dir ".proofs/pie.cairo_pie.zip" (fs w') = true.
Proof.
  epose proof (cleanup_never_fails_the_pipeline Demo.messy "job" "program.json"
                 ".proofs/proof.json" ".proofs/arguments.json" Demo.world
                 _ _ _ _ _ _) as H.
  specialize (H ltac:(vm_compute; reflexivity) eq_refl).
  specialize (H ltac:(vm_compute; reflexivity) eq_refl).
  specialize (H ltac:(vm_compute; reflexivity) eq_refl).
  destruct H as (w' & E & _).
  eexists _, w'. split; [exact E|]. split; [reflexivity|].
  apply (f_equal snd) in E. cbn [snd] in E. rewrite <- E. vm_compute. reflexivity.
Defined.

(** X10: when [priv.json] is there and cannot be parsed, the cleanup goes
    through the pie file, the public input and [priv.json] only, after a
    warning with the parser's message.  Each of the three is no regular
    file afterwards, except one whose deletion the operating system
    refused, which a warning then says; where nothing is refused none of
    them remains.  Nothing else is deleted, and every other entry of the
    disk, the trace and memory files among them, stays as it was. *)
Theorem cleanup_with_unparseable_private_input (env : Env)
    pie_file pub_json priv_json w text e :
  Fs.read priv_json (fs w) = Ok text ->
  json_load env text = Raise e ->
  let w' := snd (cleanup_temp_files env pie_file pub_json priv_json w) in
  fst (collect_temp_files env pie_file pub_json priv_json w)
  = Ok [pie_file; pub_json; priv_json]
  /\ (exists rest,
        logged WARNING (new_events w w')
        = ("Failed to parse " ++ priv_json ++ " for cleanup: " ++ exn_msg e) :: rest)
  /\ cleaned env pie_file w w'
  /\ cleaned env pub_json w w'
  /\ cleaned env priv_json w w'
  /\ ((forall q disk, unlink_denied env q disk = None) ->
      Fs.is_file pie_file (fs w') = false
      /\ Fs.is_file pub_json (fs w') = false
      /\ Fs.is_file priv_json (fs w') = false)
  /\ (forall q, In q (unlinked (new_events w w')) ->
        (q = pie_file \/ q = pub_json \/ q = priv_json)
        /\ Fs.is_file q (fs w) = true /\ Fs.lookup q (fs w') = None)
  /\ (forall q, q <> pie_file -> q <> pub_json -> q <> priv_json ->
                Fs.lookup q (fs w') = Fs.lookup q (fs w)).
Proof.
  intros Hread Hjson w'.
  assert (collect_temp_files env pie_file pub_json priv_json w
          = (Ok [pie_file; pub_json; priv_json],
             mk_World (fs w) (now w)
               (trace w ++ [Log WARNING ("Failed to parse " ++ priv_json
                                         ++ " for cleanup: " ++ exn_msg e)]))) as Ec.
  { unfold collect_temp_files, bind, path_exists, Fs.exists_.
    unfold Fs.read in Hread.
    destruct (Fs.lookup priv_json (fs w)) as [[c|]|] eqn:El; try discriminate.
    cbv beta iota. unfold read_recorded, Fs.read. rewrite El.
    injection Hread as ->. rewrite Hjson. reflexivity. }
  destruct (cleanup_temp_files_spec env pie_file pub_json priv_json w)
    as (tf & w2 & d & Etf & E & Hfs & T & _ & _ & U & O).
  rewrite Ec in Etf. cbn [fst] in Etf. injection Etf as <-.
  subst w'. rewrite E, Ec. cbn [fst snd].
  assert (forall p, In p [pie_file; pub_json; priv_json] ->
                    p = pie_file \/ p = pub_json \/ p = priv_json) as Three.
  { intros p [<-|[<-|[<-|[]]]]; auto. }
  split; [reflexivity|]. split.
  { unfold cleanup_temp_files, bind in E. rewrite Ec in E.
    destruct (remove_temp_files_spec env [pie_file; pub_json; priv_json]
                (mk_World (fs w) (now w)
                   (trace w ++ [Log WARNING ("Failed to parse " ++ priv_json
                                             ++ " for cleanup: " ++ exn_msg e)])))
      as (w2' & E' & _ & d2 & T2 & _).
    rewrite E in E'. injection E' as <-. cbn [trace] in T2.
    exists (logged WARNING d2).
    rewrite (new_events_app w w2
               ([Log WARNING ("Failed to parse " ++ priv_json ++ " for cleanup: "
                              ++ exn_msg e)] ++ d2)).
    - now rewrite logged_app.
    - now rewrite T2, app_assoc. }
  split; [apply O; cbn; auto|]. split; [apply O; cbn; auto|].
  split; [apply O; cbn; auto|]. split.
  { intros Hfree.
    split; [|split]; apply (cleaned_when_nothing_is_refused env _ w w2 Hfree);
      apply O; cbn; auto. }
  split.
  { intros q Hq. rewrite (new_events_app _ _ _ T) in Hq.
    destruct (U q Hq) as (Hin & Hf & Hn). split; [now apply Three|now split]. }
  intros q N1 N2 N3. destruct (Hfs q) as [Hq|(Hin & _)]; [exact Hq|].
  destruct (Three q Hin) as [?|[?|?]]; contradiction.
Qed.

Lemma cleanup_with_unparseable_private_input_witness :
  let w := mk_World [("pie", Fs.File "p"); ("pub.json", Fs.File "u");
                     ("priv", Fs.File "not json");
                     ("/tmp/trace.bin", Fs.File "t")] PrimFloat.zero [] in
  (let w' := snd (cleanup_temp_files Demo.env "pie" "pub.json" "priv" w) in
   Fs.is_file "pie" (fs w') = false
   /\ Fs.is_file "pub.json" (fs w') = false
   /\ Fs.is_file "priv" (fs w') = false
   /\ Fs.lookup "/tmp/trace.bin" (fs w') = Some (Fs.File "t"))
  /\ (let w' := snd (cleanup_temp_files Demo.guarded "pie" "pub.json" "priv" w) in
      cleaned Demo.guarded "pub.json" w w'
      /\ Fs.is_file "pub.json" (fs w') = true
      /\ logged WARNING (new_events w w')
         = ["Failed to parse priv for cleanup: Expecting value";
            "Failed to clean up pub.json: [Errno 13] Permission denied: 'pub.json'"]).
Proof.
  cbv zeta. split.
  - destruct (cleanup_with_unparseable_private_input Demo.env "pie" "pub.json" "priv"
                (mk_World [("pie", Fs.File "p"); ("pub.json", Fs.File "u");
                           ("priv", Fs.File "not json");
                           ("/tmp/trace.bin", Fs.File "t")] PrimFloat.zero [])
                "not json" (mk_exn "JSONDecodeError" "Expecting value") eq_refl eq_refl)
      as (_ & _ & _ & _ & _ & Hfree & _ & Frame).
    destruct (Hfree (fun _ _ => eq_refl)) as (G1 & G2 & G3).
    split; [exact G1|]. split; [exact G2|]. split; [exact G3|].
    rewrite Frame by discriminate. reflexivity.
  - destruct (cleanup_with_unparseable_private_input Demo.guarded "pie" "pub.json" "priv"
                (mk_World [("pie", Fs.File "p"); ("pub.json", Fs.File "u");
                           ("priv", Fs.File "not json");
                           ("/tmp/trace.bin", Fs.File "t")] PrimFloat.zero [])
                "not json" (mk_exn "JSONDecodeError" "Expecting value") eq_refl eq_refl)
      as (_ & _ & _ & Hpub & _).
    split; [exact Hpub|]. split; vm_compute; reflexivity.
Defined.

(** ** The orchestrator over any range *)

Lemma pair_eta {A B} (p : A * B) a : fst p = a -> p = (a, snd p).
Proof. intros <-. now destruct p. Qed.

(** Batches that succeed are counted and passed. *)
Lemma main_loop_prefix env size done : forall rest pc w0 w1,
  batches_succeed env size done w0 w1 ->
  main_loop env (done ++ rest)%list size pc w0
  = main_loop env rest size (pc + Z.of_nat (length done)) w1.
Proof.
  intros rest pc w0 w1 H. revert pc.
  induction H as [w|height heights w wa w' E _ IH]; intros pc.
  - cbn [app length Z.of_nat]. now rewrite Z.add_0_r.
  - cbn [app main_loop]. unfold bind at 1. rewrite E, IH. f_equal.
    cbn [length]. lia.
Qed.

(** [main] up to its loop. *)
Lemma main_enters_loop env start blocks size heights w w0 :
  py_range start (start + blocks) size = Ok heights ->
  mkdir_exist_ok PROOF_DIR (announced start blocks size w) = (Ok tt, w0) ->
  main env start blocks size w
  = match main_loop env heights size 0 w0 with
    | (Ok (Returned _), w') => (Ok tt, w')
    | (Ok (Exhausted processed_count), w') =>
        (Ok tt,
         mk_World (fs w') (now w')
           (trace w'
            ++ [Log INFO ("All " ++ str processed_count
                          ++ " jobs have been processed successfully")]))
    | (Raise e, w') => (Raise e, w')
    end.
Proof.
  intros Hrange Hmk. unfold main. unfold bind at 1. unfold logger at 1, emit.
  fold (announced start blocks size w). unfold bind at 1. rewrite Hmk.
  unfold bind at 1, lift. rewrite Hrange. unfold bind.
  destruct (main_loop env heights size 0 w0) as [[[pc|pc]|e] w']; reflexivity.
Qed.

(** X11: when every batch of the range succeeds, [main] ends on the
    summary line, and the count in it is the number of heights of the
    range; with an empty range that is 0, and nothing else happens after
    [.proofs] has been made. *)
Theorem main_counts_all_batches (env : Env) start blocks size heights w w0 w1 :
  py_range start (start + blocks) size = Ok heights ->
  mkdir_exist_ok PROOF_DIR (announced start blocks size w) = (Ok tt, w0) ->
  batches_succeed env size heights w0 w1 ->
  main env start blocks size w
  = (Ok tt, mk_World (fs w1) (now w1) (trace w1 ++ [Log INFO (summary_of heights)])).
Proof.
  intros Hrange Hmk Hall.
  rewrite (main_enters_loop env _ _ _ _ _ _ Hrange Hmk).
  pose proof (main_loop_prefix env size heights [] 0 w0 w1 Hall) as E.
  rewrite app_nil_r in E. rewrite E. reflexivity.
Qed.

Lemma main_counts_all_batches_witness :
  exists w1,
    main Demo.env 0 30 10 Demo.world
    = (Ok tt,
       mk_World (fs w1) (now w1)
         (trace w1 ++ [Log INFO "All 3 jobs have been processed successfully"]))
    /\ fst (main Demo.env 0 0 10 Demo.world) = Ok tt
    /\ logged INFO (trace (snd (main Demo.env 0 0 10 Demo.world)))
       = ["Initial height: 0, blocks: 0, step: 10";
          "All 0 jobs have been processed successfully"].
Proof.
  eexists. split.
  - apply (main_counts_all_batches Demo.env 0 30 10 [0; 10; 20] Demo.world _ _ eq_refl
             (pair_eta _ _ eq_refl)).
    eapply succeed_cons; [apply pair_eta; vm_compute; reflexivity|].
    eapply succeed_cons; [apply pair_eta; vm_compute; reflexivity|].
    eapply succeed_cons; [apply pair_eta; vm_compute; reflexivity|].
    apply succeed_nil.
  - rewrite (main_counts_all_batches Demo.env 0 0 10 [] Demo.world _ _ eq_refl
               (pair_eta _ _ eq_refl) (succeed_nil _ _ _)).
    split; reflexivity.
Defined.

(** X12: a range of any length: when the batches before [height] succeed
    and the batch at [height] returns false, [main] logs which height
    failed and returns; the world it leaves is the one that batch left,
    with that one line added, so that no batch of the rest of the range
    is attempted, and no summary is logged. *)
Theorem main_skips_batches_after_a_failure (env : Env)
    start blocks size done height rest w w0 w1 w2 :
  py_range start (start + blocks) size = Ok (done ++ height :: rest)%list ->
  mkdir_exist_ok PROOF_DIR (announced start blocks size w) = (Ok tt, w0) ->
  batches_succeed env size done w0 w1 ->
  prove_batch env height size w1 = (Ok false, w2) ->
  main_loop env (done ++ height :: rest)%list size 0 w0
  = (Ok (Returned (Z.of_nat (length done))),
     mk_World (fs w2) (now w2) (trace w2 ++ [Log INFO (failure_of height)]))
  /\ main env start blocks size w
     = (Ok tt, mk_World (fs w2) (now w2) (trace w2 ++ [Log INFO (failure_of height)])).
Proof.
  intros Hrange Hmk Hdone Hfail.
  assert (main_loop env (done ++ height :: rest)%list size 0 w0
          = (Ok (Returned (Z.of_nat (length done))),
             mk_World (fs w2) (now w2) (trace w2 ++ [Log INFO (failure_of height)]))) as E.
  { rewrite (main_loop_prefix env size done (height :: rest) 0 w0 w1 Hdone).
    cbn [main_loop]. unfold bind at 1. rewrite Hfail. reflexivity. }
  split; [exact E|].
  rewrite (main_enters_loop env _ _ _ _ _ _ Hrange Hmk), E. reflexivity.
Qed.

Lemma main_skips_batches_after_a_failure_witness :
  exists w2,
    main (Demo.flaky 20) 0 40 10 Demo.world
    = (Ok tt,
       mk_World (fs w2) (now w2)
         (trace w2 ++ [Log INFO "Job at height: 20 failed, stopping further processing"]))
    /\ Fs.exists_ ".proofs/light_30_to_40" (fs w2) = false.
Proof.
  epose proof (main_skips_batches_after_a_failure (Demo.flaky 20) 0 40 10 [0; 10] 20 [30]
                 Demo.world _ _ _ eq_refl (pair_eta _ _ eq_refl)) as H.
  specialize (H ltac:(eapply succeed_cons; [apply pair_eta; vm_compute; reflexivity|];
                      eapply succeed_cons; [apply pair_eta; vm_compute; reflexivity|];
                      apply succeed_nil)).
  specialize (H (pair_eta _ _ ltac:(vm_compute; reflexivity))).
  destruct H as [_ H]. eexists. split; [exact H|]. vm_compute. reflexivity.
Defined.

(** The loop never raises: it runs to the end of its heights, counting
    each, or returns on the failure line of one of them. *)
Lemma main_loop_concludes env size heights : forall pc w,
  exists exit w',
    main_loop env heights size pc w = (Ok exit, w')
    /\ match exit with
       | Exhausted n => n = pc + Z.of_nat (length heights)
       | Returned _ =>
           exists height before,
             In height heights
             /\ trace w' = (before ++ [Log INFO (failure_of height)])%list
       end.
Proof.
  induction heights as [|height heights IH]; intros pc w; cbn [main_loop].
  - exists (Exhausted pc), w. split; [reflexivity|]. cbn [length Z.of_nat]. lia.
  - unfold bind at 1. destruct (prove_batch env height size w) as [r w1] eqn:E.
    destruct (prove_batch_total env height size w) as [b Hb].
    rewrite E in Hb. cbn [fst] in Hb. subst r. destruct b.
    + destruct (IH (pc + 1) w1) as (exit & w' & El & Hexit).
      exists exit, w'. split; [exact El|].
      destruct exit as [n|n].
      * cbn [length]. lia.
      * destruct Hexit as (h & before & Hin & T). exists h, before.
        split; [now right|exact T].
    + eexists (Returned pc), _. split; [reflexivity|].
      exists height, (trace w1). split; [now left|reflexivity].
Qed.

Lemma py_range_heights_of start blocks step :
  step <> 0 -> py_range start (start + blocks) step = Ok (heights_of start blocks step).
Proof.
  intros Hs. unfold heights_of, py_range. apply Z.eqb_neq in Hs. now rewrite Hs.
Qed.

(** X13: with a step that is not 0, once [.proofs] is there [main] never
    raises, whatever the batches do: it returns, and the last line it
    logged is either the summary with the number of heights of the range
    or the failure line of one of these heights. *)
Theorem main_always_concludes (env : Env) start blocks step w w0 :
  step <> 0 ->
  mkdir_exist_ok PROOF_DIR (announced start blocks step w) = (Ok tt, w0) ->
  let heights := heights_of start blocks step in
  exists w' before,
    main env start blocks step w = (Ok tt, w')
    /\ (trace w' = (before ++ [Log INFO (summary_of heights)])%list
        \/ exists height,
             In height heights
             /\ trace w' = (before ++ [Log INFO (failure_of height)])%list).
Proof.
  intros Hs Hmk heights.
  rewrite (main_enters_loop env _ _ _ _ _ _ (py_range_heights_of start blocks step Hs) Hmk).
  fold heights.
  destruct (main_loop_concludes env step heights 0 w0) as (exit & w' & E & Hexit).
  rewrite E. destruct exit as [n|n].
  - eexists _, (trace w'). split; [reflexivity|]. left. cbn [trace].
    rewrite Hexit. reflexivity.
  - destruct Hexit as (h & before & Hin & T).
    exists w', before. split; [reflexivity|]. right. exists h. now split.
Qed.

Lemma main_always_concludes_witness :
  exists w' before,
    main Demo.failing_prover 0 30 10 Demo.world = (Ok tt, w')
    /\ trace w'
       = (before ++ [Log INFO "Job at height: 0 failed, stopping further processing"])%list.
Proof.
  destruct (main_always_concludes Demo.failing_prover 0 30 10 Demo.world _
              ltac:(discriminate) (pair_eta _ _ eq_refl))
    as (w' & before & E & H).
  exists w', (removelast (trace w')). split; [exact E|].
  apply (f_equal snd) in E. cbn [snd] in E. rewrite <- E. vm_compute. reflexivity.
Defined.

(** ** What the orchestrator touches *)

Lemma only_main_loop env size all heights : forall pc,
  incl heights all -> only (main_event all size) (main_loop env heights size pc).
Proof.
  induction heights as [|height heights IH]; intros pc Hincl; cbn [main_loop].
  - apply only_ret.
  - apply only_bind.
    + eapply only_mono; [|apply only_prove_batch].
      intros e He. right. right. exists height. split; [|exact He].
      apply Hincl. now left.
    + intros [|].
      * apply IH. intros h Hh. apply Hincl. now right.
      * apply only_bind; [|intros _; apply only_ret].
        apply only_emit. right. left. eauto.
Qed.

(** X14: everything that [main] does is of these kinds: it logs; it makes
    [.proofs]; and what the batch job does at one of the heights of the
    range, with the step as the size of the batch.  Nothing is written
    or launched for a height outside the range. *)
Theorem main_footprint (env : Env) start blocks step w :
  Forall (main_event (heights_of start blocks step) step)
         (new_events w (snd (main env start blocks step w))).
Proof.
  assert (only (main_event (heights_of start blocks step) step)
               (main env start blocks step)) as H.
  { unfold main.
    apply only_bind; [apply only_emit; right; left; eauto|intros _].
    apply only_bind; [apply only_with_fs; now left|intros _].
    apply only_bind_from; [apply (only_pure _ (fun _ => py_range _ _ _))|].
    intros heights w0 w1 E. unfold lift in E. injection E as E _.
    unfold heights_of. rewrite E.
    apply only_bind; [apply only_main_loop, incl_refl|].
    intros [n|n]; [|apply only_ret].
    apply only_emit. right. left. eauto. }
  destruct (main env start blocks step w) as [r w'] eqn:E.
  destruct (H _ _ _ E) as (delta & T & F). cbn [snd].
  now rewrite (new_events_app _ _ _ T).
Qed.

(** ** The heights of a range *)

(** X15: for a positive step the heights of [main] are [start],
    [start + step], ... below [start + blocks]: none when [blocks] is not
    positive; each block of the range falls in the batch of exactly one
    of them, a batch covering [step] blocks from its height; the batch of
    the last height ends at or beyond [start + blocks], by less than one
    step. *)
Theorem batch_heights_cover_the_range start blocks step :
  0 < step ->
  let heights := heights_of start blocks step in
  py_range start (start + blocks) step = Ok heights
  /\ heights = map (fun i => start + Z.of_nat i * step) (seq 0 (length heights))
  /\ (blocks <= 0 -> heights = [])
  /\ (forall h, In h heights -> start <= h < start + blocks)
  /\ (forall b, start <= b < start + blocks ->
        exists h, In h heights /\ h <= b < h + step
                  /\ forall h', In h' heights -> h' <= b < h' + step -> h' = h)
  /\ (0 < blocks ->
        exists last, In last heights
                     /\ start + blocks <= last + step < start + blocks + step).
Proof.
  intros Hs heights.
  assert (step <> 0) as Hne by lia.
  pose proof (py_range_heights_of start blocks step Hne) as Hrange. fold heights in Hrange.
  set (n := (blocks + step - 1) / step).
  assert (heights = map (fun i => start + Z.of_nat i * step) (seq 0 (Z.to_nat n))) as Hh.
  { unfold py_range in Hrange. rewrite (proj2 (Z.eqb_neq _ _) Hne) in Hrange.
    rewrite (proj2 (Z.ltb_lt _ _) Hs) in Hrange. injection Hrange as <-.
    subst n. do 3 f_equal. f_equal. lia. }
  assert (n * step <= blocks + step - 1) as Hmul.
  { subst n. rewrite Z.mul_comm. apply Z.mul_div_le. exact Hs. }
  assert (blocks + step - 1 < (n + 1) * step) as Hmul'.
  { subst n. pose proof (Z.mul_succ_div_gt (blocks + step - 1) step Hs). lia. }
  assert (forall h, In h heights <->
                    exists i, 0 <= i < n /\ h = start + i * step) as Hin.
  { intros h. rewrite Hh, in_map_iff. split.
    - intros (i & <- & Hi). apply in_seq in Hi. exists (Z.of_nat i). split; [lia|reflexivity].
    - intros (i & Hi & ->). exists (Z.to_nat i). split; [f_equal; lia|].
      apply in_seq. lia. }
  assert (forall h, In h heights -> start <= h < start + blocks) as Hbound.
  { intros h Hh'. apply Hin in Hh'. destruct Hh' as (i & Hi & ->). nia. }
  assert (forall b, start <= b < start + blocks ->
            exists h, In h heights /\ h <= b < h + step
                      /\ forall h', In h' heights -> h' <= b < h' + step -> h' = h) as Hcover.
  { intros b Hb. set (i := (b - start) / step).
    assert (i * step <= b - start) as L1.
    { subst i. rewrite Z.mul_comm. apply Z.mul_div_le. exact Hs. }
    assert (b - start < (i + 1) * step) as L2.
    { subst i. pose proof (Z.mul_succ_div_gt (b - start) step Hs). lia. }
    assert (0 <= i) as L3 by (subst i; apply Z.div_pos; lia).
    exists (start + i * step). split; [|split; [lia|]].
    - apply Hin. exists i. split; [|reflexivity]. split; [exact L3|]. nia.
    - intros h' Hh' Hb'. apply Hin in Hh'. destruct Hh' as (j & Hj & ->).
      assert (j = i) as -> by nia. reflexivity. }
  split; [exact Hrange|]. split.
  { rewrite Hh at 1. now rewrite Hh, length_map, length_seq. }
  split.
  { intros Hb. rewrite Hh. assert (n <= 0) as Hn by nia.
    now replace (Z.to_nat n) with 0%nat by lia. }
  split; [exact Hbound|]. split; [exact Hcover|].
  intros Hb. destruct (Hcover (start + blocks - 1) ltac:(lia)) as (h & Hh' & Hr & _).
  exists h. split; [exact Hh'|]. pose proof (Hbound h Hh'). lia.
Qed.

Lemma batch_heights_cover_the_range_witness :
  heights_of 0 25 10 = [0; 10; 20]
  /\ exists last, In last (heights_of 0 25 10) /\ 25 <= last + 10 < 35.
Proof.
  split; [reflexivity|].
  destruct (batch_heights_cover_the_range 0 25 10 ltac:(lia))
    as (_ & _ & _ & _ & _ & H).
  destruct (H ltac:(lia)) as (last & Hin & Hb). exists last. split; [exact Hin|lia].
Defined.

(** X16: a step of 0 is not checked before the work starts: [main]
    announces the run, makes [.proofs], and only then raises the
    [ValueError] of [range]; no batch is attempted. *)
Theorem main_rejects_a_zero_step (env : Env) start blocks w disk' :
  Fs.mkdir_exist_ok PROOF_DIR (fs w) = Ok disk' ->
  main env start blocks 0 w
  = (Raise (mk_exn "ValueError" "range() arg 3 must not be zero"),
     mk_World disk' (now w)
       (trace w
        ++ [Log INFO ("Initial height: " ++ str start ++ ", blocks: " ++ str blocks
                      ++ ", step: 0");
            Mkdir PROOF_DIR])).
Proof.
  intros Hmk. unfold main. unfold bind at 1. unfold logger at 1, emit.
  unfold bind at 1, mkdir_exist_ok, with_fs. cbn [fs now trace]. rewrite Hmk.
  unfold bind at 1, lift, py_range. cbn [Z.eqb trace]. now rewrite <- app_assoc.
Qed.

Lemma main_rejects_a_zero_step_witness :
  fst (main Demo.env 0 30 0 (mk_World [] PrimFloat.zero []))
  = Raise (mk_exn "ValueError" "range() arg 3 must not be zero")
  /\ fs (snd (main Demo.env 0 30 0 (mk_World [] PrimFloat.zero []))) = [(PROOF_DIR, Fs.Dir)].
Proof.
  rewrite (main_rejects_a_zero_step Demo.env 0 30 (mk_World [] PrimFloat.zero [])
             [(PROOF_DIR, Fs.Dir)] eq_refl).
  split; reflexivity.
Defined.

(** ** The verdict of a batch and its log *)

Lemma logged_error_nil d : Forall not_an_error d -> logged ERROR d = [].
Proof.
  induction 1 as [|e d He _ IH]; [reflexivity|].
  cbn [logged flat_map]. fold (logged ERROR d). rewrite IH.
  destruct e as [| | | |[] msg]; try reflexivity. contradiction.
Qed.

Lemma logged_error_last d msg : logged ERROR (d ++ [Log ERROR msg]) <> [].
Proof.
  rewrite logged_app. intros H. apply app_eq_nil in H. destruct H as [_ H]. discriminate.
Qed.

Lemma calm_run_step env job_info batch_dir step_name cmd :
  only not_an_error (run_step env job_info batch_dir step_name cmd).
Proof.
  unfold run_step.
  apply only_bind; [apply only_emit; exact I|intros _].
  apply only_bind.
  - apply (only_mono (fun e => e = Launch (timed cmd) None)); [|apply only_run].
    intros e ->. exact I.
  - intros [[[[out err] rc] el] mm].
    apply only_bind; [|intros _; apply only_ret].
    unfold save_prover_log. apply only_bind; [apply only_pure|intros t].
    apply only_with_fs. exact I.
Qed.

Lemma calm_cleanup env pie_file pub_json priv_json :
  only not_an_error (cleanup_temp_files env pie_file pub_json priv_json).
Proof.
  unfold cleanup_temp_files. apply only_bind.
  - unfold collect_temp_files. apply only_bind; [apply only_pure|].
    intros [|]; [|apply only_ret].
    intros w r w' H.
    destruct (read_recorded env priv_json [pie_file; pub_json] (fs w)) as [[u|e] tf].
    + injection H as <- <-. exists []. now rewrite app_nil_r.
    + revert w r w' H.
      apply only_bind; [apply only_emit; exact I|intros _; apply only_ret].
  - intros tf. apply only_for_each. intros p. unfold remove_temp_file.
    apply only_try_except.
    + apply only_bind; [apply only_pure|]. intros [|]; [|apply only_ret].
      apply only_bind; [apply only_with_fs; exact I|intros _; apply only_emit; exact I].
    + intros e. apply only_emit. exact I.
Qed.

(** What a preparation that returns has done, in order. *)
Lemma prepare_batch_trace env job_info height size w files w1 :
  prepare_batch env job_info height size w = (Ok files, w1) ->
  exists text args_text,
    trace w1
    = (trace w
       ++ [Mkdir (Fs.div PROOF_DIR (batch_name_of height size));
           Log DEBUG (job_info ++ " generating data...");
           WriteFile (Fs.div (Fs.div PROOF_DIR (batch_name_of height size)) "batch.json")
                     text;
           Log DEBUG (job_info ++ " generating args...");
           WriteFile (Fs.div (Fs.div PROOF_DIR (batch_name_of height size))
                             "arguments.json") args_text])%list.
Proof.
  intros H. unfold prepare_batch in H.
  apply bind_Ok_inv in H. destruct H as ([] & wm & Emk & H).
  apply bind_Ok_inv in H. destruct H as (previous & w2 & Eprev & H).
  apply bind_Ok_inv in H. destruct H as ([] & w3 & Elog1 & H).
  apply bind_Ok_inv in H. destruct H as (data & w4 & Edata & H).
  apply bind_Ok_inv in H. destruct H as (chain_state & w5 & Ecs & H).
  apply bind_Ok_inv in H. destruct H as (blocks & w6 & Ebl & H).
  apply bind_Ok_inv in H. destruct H as ([] & w7 & Ewb & H).
  apply bind_Ok_inv in H. destruct H as ([] & w8 & Elog2 & H).
  apply bind_Ok_inv in H. destruct H as (args & w9 & Eargs & H).
  apply bind_Ok_inv in H. destruct H as ([] & w10 & Ewa & H).
  injection H as _ <-.
  assert (w2 = wm) as ->.
  { unfold find_previous_proof in Eprev. destruct (0 <? height); now injection Eprev. }
  unfold mkdir_exist_ok, with_fs in Emk.
  destruct (Fs.mkdir_exist_ok _ (fs w)) as [dm|]; [|discriminate].
  injection Emk as <-.
  injection Elog1 as <-. injection Edata as _ <-. injection Ecs as _ <-.
  injection Ebl as _ <-. cbn [fs now trace] in *.
  unfold write_text, with_fs in Ewb. cbn [fs now trace] in Ewb.
  destruct (Fs.write _ _ dm) as [d2|]; [|discriminate].
  injection Ewb as <-. injection Elog2 as <-. cbn [fs now trace] in *.
  injection Eargs as _ <-.
  unfold write_text, with_fs in Ewa. cbn [fs now trace] in Ewa.
  destruct (Fs.write _ _ d2) as [d3|]; [|discriminate].
  injection Ewa as <-. cbn [trace]. eexists _, _.
  rewrite <- !app_assoc. reflexivity.
Qed.

Lemma conclude_batch_true env job_info steps_info w w' :
  conclude_batch env job_info steps_info w = (Ok true, w') ->
  (exists last, py_last steps_info = Ok last /\ returncode last = 0)
  /\ exists d, trace w' = (trace w ++ d)%list /\ Forall not_an_error d /\ quiet d.
Proof.
  intros H. pose proof (conclude_batch_spec env job_info steps_info w) as S.
  destruct (py_last steps_info) as [last|e] eqn:El; [|rewrite S in H; discriminate].
  destruct S as (delta & S & Q). rewrite S in H. injection H as R <-.
  apply Z.eqb_eq in R. split; [eauto|].
  exists delta. split; [reflexivity|]. split; [|exact Q].
  revert S. unfold conclude_batch, bind at 1, lift. rewrite El, R. cbn [Z.eqb negb].
  intros S.
  match type of S with
  | ?m w = _ =>
      assert (only not_an_error m) as O
  end.
  { apply only_bind;
      [apply only_for_each; intros info; apply only_emit; exact I|intros _].
    apply only_bind; [apply only_emit; exact I|intros _; apply only_ret]. }
  destruct (O _ _ _ S) as (d & T & F). cbn [trace] in T.
  apply app_inv_head in T. now subst.
Qed.

Lemma conclude_batch_false env job_info steps_info w w' :
  conclude_batch env job_info steps_info w = (Ok false, w') ->
  exists msg, trace w' = (trace w ++ [Log ERROR msg])%list.
Proof.
  unfold conclude_batch, bind at 1, lift.
  destruct (py_last steps_info) as [last|e]; [|discriminate].
  destruct (returncode last =? 0) eqn:R; cbn [negb].
  - intros H. exfalso. revert H. unfold bind at 1.
    match goal with |- context [for_each steps_info ?g w] =>
      destruct (for_each steps_info g w) as [[u|e] w1] end; discriminate.
  - intros H. injection H as <-. cbn [trace]. eexists. reflexivity.
Qed.

(** A batch that returns true has logged no error; the stages it went
    through. *)
Lemma prove_batch_true env height size w w' :
  prove_batch env height size w = (Ok true, w') ->
  exists dp dd dc,
    trace w'
    = (trace w ++ [Log DEBUG (job_info_of height size ++ " proving...")]
       ++ dp ++ dd ++ dc)%list
    /\ Forall not_an_error (dp ++ dd ++ dc)
    /\ written dp = [Fs.div (Fs.div PROOF_DIR (batch_name_of height size)) "batch.json";
                     Fs.div (Fs.div PROOF_DIR (batch_name_of height size))
                            "arguments.json"]
    /\ launches dp = []
    /\ written dd
       = map (log_file_of (Fs.div PROOF_DIR (batch_name_of height size))) step_names
    /\ launches dd
       = pipeline (Fs.div PROOF_DIR (batch_name_of height size)) EXECUTABLE
           (Fs.div (Fs.div PROOF_DIR (batch_name_of height size)) "proof.json")
           (Fs.div (Fs.div PROOF_DIR (batch_name_of height size)) "arguments.json")
    /\ quiet dc.
Proof.
  intros H. rewrite prove_batch_unfold in H. unfold prove_batch_body, bind in H.
  destruct (prepare_batch _ _ _ _ _) as [[files|e] w1] eqn:Ep; [|discriminate].
  fold EXECUTABLE in H.
  destruct (run_prover _ _ _ _ _ _) as [[l|e] w2] eqn:Er; [|discriminate].
  destruct (conclude_batch _ _ _ _) as [[[|]|e] w3] eqn:Ec; try discriminate.
  injection H as <-.
  destruct (conclude_batch_true _ _ _ _ _ Ec) as ((last & Hl & R) & dc & Tc & Fc & Qc).
  destruct (prepare_batch_trace _ _ _ _ _ _ _ Ep) as (text & args_text & Tp).
  pose proof (prepare_batch_files _ _ _ _ _ _ _ Ep) as Hfiles. subst files.
  cbn [fst snd] in Er.
  destruct (driver_shape _ _ _ _ _ _ _ _ Er) as (dd & Td & _ & _ & _ & S).
  destruct S as (_ & Hsteps & Hl3 & Hw & _).
  destruct (driver_success_inv _ _ _ _ _ _ _ _ _ Er Hl R)
    as (i1 & wa & i2 & wb & i3 & wc & E1 & _ & E2 & _ & E3 & _ & -> & Ew2).
  rewrite (parent_proof_file height size) in *.
  destruct (calm_run_step _ _ _ _ _ _ _ _ E1) as (d1 & T1 & F1).
  destruct (calm_run_step _ _ _ _ _ _ _ _ E2) as (d2 & T2 & F2).
  destruct (calm_run_step _ _ _ _ _ _ _ _ E3) as (d3 & T3 & F3).
  destruct (cleanup_temp_files env _ _ _ wc) as [rc w2'] eqn:Ecl.
  destruct (calm_cleanup _ _ _ _ _ _ _ Ecl) as (d4 & T4 & F4).
  cbn [snd] in Ew2. subst w2'.
  assert (dd = (d1 ++ d2 ++ d3 ++ d4)%list) as Hdd.
  { rewrite T4, T3, T2, T1, <- !app_assoc in Td. now apply app_inv_head in Td. }
  match type of Tp with _ = (_ ++ ?l)%list => exists l, dd, dc end. split.
  { rewrite Tc, Td, Tp. unfold started. cbn [trace]. rewrite <- !app_assoc. reflexivity. }
  split.
  { apply Forall_app. split; [repeat constructor|].
    apply Forall_app. split; [|exact Fc].
    rewrite Hdd. repeat (apply Forall_app; split); assumption. }
  split; [reflexivity|]. split; [reflexivity|]. split.
  { rewrite Hw. cbn [map length firstn] in Hsteps. cbn [map].
    injection Hsteps as -> -> ->. reflexivity. }
  split; [exact Hl3|exact Qc].
Qed.

(** A batch that returns false ends on a message at ERROR level. *)
Lemma prove_batch_false env height size w w' :
  prove_batch env height size w = (Ok false, w') ->
  exists d msg, trace w' = (trace w ++ d ++ [Log ERROR msg])%list.
Proof.
  intros H. rewrite prove_batch_unfold in H. unfold prove_batch_body, bind in H.
  destruct (prepare_batch _ _ _ _ _) as [[files|e] w1] eqn:Ep;
    destruct (only_prepare_batch _ _ _ _ _ _ _ Ep) as (dp & Tp & _).
  2:{ injection H as <-. cbn [trace]. rewrite Tp. unfold started. cbn [trace].
      exists ([Log DEBUG (job_info_of height size ++ " proving...")] ++ dp)%list. eexists.
      rewrite <- !app_assoc. reflexivity. }
  destruct (run_prover _ _ _ _ _ _) as [[l|e] w2] eqn:Er;
    destruct (only_run_prover _ _ _ _ _ _ _ _ Er) as (dd & Td & _).
  2:{ injection H as <-. cbn [trace]. rewrite Td, Tp. unfold started. cbn [trace].
      exists ([Log DEBUG (job_info_of height size ++ " proving...")] ++ dp ++ dd)%list. eexists.
      rewrite <- !app_assoc. reflexivity. }
  destruct (conclude_batch _ _ _ _) as [[[|]|e] w3] eqn:Ec; try discriminate.
  - injection H as <-. destruct (conclude_batch_false _ _ _ _ _ Ec) as (msg & Tc).
    rewrite Tc, Td, Tp. unfold started. cbn [trace].
    exists ([Log DEBUG (job_info_of height size ++ " proving...")] ++ dp ++ dd)%list, msg.
    rewrite <- !app_assoc. reflexivity.
  - injection H as <-. cbn [trace].
    destruct (only_conclude_batch _ _ _ _ _ _ Ec) as (dc & Tc & _).
    rewrite Tc, Td, Tp. unfold started. cbn [trace].
    exists ([Log DEBUG (job_info_of height size ++ " proving...")] ++ dp ++ dd ++ dc)%list. eexists.
    rewrite <- !app_assoc. reflexivity.
Qed.

(** X17: a batch that returns true has run the whole pipeline: it
    launched the three commands, in their order, on the files of its own
    directory, and wrote, in this order, [batch.json], [arguments.json]
    and the logs of the three steps. *)
Theorem successful_batch_ran_the_pipeline (env : Env) height size w w' :
  prove_batch env height size w = (Ok true, w') ->
  let batch_dir := Fs.div PROOF_DIR (batch_name_of height size) in
  launches (new_events w w')
  = pipeline batch_dir EXECUTABLE (Fs.div batch_dir "proof.json")
      (Fs.div batch_dir "arguments.json")
  /\ written (new_events w w')
     = [Fs.div batch_dir "batch.json"; Fs.div batch_dir "arguments.json";
        Fs.div batch_dir "pie.log"; Fs.div batch_dir "bootload.log";
        Fs.div batch_dir "prove.log"].
Proof.
  intros H batch_dir.
  destruct (prove_batch_true _ _ _ _ _ H)
    as (dp & dd & dc & T & _ & Wp & Lp & Wd & Ld & (Lc & Wc & _)).
  rewrite (new_events_app _ _ _ T).
  rewrite !launches_app, !written_app, Lp, Ld, Lc, Wp, Wd, Wc.
  split; reflexivity.
Qed.

Lemma successful_batch_ran_the_pipeline_witness :
  written (new_events Demo.world (snd (prove_batch Demo.env 0 10 Demo.world)))
  = [".proofs/light_0_to_10/batch.json"; ".proofs/light_0_to_10/arguments.json";
     ".proofs/light_0_to_10/pie.log"; ".proofs/light_0_to_10/bootload.log";
     ".proofs/light_0_to_10/prove.log"].
Proof.
  exact (proj2 (successful_batch_ran_the_pipeline Demo.env 0 10 Demo.world _
                  (pair_eta _ _ ltac:(vm_compute; reflexivity)))).
Defined.

(** X18: the value that [prove_batch] returns can be read off its log: it
    returns true exactly when it logged nothing at ERROR level, and false
    exactly when it did; a failure is never silent. *)
Theorem batch_fails_iff_it_logs_an_error (env : Env) height size w :
  let r := prove_batch env height size w in
  (fst r = Ok true <-> logged ERROR (new_events w (snd r)) = [])
  /\ (fst r = Ok false <-> logged ERROR (new_events w (snd r)) <> []).
Proof.
  cbv zeta. destruct (prove_batch env height size w) as [r w'] eqn:E.
  destruct (prove_batch_total env height size w) as [b Hb].
  rewrite E in Hb. cbn [fst] in Hb. subst r. cbn [fst snd]. destruct b.
  - destruct (prove_batch_true _ _ _ _ _ E) as (dp & dd & dc & T & F & _).
    rewrite (new_events_app _ _ _ T), logged_app, (logged_error_nil _ F).
    split; split; try reflexivity; try discriminate. intros X. now contradiction X.
  - destruct (prove_batch_false _ _ _ _ _ E) as (d & msg & T).
    rewrite (new_events_app _ _ _ T).
    pose proof (logged_error_last d msg) as N.
    split; split; try discriminate; try reflexivity; intros X;
      [contradiction|exact N].
Qed.

(** ** A launch that fails *)

(** X19: when the launch of the first command raises something other
    than a timeout (the timing tool is missing, say), [run] lets it
    through and so does the driver: the command line has been logged and
    one launch attempted; no step is recorded, no step log is written and
    nothing else is launched. *)
Theorem launch_error_leaves_no_step_log (env : Env)
    job_info executable proof arguments w e disk' clock' :
  platform_system env = "Linux" ->
  subprocess_run env (timed (pie_cmd (Fs.parent proof) executable arguments)) None
    (fs w) (now w) = (Raise e, disk', clock') ->
  exn_class e <> "TimeoutExpired" ->
  run env (pie_cmd (Fs.parent proof) executable arguments) None w
  = (Raise e,
     mk_World disk' clock'
       (trace w ++ [Launch (timed (pie_cmd (Fs.parent proof) executable arguments)) None]))
  /\ run_prover env job_info executable proof arguments w
     = (Raise e,
        mk_World disk' clock'
          (trace w
           ++ [Log DEBUG (job_info ++ " [PIE] command:" ++ LF
                          ++ join " " (pie_cmd (Fs.parent proof) executable arguments));
               Launch (timed (pie_cmd (Fs.parent proof) executable arguments)) None])).
Proof.
  intros HL Hrun Hclass.
  assert (TimeoutExpired e = false) as Ht by (now apply String.eqb_neq).
  split.
  - rewrite (run_raised env HL _ _ _ _ _ _ Hrun), Ht. reflexivity.
  - unfold run_prover. unfold bind at 1. unfold run_step. unfold bind at 1.
    unfold logger at 1, emit. unfold bind at 1.
    match goal with
    | |- context [run env ?c None ?w0] =>
        rewrite (run_raised env HL c None w0 e disk' clock' Hrun), Ht
    end.
    cbn [trace]. rewrite <- app_assoc. reflexivity.
Qed.

Lemma launch_error_leaves_no_step_log_witness :
  fst (prove_batch (Demo.env_of "Linux" Demo.no_time_tool) 0 10 Demo.world) = Ok false
  /\ fst (run_prover (Demo.env_of "Linux" Demo.no_time_tool) "job" "program.json"
            ".proofs/proof.json" ".proofs/arguments.json" Demo.world)
     = Raise (mk_exn "FileNotFoundError" "/usr/bin/time").
Proof.
  split; [vm_compute; reflexivity|].
  destruct (launch_error_leaves_no_step_log (Demo.env_of "Linux" Demo.no_time_tool)
              "job" "program.json" ".proofs/proof.json" ".proofs/arguments.json"
              Demo.world (mk_exn "FileNotFoundError" "/usr/bin/time")
              (fs Demo.world) (now Demo.world) eq_refl eq_refl ltac:(discriminate))
    as [_ H].
  now rewrite H.
Defined.

(** ** The peak memory *)

Lemma search_max_rss_eq s :
  search_max_rss s
  = let next := match s with
                | EmptyString => None
                | String _ rest => search_max_rss rest
                end in
    match strip_prefix MAX_RSS s with
    | Some after => if nonempty (take_digits after) then Some (take_digits after) else next
    | None => next
    end.
Proof. destruct s; reflexivity. Qed.

Lemma strip_prefix_prefix p : forall s y, strip_prefix p s = Some y -> String.prefix p s = true.
Proof.
  induction p as [|a p IH]; intros s y H; [now destruct s|].
  destruct s as [|b s]; [discriminate|]. cbn [strip_prefix] in H. cbn [String.prefix].
  destruct (Ascii.eqb_spec a b) as [->|N]; [|discriminate].
  destruct (ascii_dec b b); [|contradiction]. eauto.
Qed.

Lemma strip_prefix_split p : forall s r x,
  strip_prefix p (s ++ r) = Some x ->
  (exists y, strip_prefix p s = Some y) \/ (exists p2, p = s ++ p2).
Proof.
  induction p as [|a p IH]; intros s r x H.
  - left. exists s. now destruct s.
  - destruct s as [|b s]; [right; now exists (String a p)|].
    cbn [append strip_prefix] in *.
    destruct (Ascii.eqb_spec a b) as [->|N]; [|discriminate].
    destruct (IH s r x H) as [(y & Hy)|(p2 & ->)]; [left; eauto|right; eauto].
Qed.

Lemma prefix_app p s : String.prefix p (p ++ s) = true.
Proof.
  induction p as [|a p IH]; [now destruct s|]. cbn [append String.prefix].
  destruct (ascii_dec a a); [exact IH|contradiction].
Qed.

Lemma contains_app needle a b : contains needle (a ++ needle ++ b) = true.
Proof.
  induction a as [|c a IH]; cbn [append].
  - destruct (needle ++ b) eqn:E; cbn [contains]; rewrite <- E, prefix_app; reflexivity.
  - cbn [contains]. rewrite IH. apply orb_true_r.
Qed.

Lemma string_last s : s <> "" -> exists b c, s = b ++ String c "".
Proof.
  induction s as [|a s IH]; [contradiction|]. intros _.
  destruct s as [|a' s'].
  - now exists "", a.
  - destruct (IH ltac:(discriminate)) as (b & c & E). exists (String a b), c.
    cbn [append]. now rewrite <- E.
Qed.

Lemma contains_tail needle c s : contains needle (String c s) = false -> contains needle s = false.
Proof. cbn [contains]. intros H. now apply orb_false_iff in H. Qed.

(** The search finds nothing in a text that does not hold the literal. *)
Lemma search_max_rss_none s : contains MAX_RSS s = false -> search_max_rss s = None.
Proof.
  induction s as [|c s IH]; intros H; rewrite search_max_rss_eq; cbv zeta.
  - reflexivity.
  - destruct (strip_prefix MAX_RSS (String c s)) as [y|] eqn:E.
    + apply strip_prefix_prefix in E. cbn [contains] in H. rewrite E in H. discriminate.
    + apply IH. eapply contains_tail; eauto.
Qed.

(** The search passes over a text that does not hold the literal and
    whose last character is not one of the literal's. *)
Lemma search_max_rss_skip tail : forall before,
  contains MAX_RSS before = false ->
  (forall b c, before = b ++ String c "" -> contains (String c "") MAX_RSS = false) ->
  search_max_rss (before ++ tail) = search_max_rss tail.
Proof.
  induction before as [|a before IH]; intros Hc Hlast; [reflexivity|].
  cbn [append]. rewrite search_max_rss_eq. cbv zeta.
  destruct (strip_prefix MAX_RSS (String a (before ++ tail))) as [y|] eqn:E.
  - exfalso. change (String a (before ++ tail)) with (String a before ++ tail) in E.
    apply strip_prefix_split in E. destruct E as [(y' & Hy)|(p2 & Hp)].
    + apply strip_prefix_prefix in Hy. cbn [contains] in Hc. rewrite Hy in Hc. discriminate.
    + destruct (string_last (String a before) ltac:(discriminate)) as (b & c & Eb).
      pose proof (Hlast b c Eb) as Hn. rewrite Hp, Eb in Hn.
      assert ((b ++ String c "") ++ p2 = b ++ String c "" ++ p2) as X.
      { clear. induction b as [|x b IHb]; [reflexivity|]. cbn [append]. now rewrite IHb. }
      rewrite X, contains_app in Hn. discriminate.
  - apply IH.
    + eapply contains_tail; eauto.
    + intros b c Eb. apply (Hlast (String a b) c). cbn [append]. now rewrite Eb.
Qed.

(** X20: the peak memory that [run] returns is read off the error stream
    of the process: none when the stream does not hold the literal
    [Maximum resident set size (kbytes): ]; and the number that follows
    its first occurrence when the text before it ends a line or an
    indentation, as in the report of [/usr/bin/time -v]. *)
Theorem run_reads_the_peak_memory (env : Env) cmd timeout w out err rc disk' clock' :
  platform_system env = "Linux" ->
  subprocess_run env (timed cmd) timeout (fs w) (now w)
  = (Ok (mk_CompletedProcess out err rc), disk', clock') ->
  exists kept elapsed peak,
    fst (run env cmd timeout w) = Ok (out, kept, rc, elapsed, peak)
    /\ (contains MAX_RSS err = false -> peak = None)
    /\ (forall before n after,
          err = before ++ MAX_RSS ++ str n ++ after ->
          0 <= n ->
          contains MAX_RSS before = false ->
          (forall b c, before = b ++ String c "" ->
                       contains (String c "") MAX_RSS = false) ->
          take_digits after = "" ->
          peak = Some n).
Proof.
  intros HL Hrun. rewrite (run_completed env HL _ _ _ _ _ _ _ _ Hrun). cbn [fst].
  eexists _, _, _. split; [reflexivity|]. split.
  - intros Hc. now rewrite (search_max_rss_none _ Hc).
  - intros before n after -> Hn Hc Hlast Hafter.
    rewrite (search_max_rss_skip _ before Hc Hlast), search_max_rss_eq. cbv zeta.
    rewrite strip_prefix_app.
    destruct (str_digits n Hn) as (d & Hd & Es & _).
    rewrite Es, take_digits_uint, Hafter, append_empty_r.
    rewrite <- (append_empty_r (NilEmpty.string_of_uint d)) at 1.
    rewrite (nonempty_uint d "" Hd), <- Es. cbn [option_map].
    now rewrite (int_of_digits_str n Hn).
Qed.

Lemma run_reads_the_peak_memory_witness :
  exists kept elapsed,
    fst (run Demo.env (prove_cmd "b" "b/proof.json") None Demo.world)
    = Ok ("", kept, 0, elapsed, Some 2048).
Proof.
  destruct (run_reads_the_peak_memory Demo.env (prove_cmd "b" "b/proof.json") None
              Demo.world "" ("prover: done" ++ LF ++ Demo.time_report) 0
              (Fs.set "b/proof.json" (Fs.File "proof") (fs Demo.world))
              (Demo.tick (now Demo.world)) eq_refl eq_refl)
    as (kept & elapsed & peak & E & _ & H).
  exists kept, elapsed. rewrite E. do 3 f_equal.
  apply (H ("prover: done" ++ LF ++ String tab "Command being timed: tool" ++ LF
            ++ String tab "User time (seconds): 0.10" ++ LF ++ String tab "")
           2048 (LF ++ String tab "Exit status: 0")); try reflexivity; [lia|].
  intros b c Eb.
  assert (c = tab) as ->; [|reflexivity].
  assert (forall s b c, s ++ String tab "" = b ++ String c "" -> c = tab) as L.
  { clear. induction s as [|x s IH]; intros [|y b] c E; cbn [append] in E.
    - now injection E.
    - injection E as _ E. destruct b; discriminate.
    - injection E as _ E. destruct s; discriminate.
    - injection E as _ E. eauto. }
  eapply (L ("prover: done" ++ LF ++ String tab "Command being timed: tool" ++ LF
             ++ String tab "User time (seconds): 0.10" ++ LF)).
  rewrite <- Eb. reflexivity.
Defined.
